(** * LiveAvatar AI-SDR: the website-to-context pipeline and the session
      orchestrator, embedded from the TypeScript sources.

    Sources embedded here:
    - [app/api/generate-context/route.ts], basic variant (one page fetched,
      content ceiling 2000) and multi-page variant (homepage plus three
      secondary pages, content ceiling 6000);
    - [src/components/LiveAvatarDemo.tsx], the [startSession] state machine
      and [normalizeUrl].

    JavaScript strings are sequences of UTF-16 code units; they are modelled
    as lists of code units, so that [slice], [length], [trim] and the regular
    expressions act on the same units as in the source. *)

From Stdlib Require Import List NArith ZArith Bool Ascii String Lia.
From Stdlib Require Import Decimal DecimalString.
Import ListNotations.

Set Implicit Arguments.

(** ** JavaScript strings *)

Definition code_unit := N.
Definition jsstring := list code_unit.

(** An ASCII literal of the source, as a JavaScript string. *)
Definition js (s : string) : jsstring :=
  List.map N_of_ascii (list_ascii_of_string s).

Definition cu_eqb (a b : code_unit) : bool := N.eqb a b.

Fixpoint jsstring_eqb (a b : jsstring) : bool :=
  match a, b with
  | [], [] => true
  | x :: a', y :: b' => cu_eqb x y && jsstring_eqb a' b'
  | _, _ => false
  end.

(** ECMAScript WhiteSpace and LineTerminator code units: the set of the
    regular expression class [\s] and of [String.prototype.trim]. *)
Definition isWhiteSpace (c : code_unit) : bool :=
  ((9 <=? c) && (c <=? 13) || (c =? 32) || (c =? 160) || (c =? 5760)
   || (8192 <=? c) && (c <=? 8202) || (c =? 8232) || (c =? 8233)
   || (c =? 8239) || (c =? 8287) || (c =? 12288) || (c =? 65279))%N.

Definition isAsciiUpper (c : code_unit) : bool := ((65 <=? c) && (c <=? 90))%N.
Definition isAsciiLower (c : code_unit) : bool := ((97 <=? c) && (c <=? 122))%N.

(** [toUpperCase] and [toLowerCase] on one code unit.  The source applies
    them to code units of a parsed hostname, which are ASCII; outside ASCII
    the Unicode case tables are not modelled and the unit is kept. *)
Definition toUpperCaseUnit (c : code_unit) : code_unit :=
  if isAsciiLower c then (c - 32)%N else c.
Definition toLowerCaseUnit (c : code_unit) : code_unit :=
  if isAsciiUpper c then (c + 32)%N else c.

Definition toUpperCase (s : jsstring) : jsstring := List.map toUpperCaseUnit s.

(** [String.prototype.slice(start, end)]: negative indices count from the
    end, both are clamped to the string. *)
Definition clampIndex (len i : Z) : Z :=
  if (i <? 0)%Z then Z.max (len + i) 0 else Z.min i len.

Definition slice (s : jsstring) (start : Z) (fin : option Z) : jsstring :=
  let len := Z.of_nat (List.length s) in
  let from := clampIndex len start in
  let to := match fin with Some e => clampIndex len e | None => len end in
  firstn (Z.to_nat (Z.max (to - from) 0)) (skipn (Z.to_nat from) s).

(** [charAt(i)]: the unit at [i] as a string, empty out of range. *)
Definition charAt (s : jsstring) (i : nat) : jsstring :=
  match nth_error s i with Some c => [c] | None => [] end.

Fixpoint startsWith (s p : jsstring) {struct p} : bool :=
  match p, s with
  | [], _ => true
  | x :: p', y :: s' => cu_eqb x y && startsWith s' p'
  | _ :: _, [] => false
  end.

Fixpoint trimStart (s : jsstring) : jsstring :=
  match s with
  | c :: t => if isWhiteSpace c then trimStart t else s
  | [] => []
  end.

Definition trimEnd (s : jsstring) : jsstring := List.rev (trimStart (List.rev s)).
Definition trim (s : jsstring) : jsstring := trimEnd (trimStart s).

(** [Array.prototype.join]. *)
Fixpoint join (sep : jsstring) (l : list jsstring) : jsstring :=
  match l with
  | [] => []
  | [x] => x
  | x :: t => x ++ sep ++ join sep t
  end.

(** [Array.prototype.slice(0, n)] for a count [n] that is not negative. *)
Definition slice_list {A : Type} (l : list A) (n : nat) : list A := firstn n l.

(** A string is truthy when it is not empty. *)
Definition truthy (s : jsstring) : bool :=
  match s with [] => false | _ => true end.

(** [a || b] on values that are a string or [undefined]. *)
Definition orElse (a b : option jsstring) : option jsstring :=
  match a with
  | Some (_ :: _) => a
  | _ => b
  end.

(** ** Regular expressions

    A backtracking matcher for the fragment of ECMAScript regular
    expressions the sources use: classes, sequence, alternation, greedy and
    lazy star, one capture group, and the anchors.  Priorities follow the
    ECMAScript matcher: the first alternative first, a greedy star tries one
    more iteration first, a lazy star tries to stop first, and an iteration
    that consumes nothing is rejected.  The loop of a star is bounded by the
    number of units left: every accepted iteration consumes at least one,
    so the bound is never what stops it. *)

Inductive regex : Type :=
| Empty
| Class (p : code_unit -> bool)
| Seq (r s : regex)
| Alt (r s : regex)
| Star (r : regex)
| LazyStar (r : regex)
| Opt (r : regex)
| Group (r : regex)
| Bol
| Eol.

(** Matcher state: index in the subject, what is left of it, and the text
    of the capture group when it has taken part in the match. *)
Record mstate := MState {
  idx : nat;
  rest : jsstring;
  cap : option jsstring
}.

Definition advance (st : mstate) (t : jsstring) : mstate :=
  {| idx := S (idx st); rest := t; cap := cap st |}.

Definition firstSome (a b : option mstate) : option mstate :=
  match a with Some _ => a | None => b end.

Fixpoint rmatch (r : regex) (st : mstate) (k : mstate -> option mstate)
  {struct r} : option mstate :=
  match r with
  | Empty => k st
  | Class p =>
      match rest st with
      | c :: t => if p c then k (advance st t) else None
      | [] => None
      end
  | Seq a b => rmatch a st (fun st' => rmatch b st' k)
  | Alt a b => firstSome (rmatch a st k) (rmatch b st k)
  | Star a =>
      (fix loop (fuel : nat) (st : mstate) {struct fuel} : option mstate :=
         match fuel with
         | O => k st
         | S fuel' =>
             firstSome
               (rmatch a st (fun st' =>
                  if Nat.ltb (idx st) (idx st') then loop fuel' st' else None))
               (k st)
         end) (List.length (rest st)) st
  | LazyStar a =>
      (fix loop (fuel : nat) (st : mstate) {struct fuel} : option mstate :=
         match fuel with
         | O => k st
         | S fuel' =>
             firstSome
               (k st)
               (rmatch a st (fun st' =>
                  if Nat.ltb (idx st) (idx st') then loop fuel' st' else None))
         end) (List.length (rest st)) st
  | Opt a => firstSome (rmatch a st k) (k st)
  | Group a =>
      rmatch a st (fun st' =>
        k {| idx := idx st';
             rest := rest st';
             cap := Some (firstn (idx st' - idx st) (rest st)) |})
  | Bol => if Nat.eqb (idx st) 0 then k st else None
  | Eol => match rest st with [] => k st | _ :: _ => None end
  end.

(** A match attempt that starts at index [i], where [s] is left. *)
Definition matchAt (r : regex) (i : nat) (s : jsstring) : option mstate :=
  rmatch r {| idx := i; rest := s; cap := None |} Some.

(** [RegExp.prototype.exec] without the global flag: the leftmost start
    index with a match.  Returns the start index and the final state. *)
Fixpoint execFrom (r : regex) (i : nat) (s : jsstring) : option (nat * mstate) :=
  match matchAt r i s with
  | Some st => Some (i, st)
  | None =>
      match s with
      | [] => None
      | _ :: t => execFrom r (S i) t
      end
  end.

Definition exec (r : regex) (s : jsstring) : option (nat * mstate) :=
  execFrom r 0 s.

(** [RegExp.prototype.test] / [String.prototype.match] used as a condition. *)
Definition test (r : regex) (s : jsstring) : bool :=
  match exec r s with Some _ => true | None => false end.

(** [s.match(r)[1]] for a regular expression with one group and no global
    flag: [None] when there is no match. *)
Definition matchGroup1 (r : regex) (s : jsstring) : option jsstring :=
  match exec r s with
  | Some (_, st) => Some (match cap st with Some g => g | None => [] end)
  | None => None
  end.

(** [s.replace(r, repl)] without the global flag.  No replacement text of
    the sources contains a dollar sign, so the text is inserted as it is. *)
Definition replaceFirst (r : regex) (repl s : jsstring) : jsstring :=
  match exec r s with
  | Some (i, st) => firstn i s ++ repl ++ rest st
  | None => s
  end.

(** [s.replace(r, repl)] with the global flag: matches are taken from left
    to right, the search resumes where the last match ended, and after an
    empty match it resumes one unit further. *)
Fixpoint replaceAllFrom (fuel : nat) (r : regex) (repl : jsstring)
  (i : nat) (s : jsstring) {struct fuel} : jsstring :=
  match fuel with
  | O => s
  | S fuel' =>
      match matchAt r i s with
      | Some st =>
          if Nat.ltb i (idx st)
          then repl ++ replaceAllFrom fuel' r repl (idx st) (rest st)
          else repl ++
               match s with
               | [] => []
               | c :: t => c :: replaceAllFrom fuel' r repl (S i) t
               end
      | None =>
          match s with
          | [] => []
          | c :: t => c :: replaceAllFrom fuel' r repl (S i) t
          end
      end
  end.

Definition replaceAll (r : regex) (repl s : jsstring) : jsstring :=
  replaceAllFrom (S (List.length s)) r repl 0 s.

(** [s.replace(pat, repl)] with a string pattern: the first occurrence. *)
Fixpoint replaceString (pat repl s : jsstring) : jsstring :=
  if startsWith s pat then repl ++ skipn (List.length pat) s
  else match s with
       | [] => []
       | c :: t => c :: replaceString pat repl t
       end.

(** [s.split(r)] for a separator that is one code unit of a class. *)
Fixpoint splitClass (p : code_unit -> bool) (s : jsstring) : list jsstring :=
  match s with
  | [] => [[]]
  | c :: t =>
      if p c then [] :: splitClass p t
      else match splitClass p t with
           | w :: ws => (c :: w) :: ws
           | [] => [[c]]
           end
  end.

(** Regular expression literals. *)

Definition chr (c : code_unit) : regex := Class (cu_eqb c).
Definition notChr (c : code_unit) : regex := Class (fun x => negb (cu_eqb c x)).
Definition anyUnit : regex := Class (fun _ => true).

(** One pattern character under the [i] flag.  For an ASCII letter the
    units with the same canonical form are its two cases (a unit outside
    ASCII never canonicalizes into ASCII); other ASCII characters match
    themselves. *)
Definition chrI (c : code_unit) : regex :=
  Class (fun x => cu_eqb (toUpperCaseUnit c) (toUpperCaseUnit x)).

Fixpoint seqs (l : list regex) : regex :=
  match l with
  | [] => Empty
  | [r] => r
  | r :: t => Seq r (seqs t)
  end.

Fixpoint alts (l : list regex) : regex :=
  match l with
  | [] => Class (fun _ => false)
  | [r] => r
  | r :: t => Alt r (alts t)
  end.

Definition lit (s : string) : regex := seqs (List.map chr (js s)).
Definition litI (s : string) : regex := seqs (List.map chrI (js s)).
Definition plus (r : regex) : regex := Seq r (Star r).

Definition GT : code_unit := 62%N.
Definition LT : code_unit := 60%N.
Definition DQUOTE : code_unit := 34%N.
Definition SQUOTE : code_unit := 39%N.

(** ** The platform's URL parser

    [new URL(s)] is a platform function.  The pipeline is embedded over an
    arbitrary parser [newURL] ([None] when the constructor throws), and
    [parseURL] below is a model of the WHATWG parser on the inputs the
    pipeline is meant for. *)

Record URL := MkURL {
  hostname : jsstring;
  origin : jsstring
}.

Fixpoint span (p : code_unit -> bool) (s : jsstring) : jsstring * jsstring :=
  match s with
  | c :: t =>
      if p c then let (a, b) := span p t in (c :: a, b) else ([], s)
  | [] => ([], [])
  end.

Fixpoint dropWhile (p : code_unit -> bool) (s : jsstring) : jsstring :=
  match s with
  | c :: t => if p c then dropWhile p t else s
  | [] => []
  end.

Definition isC0OrSpace (c : code_unit) : bool := (c <=? 32)%N.
Definition isTabOrNewline (c : code_unit) : bool :=
  ((c =? 9) || (c =? 10) || (c =? 13))%N.
Definition isAsciiDigit (c : code_unit) : bool := ((48 <=? c) && (c <=? 57))%N.
Definition isAsciiAlpha (c : code_unit) : bool := isAsciiUpper c || isAsciiLower c.
Definition isSchemeUnit (c : code_unit) : bool :=
  (isAsciiAlpha c || isAsciiDigit c || (c =? 43) || (c =? 45) || (c =? 46))%N.
Definition isSlash (c : code_unit) : bool := ((c =? 47) || (c =? 92))%N.
Definition isAuthorityEnd (c : code_unit) : bool :=
  (isSlash c || (c =? 63) || (c =? 35))%N.

(** Forbidden domain code points of the URL Standard. *)
Definition isForbiddenDomainUnit (c : code_unit) : bool :=
  ((c <=? 32) || (c =? 35) || (c =? 37) || (c =? 47) || (c =? 58) || (c =? 60)
   || (c =? 62) || (c =? 63) || (c =? 64) || (c =? 91) || (c =? 92)
   || (c =? 93) || (c =? 94) || (c =? 124) || (c =? 127))%N.

(** The part of an authority after its last [@], and whether there is one. *)
Fixpoint afterLastAt (s : jsstring) : bool * jsstring :=
  match s with
  | [] => (false, [])
  | c :: t =>
      match afterLastAt t with
      | (true, r) => (true, r)
      | (false, _) => if (c =? 64)%N then (true, t) else (false, s)
      end
  end.

(** The special schemes other than [file], with their default ports. *)
Definition defaultPort (scheme : jsstring) : option N :=
  if jsstring_eqb scheme (js "http") then Some 80%N
  else if jsstring_eqb scheme (js "https") then Some 443%N
  else if jsstring_eqb scheme (js "ws") then Some 80%N
  else if jsstring_eqb scheme (js "wss") then Some 443%N
  else if jsstring_eqb scheme (js "ftp") then Some 21%N
  else None.

Definition digitsValue (s : jsstring) : N :=
  fold_left (fun acc c => (10 * acc + (c - 48))%N) s 0%N.

Definition decimal (n : N) : jsstring :=
  js (NilZero.string_of_uint (N.to_uint n)).

(** The last label of a host, after one trailing dot is dropped. *)
Definition lastLabel (host : jsstring) : jsstring :=
  let labels := splitClass (cu_eqb 46%N) host in
  let labels' := match List.rev labels with
                 | [] :: (_ :: _) as more => more
                 | l => l
                 end in
  match labels' with l :: _ => l | [] => [] end.

(** A last label that the URL Standard reads as a number.  Such a host is
    an IPv4 address. *)
Definition endsInANumber (host : jsstring) : bool :=
  let l := lastLabel host in
  match l with
  | [] => false
  | _ =>
      forallb isAsciiDigit l
      || match l with
         | 48%N :: x :: hex =>
             ((x =? 120) || (x =? 88))%N
             && forallb (fun c => isAsciiDigit c
                                  || ((97 <=? toLowerCaseUnit c)
                                      && (toLowerCaseUnit c <=? 102))%N) hex
         | _ => false
         end
  end.

Definition hasPunycodeLabel (host : jsstring) : bool :=
  existsb (fun l => startsWith (List.map toLowerCaseUnit l) (js "xn--"))
          (splitClass (cu_eqb 46%N) host).

(** Model of [new URL(input)] with no base URL, after the URL Standard's
    basic parser: surrounding C0 controls and spaces are stripped, tabs and
    newlines removed; a scheme is required; for the schemes http, https, ws,
    wss and ftp the slashes are skipped, the authority runs to the next
    slash, question mark or hash, credentials before the last [@] are
    dropped, the port must be decimal and at most 65535, and the host must
    be non-empty with no forbidden code point; the host is lowercased.
    Not modelled, and reported as [None] here: other schemes, and hosts
    that are IPv4 or IPv6 addresses, percent-encoded, non-ASCII or
    punycode. *)
Definition parseURL (input : jsstring) : option URL :=
  let stripped :=
    List.rev (dropWhile isC0OrSpace (List.rev (dropWhile isC0OrSpace input))) in
  let s := List.filter (fun c => negb (isTabOrNewline c)) stripped in
  match s with
  | [] => None
  | c :: _ =>
      if negb (isAsciiAlpha c) then None else
      let (sch, after) := span isSchemeUnit s in
      match after with
      | 58%N :: r =>
          let scheme := List.map toLowerCaseUnit sch in
          match defaultPort scheme with
          | None => None
          | Some dflt =>
              let (authority, _) :=
                span (fun c => negb (isAuthorityEnd c)) (dropWhile isSlash r) in
              let (_, hostport) := afterLastAt authority in
              let (host, portPart) :=
                span (fun c => negb (c =? 58)%N) hostport in
              let portDigits := match portPart with _ :: d => d | [] => [] end in
              if negb (truthy host) then None
              else if negb (forallb isAsciiDigit portDigits) then None
              else if (65535 <? digitsValue portDigits)%N then None
              else if existsb isForbiddenDomainUnit host then None
              else if existsb (fun c => (127 <? c)%N) host then None
              else if hasPunycodeLabel host then None
              else if endsInANumber host then None
              else
                let h := List.map toLowerCaseUnit host in
                let port :=
                  if negb (truthy portDigits) then []
                  else if (digitsValue portDigits =? dflt)%N then []
                  else js ":" ++ decimal (digitsValue portDigits) in
                Some {| hostname := h;
                        origin := scheme ++ js "://" ++ h ++ port |}
          end
      | _ => None
      end
  end.

(** ** Business Identity Resolver: [extractBusinessName]

    The function is the same text in every variant of [route.ts]. *)

Definition isDotOrHyphen (c : code_unit) : bool := ((c =? 46) || (c =? 45))%N.

(** [/^www\./] *)
Definition re_www : regex := seqs [Bol; lit "www."].

(** [/\.(com|org|net|io|co|ai|app)$/] *)
Definition re_tld : regex :=
  seqs [chr 46%N;
        Group (alts [lit "com"; lit "org"; lit "net"; lit "io"; lit "co";
                     lit "ai"; lit "app"]);
        Eol].

Definition capitalize (word : jsstring) : jsstring :=
  toUpperCase (charAt word 0) ++ slice word 1 None.

Definition extractBusinessName (newURL : jsstring -> option URL)
  (url content : jsstring) : jsstring :=
  match newURL url with
  | Some u =>
      let name := replaceFirst re_tld [] (replaceFirst re_www [] (hostname u)) in
      join (js " ") (List.map capitalize (splitClass isDotOrHyphen name))
  | None => js "the company"
  end.

(** ** Text Extractor and Prompt Composer, basic variant *)

(** [/<tag[^>]*>[\s\S]*?<\/tag>/gi] *)
Definition re_element (tag : string) : regex :=
  seqs [litI (String "<" tag); Star (notChr GT); chr GT;
        LazyStar anyUnit; litI ("</" ++ tag ++ ">")].

(** [/<[^>]+>/g] *)
Definition re_tag : regex := seqs [chr LT; plus (notChr GT); chr GT].

(** [/\s+/g] *)
Definition re_spaces : regex := plus (Class isWhiteSpace).

(** The entity decoding and whitespace clean-up shared by the variants:
    the six replacements in the order of the source, then [\s+] to one
    space, then [trim]. *)
Definition decodeAndClean (text : jsstring) : jsstring :=
  let text := replaceAll (lit "&nbsp;") (js " ") text in
  let text := replaceAll (lit "&amp;") (js "&") text in
  let text := replaceAll (lit "&lt;") (js "<") text in
  let text := replaceAll (lit "&gt;") (js ">") text in
  let text := replaceAll (lit "&quot;") [DQUOTE] text in
  let text := replaceAll (lit "&#39;") (js "'") text in
  trim (replaceAll re_spaces (js " ") text).

(** ** Effects

    The handlers call the network, read the clock and throw.  A computation
    takes the world it runs in (the answers of the outside) and the state it
    threads, and returns a value or a thrown error message together with the
    new state.  For the route handlers the state is the list of outbound
    calls issued so far, in order. *)

Inductive Result (A : Type) : Type :=
| Ok (a : A)
| Throw (message : jsstring).
Arguments Ok {A} a.
Arguments Throw {A} message.

Definition Eff (W S A : Type) : Type := W -> S -> Result A * S.

Definition ret {W S A : Type} (a : A) : Eff W S A := fun _ s => (Ok a, s).

Definition throw {W S A : Type} (m : jsstring) : Eff W S A :=
  fun _ s => (Throw m, s).

Definition bind {W S A B : Type} (e : Eff W S A) (k : A -> Eff W S B)
  : Eff W S B :=
  fun w s =>
    match e w s with
    | (Ok a, s') => k a w s'
    | (Throw m, s') => (Throw m, s')
    end.

(** [try { e } catch (err) { h err.message }] *)
Definition catch {W S A : Type} (e : Eff W S A) (h : jsstring -> Eff W S A)
  : Eff W S A :=
  fun w s =>
    match e w s with
    | (Ok a, s') => (Ok a, s')
    | (Throw m, s') => h m w s'
    end.

Definition ask {W S A : Type} (f : W -> A) : Eff W S A :=
  fun w s => (Ok (f w), s).

Definition modify {W S : Type} (f : S -> S) : Eff W S unit :=
  fun _ s => (Ok tt, f s).

Declare Scope eff_scope.
Delimit Scope eff_scope with eff.
Notation "x <- e ;; k" := (bind e (fun x => k))
  (at level 61, e at next level, right associativity) : eff_scope.
Notation "e ;;; k" := (bind e (fun _ => k))
  (at level 61, right associativity) : eff_scope.
Open Scope eff_scope.

Fixpoint mapM {W S A B : Type} (f : A -> Eff W S B) (l : list A)
  : Eff W S (list B) :=
  match l with
  | [] => ret []
  | a :: t => b <- f a ;; bs <- mapM f t ;; ret (b :: bs)
  end.

(** ** The outside of the route handler *)

(** [secrets.ts] *)
Definition API_URL : jsstring := js "https://api.liveavatar.com".
Definition AVATAR_ID : jsstring := js "513fd1b7-7ef9-466d-9af2-344e51eeb833".
Definition VOICE_ID : jsstring := js "de5574fc-009e-4a01-a881-9919ef8f5a0c".

(** [res.ok]: a status in the range 200 to 299. *)
Definition isOk (status : Z) : bool := ((200 <=? status) && (status <=? 299))%Z.

(** What a fetch of a website page comes to: the fetch (or the reading of
    the body) rejects, on a network error or when the timeout aborts it, or
    a response arrives with a status and a body. *)
Inductive PageOutcome : Type :=
| PageError
| PageStatus (status : Z) (body : jsstring).

(** An entry of the remote list of contexts, as the source types it. *)
Record Context := MkContext {
  ctx_id : jsstring;
  ctx_name : jsstring
}.

(** The answer to [GET /v1/contexts?page=1&page_size=100]: the fetch or the
    JSON decoding rejects, or a response arrives; [results] is
    [data.data?.results || []]. *)
Inductive ListOutcome : Type :=
| ListError
| ListStatus (status : Z) (results : list Context).

Record CreateArgs := MkCreateArgs {
  arg_name : jsstring;
  arg_avatar_id : jsstring;
  arg_voice_id : jsstring;
  arg_prompt : jsstring;
  arg_opening_text : jsstring
}.

(** The fields the handler reads from the answer to [POST /v1/contexts]:
    [data?.[0]?.message] of an error body, [data?.context_id] and
    [data?.id] of a success body; each may be absent. *)
Record CreateData := MkCreateData {
  first_message : option jsstring;
  context_id : option jsstring;
  data_id : option jsstring
}.

(** The answer to the create call: the fetch rejects or the body cannot be
    read as JSON data (an exception with its message), or a response
    arrives. *)
Inductive CreateOutcome : Type :=
| CreateError (message : jsstring)
| CreateStatus (status : Z) (data : CreateData).

Record World := MkWorld {
  getPage : jsstring -> PageOutcome;
  listContexts : ListOutcome;
  createContext : CreateArgs -> CreateOutcome;
  now : N
}.

(** Outbound calls, as recorded in the trace. *)
Inductive Call : Type :=
| CallPage (url : jsstring) (timeoutMs : option Z)
| CallListContexts
| CallCreateContext (args : CreateArgs).

Definition Net (A : Type) : Type := Eff World (list Call) A.

Definition issue (c : Call) : Net unit := modify (fun tr => tr ++ [c]).

Definition fetchUrl (url : jsstring) (timeoutMs : option Z) : Net PageOutcome :=
  issue (CallPage url timeoutMs) ;;; ask (fun w => getPage w url).

(** The request body and the response of the endpoint. *)
Record Request := MkRequest {
  userName : jsstring;
  businessUrl : jsstring;
  avatarId : option jsstring;
  voiceId : option jsstring
}.

Inductive ResponseBody : Type :=
| ErrorBody (error : jsstring)
| ContextBody (contextId : option jsstring) (businessName : jsstring)
              (reused : bool).

Record Response := MkResponse {
  status : Z;
  body : ResponseBody
}.

(** [o || d] where [o] is a string or absent and [d] a string. *)
Definition withDefault (o : option jsstring) (d : jsstring) : jsstring :=
  match o with
  | Some (c :: t) => c :: t
  | _ => d
  end.

(** The message of the TypeError that [new URL] throws (Node's text). *)
Definition invalidUrlMessage : jsstring := js "Invalid URL".

(** ** Context Repository Client: [findExistingContext]

    The same text in both variants that have it.  Every failure of the
    lookup is turned into [null]. *)
Definition findExistingContext (businessName : jsstring)
  : Net (option jsstring) :=
  issue CallListContexts ;;;
  res <- ask listContexts ;;
  match res with
  | ListError => ret None
  | ListStatus st contexts =>
      if negb (isOk st) then ret None
      else
        let searchPrefix := businessName ++ js " Sales Rep" in
        match List.find (fun ctx => startsWith (ctx_name ctx) searchPrefix)
                        contexts with
        | Some matching => ret (Some (ctx_id matching))
        | None => ret None
        end
  end.

(** The [name] of the create call: the business name, [ Sales Rep - ],
    the user name, and [Date.now()] in parentheses. *)
Definition contextName (businessName userName : jsstring) (timestamp : N)
  : jsstring :=
  businessName ++ js " Sales Rep - " ++ userName
  ++ js " (" ++ decimal timestamp ++ js ")".

(** Steps 2 to 4 of [POST], the same text in both variants: reuse a
    context that the lookup found, else compose the prompt and create one.
    [systemPrompt] is the prompt of the variant. *)
Definition reuseOrCreate (req : Request) (businessName systemPrompt : jsstring)
  : Net Response :=
  let selectedAvatarId := withDefault (avatarId req) AVATAR_ID in
  let selectedVoiceId := withDefault (voiceId req) VOICE_ID in
  existingContextId <- findExistingContext businessName ;;
  match existingContextId with
  | Some (c :: t) =>
      ret {| status := 200;
             body := ContextBody (Some (c :: t)) businessName true |}
  | _ =>
      timestamp <- ask now ;;
      let args :=
        {| arg_name := contextName businessName (userName req) timestamp;
           arg_avatar_id := selectedAvatarId;
           arg_voice_id := selectedVoiceId;
           arg_prompt := systemPrompt;
           arg_opening_text :=
             js "Hi there! I'm the AI sales assistant for " ++ businessName
             ++ js ". How can I help you today?" |} in
      issue (CallCreateContext args) ;;;
      contextRes <- ask (fun w => createContext w args) ;;
      match contextRes with
      | CreateError m => throw m
      | CreateStatus st data =>
          if negb (isOk st) then
            ret {| status := st;
                   body := ErrorBody (withDefault (first_message data)
                                        (js "Failed to create context")) |}
          else
            ret {| status := 200;
                   body := ContextBody (orElse (context_id data) (data_id data))
                                       businessName false |}
      end
  end.

Definition missingFields : Response :=
  {| status := 400; body := ErrorBody (js "Missing userName or businessUrl") |}.

Definition couldNotAccess (url : jsstring) : Response :=
  {| status := 400;
     body := ErrorBody
       (js "Could not access the website " ++ [DQUOTE] ++ url ++ [DQUOTE]
        ++ js ". Please double-check the URL and make sure the website is accessible.") |}.

(** The outer [try]/[catch] of [POST]: a thrown error becomes a 500. *)
Definition orInternalError (e : Net Response) : Net Response :=
  catch e (fun m => ret {| status := 500; body := ErrorBody m |}).

Module Basic.

Definition extractTextFromHtml (html : jsstring) : jsstring :=
  let text := replaceAll (re_element "script") [] html in
  let text := replaceAll (re_element "style") [] text in
  let text := replaceAll re_tag (js " ") text in
  decodeAndClean text.

Definition generateSalesPrompt (userName businessName websiteContent : jsstring)
  : jsstring :=
  let truncatedContent := slice websiteContent 0 (Some 2000%Z) in
  js "You are a friendly and knowledgeable AI sales representative for "
  ++ businessName
  ++ js ". Your name is "
  ++ userName
  ++ js "'s AI Assistant.

Your role is to:
- Welcome visitors warmly and learn about their needs
- Answer questions about "
  ++ businessName
  ++ js "'s products and services
- Help potential customers understand how "
  ++ businessName
  ++ js " can solve their problems
- Guide interested visitors toward taking the next step (booking a demo, contacting sales, etc.)

Here is information about the business from their website:
"
  ++ truncatedContent
  ++ js "

Communication style:
- Be conversational and approachable, not salesy or pushy
- Listen actively and ask clarifying questions
- Provide helpful, accurate information based on what you know
- If you don't know something specific, offer to connect them with a human team member
- Keep responses concise and natural for voice conversation

Remember: You're having a real-time voice conversation, so keep your responses brief and conversational.".

(** Step 1 of [POST], basic variant: one fetch of the submitted URL.  The
    result is the value of the three variables [websiteContent],
    [businessName] and [websiteFetchFailed] after the inner [try]. *)
Definition fetchWebsite (newURL : jsstring -> option URL)
  (businessUrl : jsstring) : Net (jsstring * jsstring * bool) :=
  websiteRes <- fetchUrl businessUrl None ;;
  match websiteRes with
  | PageStatus st html =>
      if isOk st then
        let websiteContent := extractTextFromHtml html in
        ret (websiteContent,
             extractBusinessName newURL businessUrl websiteContent,
             false)
      else ret ([], [], true)
  | PageError => ret ([], [], true)
  end.

(** [POST], basic variant. *)
Definition POST (newURL : jsstring -> option URL) (req : Request)
  : Net Response :=
  orInternalError
    (if negb (truthy (userName req)) || negb (truthy (businessUrl req))
     then ret missingFields
     else
       site <- fetchWebsite newURL (businessUrl req) ;;
       let '(websiteContent, businessName, websiteFetchFailed) := site in
       if (websiteFetchFailed : bool)
       then ret (couldNotAccess (businessUrl req))
       else
         reuseOrCreate req businessName
           (generateSalesPrompt (userName req) businessName websiteContent)).

End Basic.

(** ** Text Extractor and Prompt Composer, multi-page variant *)

Module MultiPage.

Definition extractTextFromHtml (html : jsstring) : jsstring :=
  let text := replaceAll (re_element "script") [] html in
  let text := replaceAll (re_element "style") [] text in
  let text := replaceAll (re_element "nav") [] text in
  let text := replaceAll (re_element "footer") [] text in
  let text := replaceAll (re_element "header") [] text in
  let text := replaceAll re_tag (js " ") text in
  decodeAndClean text.

Definition re_quote : regex :=
  Class (fun c => cu_eqb DQUOTE c || cu_eqb SQUOTE c).
Definition re_notQuote : regex :=
  Class (fun c => negb (cu_eqb DQUOTE c || cu_eqb SQUOTE c)).

(** [/<title[^>]*>([^<]+)<\/title>/i] *)
Definition re_title : regex :=
  seqs [litI "<title"; Star (notChr GT); chr GT;
        Group (plus (notChr LT)); litI "</title>"].

(** The meta-description expression of the source, where Q stands for the
    class of the two quote characters and NQ for its complement:
    [/<meta[^>]*name=QdescriptionQ[^>]*content=Q(NQ+)Q/i], and the same
    with [property=Qog:descriptionQ]. *)
Definition re_meta (attr value : string) : regex :=
  seqs [litI "<meta"; Star (notChr GT); litI attr; re_quote; litI value;
        re_quote; Star (notChr GT); litI "content="; re_quote;
        Group (plus re_notQuote); re_quote].

Definition extractTitle (html : jsstring) : jsstring :=
  match matchGroup1 re_title html with
  | Some g => trim g
  | None => []
  end.

Definition extractMetaDescription (html : jsstring) : jsstring :=
  match matchGroup1 (re_meta "name=" "description") html with
  | Some g => trim g
  | None =>
      match matchGroup1 (re_meta "property=" "og:description") html with
      | Some g => trim g
      | None => []
      end
  end.

Definition generateSalesPrompt
  (userName businessName websiteContent title description : jsstring)
  : jsstring :=
  let truncatedContent := slice websiteContent 0 (Some 6000%Z) in
  js "You are a friendly and knowledgeable AI sales representative for "
  ++ businessName
  ++ js ". Your name is "
  ++ userName
  ++ js "'s AI Assistant.

Company Overview:
- Company: "
  ++ businessName
  ++ js "
"
  ++ (if truthy title then js "- Title: " ++ title else [])
  ++ js "
"
  ++ (if truthy description then js "- Description: " ++ description else [])
  ++ js "

Your role is to:
- Welcome visitors warmly and learn about their needs
- Answer questions about "
  ++ businessName
  ++ js "'s products, services, and offerings
- Provide accurate, up-to-date information about "
  ++ businessName
  ++ js "
- Help potential customers understand how "
  ++ businessName
  ++ js " can solve their problems
- Guide interested visitors toward taking the next step (booking a demo, contacting sales, signing up, etc.)

IMPORTANT: Base your answers ONLY on the information provided below. If asked about something not covered in the content below, say you'd be happy to connect them with someone who can help with that specific question.

Here is detailed information about "
  ++ businessName
  ++ js " from their website:

"
  ++ truncatedContent
  ++ js "

Communication style:
- Be conversational and approachable, not salesy or pushy
- Listen actively and ask clarifying questions
- Provide helpful, accurate information based ONLY on what's provided above
- If you don't know something specific, offer to connect them with a human team member
- Keep responses concise and natural for voice conversation (2-3 sentences max)
- Be enthusiastic about "
  ++ businessName
  ++ js "'s offerings

Remember: You're having a real-time voice conversation, so keep your responses brief and conversational.".

(** Page Fetcher: [fetchPage(url, timeout = 5000)].  [null] on any failure. *)
Definition fetchPage (url : jsstring) (timeout : Z) : Net (option jsstring) :=
  res <- fetchUrl url (Some timeout) ;;
  match res with
  | PageStatus st text => if isOk st then ret (Some text) else ret None
  | PageError => ret None
  end.

Record CrawlResult := MkCrawlResult {
  content : jsstring;
  title : jsstring;
  description : jsstring
}.

Definition additionalPaths : list jsstring :=
  [js "/about"; js "/about-us"; js "/products"; js "/services";
   js "/features"; js "/pricing"; js "/solutions"].

(** The body of the [map] callback of [fetchWebsiteContent]. *)
Definition fetchAdditional (origin path : jsstring) : Net jsstring :=
  let pageUrl := origin ++ path in
  html <- fetchPage pageUrl 3000 ;;
  match html with
  | Some (c :: h) =>
      let pageContent := extractTextFromHtml (c :: h) in
      if Nat.ltb 100 (List.length pageContent) then
        ret (replaceString (js "-") (js " ") (replaceString (js "/") [] path)
             ++ js " page:
" ++ pageContent ++ js "

")
      else ret []
  | _ => ret []
  end.

(** Site Crawler: [fetchWebsiteContent].  [new URL(baseUrl)] comes first
    and may throw; the three callbacks of [Promise.all] issue their fetches
    in the order of the list. *)
Definition fetchWebsiteContent (newURL : jsstring -> option URL)
  (baseUrl : jsstring) : Net CrawlResult :=
  match newURL baseUrl with
  | None => throw invalidUrlMessage
  | Some baseUrlObj =>
      homepageHtml <- fetchPage baseUrl 5000 ;;
      match homepageHtml with
      | Some (c :: h) =>
          let homepageHtml := c :: h in
          let title := extractTitle homepageHtml in
          let description := extractMetaDescription homepageHtml in
          let allContent :=
            js "Homepage:
" ++ extractTextFromHtml homepageHtml ++ js "

" in
          additionalContents <-
            mapM (fetchAdditional (origin baseUrlObj))
                 (slice_list additionalPaths 3) ;;
          ret {| content :=
                   allContent
                   ++ join [] (List.filter truthy additionalContents);
                 title := title;
                 description := description |}
      | _ => ret {| content := []; title := []; description := [] |}
      end
  end.

(** [POST], multi-page variant. *)
Definition POST (newURL : jsstring -> option URL) (req : Request)
  : Net Response :=
  orInternalError
    (if negb (truthy (userName req)) || negb (truthy (businessUrl req))
     then ret missingFields
     else
       crawl <- fetchWebsiteContent newURL (businessUrl req) ;;
       let websiteContent := content crawl in
       if negb (truthy websiteContent)
       then ret (couldNotAccess (businessUrl req))
       else
         let businessName :=
           extractBusinessName newURL (businessUrl req) websiteContent in
         reuseOrCreate req businessName
           (generateSalesPrompt (userName req) businessName websiteContent
              (title crawl) (description crawl))).

End MultiPage.

(** ** Session Orchestrator: [LiveAvatarDemo.tsx] *)

Module Demo.

Inductive SetupStep : Type := form | generating | session | ended.

Record Avatar := MkAvatar {
  id : jsstring;
  default_voice_id : option jsstring
}.

(** The form fields and the selection that [startSession] reads. *)
Record Form := MkForm {
  userName : jsstring;
  businessUrl : jsstring;
  selectedAvatar : option Avatar
}.

(** The JSON bodies of the two requests. *)
Record GenerateContextBody := MkGenerateContextBody {
  gc_userName : jsstring;
  gc_businessUrl : jsstring;
  gc_avatarId : option jsstring;
  gc_voiceId : option jsstring
}.

Record StartSessionBody := MkStartSessionBody {
  ss_contextId : option jsstring;
  ss_avatarId : option jsstring;
  ss_voiceId : option jsstring
}.

(** The properties that [startSession] reads from a response body; each
    may be absent, and nothing checks that it is there. *)
Record ReplyBody := MkReplyBody {
  r_error : option jsstring;
  r_contextId : option jsstring;
  r_businessName : option jsstring;
  r_session_token : option jsstring
}.

(** What a fetch of one of the two endpoints comes to.  [Rejected]: the
    fetch rejects, or the body cannot be read as JSON, or it is [null] and
    reading a property of it throws; in each case an exception with its
    message.  [Replied]: a response with its [ok] flag and a body. *)
Inductive Reply : Type :=
| Rejected (message : jsstring)
| Replied (ok : bool) (body : ReplyBody).

Record Backend := MkBackend {
  generateContext : GenerateContextBody -> Reply;
  startSessionApi : StartSessionBody -> Reply
}.

(** What the component does, in order: screen changes and requests. *)
Inductive UiEvent : Type :=
| EvStep (s : SetupStep)
| EvGenerateContext (b : GenerateContextBody)
| EvStartSession (b : StartSessionBody).

(** The pieces of React state that [startSession] writes, and the log. *)
Record UiState := MkUiState {
  sessionToken : option jsstring;
  error : option jsstring;
  setupStep : SetupStep;
  generationStatus : jsstring * jsstring;
  currentContextId : option jsstring;
  currentBusinessName : option jsstring;
  log : list UiEvent
}.

Definition initialState : UiState :=
  {| sessionToken := Some [];
     error := None;
     setupStep := form;
     generationStatus := ([], []);
     currentContextId := None;
     currentBusinessName := Some [];
     log := [] |}.

Definition Ui (A : Type) : Type := Eff Backend UiState A.

Definition record (e : UiEvent) (s : UiState) : list UiEvent := log s ++ [e].

Definition setError (v : option jsstring) : Ui unit :=
  modify (fun s =>
    {| sessionToken := sessionToken s; error := v; setupStep := setupStep s;
       generationStatus := generationStatus s;
       currentContextId := currentContextId s;
       currentBusinessName := currentBusinessName s; log := log s |}).

Definition setSetupStep (v : SetupStep) : Ui unit :=
  modify (fun s =>
    {| sessionToken := sessionToken s; error := error s; setupStep := v;
       generationStatus := generationStatus s;
       currentContextId := currentContextId s;
       currentBusinessName := currentBusinessName s;
       log := record (EvStep v) s |}).

Definition setGenerationStatus (step detail : jsstring) : Ui unit :=
  modify (fun s =>
    {| sessionToken := sessionToken s; error := error s;
       setupStep := setupStep s; generationStatus := (step, detail);
       currentContextId := currentContextId s;
       currentBusinessName := currentBusinessName s; log := log s |}).

Definition setCurrentContextId (v : option jsstring) : Ui unit :=
  modify (fun s =>
    {| sessionToken := sessionToken s; error := error s;
       setupStep := setupStep s; generationStatus := generationStatus s;
       currentContextId := v;
       currentBusinessName := currentBusinessName s; log := log s |}).

Definition setCurrentBusinessName (v : option jsstring) : Ui unit :=
  modify (fun s =>
    {| sessionToken := sessionToken s; error := error s;
       setupStep := setupStep s; generationStatus := generationStatus s;
       currentContextId := currentContextId s;
       currentBusinessName := v; log := log s |}).

Definition setSessionToken (v : option jsstring) : Ui unit :=
  modify (fun s =>
    {| sessionToken := v; error := error s;
       setupStep := setupStep s; generationStatus := generationStatus s;
       currentContextId := currentContextId s;
       currentBusinessName := currentBusinessName s; log := log s |}).

Definition logEvent (e : UiEvent) : Ui unit :=
  modify (fun s =>
    {| sessionToken := sessionToken s; error := error s;
       setupStep := setupStep s; generationStatus := generationStatus s;
       currentContextId := currentContextId s;
       currentBusinessName := currentBusinessName s; log := record e s |}).

Definition fetchGenerateContext (b : GenerateContextBody) : Ui Reply :=
  logEvent (EvGenerateContext b) ;;; ask (fun w => generateContext w b).

Definition fetchStartSession (b : StartSessionBody) : Ui Reply :=
  logEvent (EvStartSession b) ;;; ask (fun w => startSessionApi w b).

(** A value that is a string or [undefined], inside a template literal. *)
Definition interpolate (v : option jsstring) : jsstring :=
  match v with Some s => s | None => js "undefined" end.

(** [/^https?:\/\//i] *)
Definition re_scheme : regex :=
  seqs [Bol; litI "http"; Opt (chrI 115%N); lit "://"].

Definition normalizeUrl (url : jsstring) : jsstring :=
  let normalized := trim url in
  if negb (test re_scheme normalized)
  then js "https://" ++ normalized
  else normalized.

Definition avatarIdOf (f : Form) : option jsstring :=
  option_map id (selectedAvatar f).

Definition voiceIdOf (f : Form) : option jsstring :=
  match selectedAvatar f with
  | Some a => default_voice_id a
  | None => None
  end.

(** The part of [startSession] after the context response was accepted;
    the same text in both variants. *)
Definition startWithContext (f : Form)
  (contextId businessName : option jsstring) : Ui unit :=
  setGenerationStatus (js "Creating your AI representative")
    (js "Setting up sales agent for " ++ interpolate businessName ++ js "...") ;;;
  sessionRes <- fetchStartSession
    {| ss_contextId := contextId;
       ss_avatarId := avatarIdOf f;
       ss_voiceId := voiceIdOf f |} ;;
  match sessionRes with
  | Rejected m => throw m
  | Replied ok data =>
      if negb ok then
        throw (withDefault (r_error data) (js "Failed to start session"))
      else
        setSessionToken (r_session_token data) ;;;
        setSetupStep session
  end.

(** [startSession].  [tracksContext] is true for [LiveAvatarDemo.tsx],
    which stores the context for the embed screen, and false for the
    variant without that screen, which has no such state. *)
Definition startSessionWith (tracksContext : bool) (f : Form) : Ui unit :=
  setError None ;;;
  setSetupStep generating ;;;
  let normalizedUrl := normalizeUrl (businessUrl f) in
  catch
    (setGenerationStatus (js "Analyzing website")
       (js "Fetching content from " ++ normalizedUrl ++ js "...") ;;;
     contextRes <- fetchGenerateContext
       {| gc_userName := userName f;
          gc_businessUrl := normalizedUrl;
          gc_avatarId := avatarIdOf f;
          gc_voiceId := voiceIdOf f |} ;;
     match contextRes with
     | Rejected m => throw m
     | Replied ok data =>
         if negb ok then
           throw (withDefault (r_error data) (js "Failed to generate context"))
         else
           let contextId := r_contextId data in
           let businessName := r_businessName data in
           (if tracksContext then
              setCurrentContextId contextId ;;;
              setCurrentBusinessName businessName
            else ret tt) ;;;
           startWithContext f contextId businessName
     end)
    (fun message => setError (Some message) ;;; setSetupStep form).

Definition startSession : Form -> Ui unit := startSessionWith true.

(** [startSession] of the variant without the embed screen. *)
Module Plain.
Definition startSession : Form -> Ui unit := startSessionWith false.
End Plain.

(** Running a computation of the component: the state it ends in. *)
Definition runUi (e : Ui unit) (w : Backend) (s : UiState) : UiState :=
  snd (e w s).

End Demo.

(** ** Statement-side definitions *)

(** The specification's notion of a URL that already has a scheme: the
    text begins with [http://] or [https://], letters in either case.  It
    is stated on the string alone, to be compared with the regular
    expression that [normalizeUrl] tests. *)
Definition spec_hasSchemePrefix (s : jsstring) : bool :=
  let lower := List.map toLowerCaseUnit s in
  startsWith lower (js "http://") || startsWith lower (js "https://").

(** The request body that [startSession] sends first. *)
Definition generateContextBodyOf (f : Demo.Form) : Demo.GenerateContextBody :=
  {| Demo.gc_userName := Demo.userName f;
     Demo.gc_businessUrl := Demo.normalizeUrl (Demo.businessUrl f);
     Demo.gc_avatarId := Demo.avatarIdOf f;
     Demo.gc_voiceId := Demo.voiceIdOf f |}.

(** The request body that [startSession] sends second, for a context
    response [data]. *)
Definition startSessionBodyOf (f : Demo.Form) (data : Demo.ReplyBody)
  : Demo.StartSessionBody :=
  {| Demo.ss_contextId := Demo.r_contextId data;
     Demo.ss_avatarId := Demo.avatarIdOf f;
     Demo.ss_voiceId := Demo.voiceIdOf f |}.

(** What [fetchPage] makes of an outcome: the body of an ok response. *)
Definition pageBody (o : PageOutcome) : option jsstring :=
  match o with
  | PageStatus st text => if isOk st then Some text else None
  | PageError => None
  end.

(** A page fetch that fails: network error or timeout, or a status that is
    not 2xx. *)
Definition pageFailed (o : PageOutcome) : Prop :=
  match o with
  | PageError => True
  | PageStatus st _ => isOk st = false
  end.

(** The identifier that the lookup returns for a list answer: that of the
    first listed context whose name starts with the business name followed
    by [ Sales Rep]. *)
Definition firstMatch (businessName : jsstring) (o : ListOutcome)
  : option jsstring :=
  match o with
  | ListStatus st contexts =>
      if isOk st then
        option_map ctx_id
          (List.find (fun ctx => startsWith (ctx_name ctx)
                                   (businessName ++ js " Sales Rep"))
                     contexts)
      else None
  | ListError => None
  end.

(** The names of the contexts that a trace asks the remote service to
    create. *)
Definition createdNames (tr : list Call) : list jsstring :=
  List.flat_map (fun c => match c with
                          | CallCreateContext args => [arg_name args]
                          | _ => []
                          end) tr.

(** ** Concrete inputs *)



Definition acmeForm : Demo.Form :=
  {| Demo.userName := js "Al";
     Demo.businessUrl := js "acme.io";
     Demo.selectedAvatar := None |}.




Definition acmeRequest : Request :=
  {| userName := js "Al";
     businessUrl := js "https://acme.io";
     avatarId := None;
     voiceId := None |}.

Definition acceptCreate (newId : string) (_ : CreateArgs) : CreateOutcome :=
  CreateStatus 201 {| first_message := None;
                      context_id := Some (js newId);
                      data_id := None |}.

(** Every page answers 503. *)
Definition worldDown : World :=
  {| getPage := fun _ => PageStatus 503 (js "Service Unavailable");
     listContexts := ListStatus 200 [];
     createContext := acceptCreate "ctx-new";
     now := 1700000000000%N |}.

(** Every page answers 200 with an empty body. *)
Definition worldEmptyBody : World :=
  {| getPage := fun _ => PageStatus 200 [];
     listContexts := ListStatus 200 [];
     createContext := acceptCreate "ctx-new";
     now := 1700000000000%N |}.

(** Every page answers 200 with markup that has no text. *)
Definition worldBlankPage : World :=
  {| getPage := fun _ => PageStatus 200 (js "<p></p>");
     listContexts := ListStatus 200 [];
     createContext := acceptCreate "ctx-new";
     now := 1700000000000%N |}.

Definition acmePage : PageOutcome := PageStatus 200 (js "<p>Acme anvils</p>").

Definition olderContext : Context :=
  {| ctx_id := js "ctx-old";
     ctx_name := js "Acme Sales Rep - Zed (1600000000000)" |}.

Definition otherContext : Context :=
  {| ctx_id := js "ctx-bolt";
     ctx_name := js "Bolt Sales Rep - Zed (1600000000000)" |}.

Definition createdContext : Context :=
  {| ctx_id := js "ctx-new";
     ctx_name := js "Acme Sales Rep - Al (1700000000000)" |}.

Definition acmeRequestBea : Request :=
  {| userName := js "Bea";
     businessUrl := js "https://www.acme.io/pricing";
     avatarId := None;
     voiceId := None |}.

(** First request, the lookup being refused by the remote service (503):
    the handler goes on to create a context. *)
Definition worldLookupDown : World :=
  {| getPage := fun _ => acmePage;
     listContexts := ListStatus 503 [];
     createContext := acceptCreate "ctx-new";
     now := 1700000000000%N |}.

(** Second request: the list holds an older context of the same business
    and, after it, the context that the first request created. *)
Definition worldTwoContexts : World :=
  {| getPage := fun _ => acmePage;
     listContexts := ListStatus 200 [olderContext; createdContext];
     createContext := acceptCreate "ctx-third";
     now := 1700000060000%N |}.

(** First request with a working lookup that finds nothing. *)
Definition worldFresh : World :=
  {| getPage := fun _ => acmePage;
     listContexts := ListStatus 200 [otherContext];
     createContext := acceptCreate "ctx-new";
     now := 1700000000000%N |}.

(** Second request: the created context is listed after a context of
    another business. *)
Definition worldAfterCreate : World :=
  {| getPage := fun _ => acmePage;
     listContexts := ListStatus 200 [otherContext; createdContext];
     createContext := acceptCreate "ctx-third";
     now := 1700000060000%N |}.

(** ** Whitespace normal form *)

(** What [replace(/\s+/g, " ")] computes, stated on the string alone: every
    maximal run of whitespace units becomes one space.  [inRun] tells that
    the unit before was whitespace. *)
Fixpoint collapseFrom (inRun : bool) (s : jsstring) : jsstring :=
  match s with
  | [] => []
  | c :: t =>
      if isWhiteSpace c then
        if inRun then collapseFrom true t else 32%N :: collapseFrom true t
      else c :: collapseFrom false t
  end.

Definition collapseWhitespace (s : jsstring) : jsstring := collapseFrom false s.

(** Every whitespace unit of [s] is a plain space, and no two whitespace
    units are adjacent; [prev] tells that the unit before [s] was
    whitespace. *)
Fixpoint singleSpaced (prev : bool) (s : jsstring) : bool :=
  match s with
  | [] => true
  | c :: t =>
      if isWhiteSpace c
      then (c =? 32)%N && negb prev && singleSpaced true t
      else singleSpaced false t
  end.

(** The state of the matcher after the longest run of units of a class. *)
Fixpoint skipClass (p : code_unit -> bool) (i : nat) (s : jsstring)
  (g : option jsstring) : mstate :=
  match s with
  | c :: t =>
      if p c then skipClass p (S i) t g
      else {| idx := i; rest := s; cap := g |}
  | [] => {| idx := i; rest := []; cap := g |}
  end.

(** ** Route handler, statement side *)

(** The response contract of the endpoint: a context body goes with status
    200, an error body with a status that is not 2xx. *)
Definition statusMatchesBody (r : Response) : bool :=
  match body r with
  | ContextBody _ _ _ => (status r =? 200)%Z
  | ErrorBody _ => negb (isOk (status r))
  end.

(** What a secondary page adds to the content of the multi-page crawl:
    its label and text when the page arrived with more than 100 units of
    text, nothing otherwise. *)
Definition secondarySection (w : World) (origin path : jsstring) : jsstring :=
  match pageBody (getPage w (origin ++ path)) with
  | Some (c :: h) =>
      let pageContent := MultiPage.extractTextFromHtml (c :: h) in
      if Nat.ltb 100 (List.length pageContent) then
        replaceString (js "-") (js " ") (replaceString (js "/") [] path)
        ++ js " page:
" ++ pageContent ++ js "

"
      else []
  | _ => []
  end.

(** The three secondary fetches of the multi-page crawl. *)
Definition secondaryCalls (origin : jsstring) : list Call :=
  [CallPage (origin ++ js "/about") (Some 3000%Z);
   CallPage (origin ++ js "/about-us") (Some 3000%Z);
   CallPage (origin ++ js "/products") (Some 3000%Z)].


(** The body of the create call that the handler sends. *)
Definition createArgsOf (req : Request) (businessName prompt : jsstring)
  (timestamp : N) : CreateArgs :=
  {| arg_name := contextName businessName (userName req) timestamp;
     arg_avatar_id := withDefault (avatarId req) AVATAR_ID;
     arg_voice_id := withDefault (voiceId req) VOICE_ID;
     arg_prompt := prompt;
     arg_opening_text :=
       js "Hi there! I'm the AI sales assistant for " ++ businessName
       ++ js ". How can I help you today?" |}.

(** The response of the create path, for an outcome of the create call. *)
Definition createResponse (businessName : jsstring) (o : CreateOutcome)
  : Response :=
  match o with
  | CreateError m => {| status := 500; body := ErrorBody m |}
  | CreateStatus st data =>
      if isOk st then
        {| status := 200;
           body := ContextBody (orElse (context_id data) (data_id data))
                               businessName false |}
      else
        {| status := st;
           body := ErrorBody (withDefault (first_message data)
                                (js "Failed to create context")) |}
  end.

(** ** Session Orchestrator: the end of a session *)

Module DemoStop.

(** [onSessionStopped] of [LiveAvatarDemo.tsx]: the token is cleared; the
    embed screen is shown when a context identifier is in state, else the
    form. *)
Definition onSessionStopped : Demo.Ui unit :=
  Demo.setSessionToken (Some []) ;;;
  (fun w s =>
     match Demo.currentContextId s with
     | Some (_ :: _) => Demo.setSetupStep Demo.ended w s
     | _ => Demo.setSetupStep Demo.form w s
     end).

(** [onSessionStopped] of the variant without the embed screen. *)
Module Plain.
Definition onSessionStopped : Demo.Ui unit :=
  Demo.setSessionToken (Some []) ;;; Demo.setSetupStep Demo.form.
End Plain.

End DemoStop.

(** A backend where both endpoints accept. *)
Definition backendOk : Demo.Backend :=
  {| Demo.generateContext := fun _ =>
       Demo.Replied true
         {| Demo.r_error := None; Demo.r_contextId := Some (js "ctx-1");
            Demo.r_businessName := Some (js "Acme");
            Demo.r_session_token := None |};
     Demo.startSessionApi := fun _ =>
       Demo.Replied true
         {| Demo.r_error := None; Demo.r_contextId := None;
            Demo.r_businessName := None;
            Demo.r_session_token := Some (js "tok-1") |} |}.

(** ** The reader variant of the route handler

    A third variant of the route handler, the text that follows the
    component in [LiveAvatarDemo.tsx]: the page is first asked from a
    reader service that returns text, the direct fetch is the fallback, and
    every request creates a fresh context (there is no lookup). *)

Module Reader.

Definition extractTextFromHtml (html : jsstring) : jsstring :=
  let text := replaceAll (re_element "script") [] html in
  let text := replaceAll (re_element "style") [] text in
  let text := replaceAll (re_element "nav") [] text in
  let text := replaceAll (re_element "footer") [] text in
  let text := replaceAll (re_element "header") [] text in
  let text := replaceAll (re_element "noscript") [] text in
  let text := replaceAll re_tag (js " ") text in
  decodeAndClean text.

(** [fetchWithJina(url, timeout = 10000)]: the reader service is asked for
    the URL; [null] on any failure. *)
Definition fetchWithJina (url : jsstring) (timeout : Z)
  : Net (option jsstring) :=
  let jinaUrl := js "https://r.jina.ai/" ++ url in
  res <- fetchUrl jinaUrl (Some timeout) ;;
  match res with
  | PageStatus st text => if isOk st then ret (Some text) else ret None
  | PageError => ret None
  end.

(** [fetchPageDirect(url, timeout = 5000)]: the page itself, reduced to
    text; [null] on any failure. *)
Definition fetchPageDirect (url : jsstring) (timeout : Z)
  : Net (option jsstring) :=
  res <- fetchUrl url (Some timeout) ;;
  match res with
  | PageStatus st html =>
      if isOk st then ret (Some (extractTextFromHtml html)) else ret None
  | PageError => ret None
  end.

(** The loop of [extractTitleFromJina] over the lines. *)
Fixpoint firstHeading (lines : list jsstring) : jsstring :=
  match lines with
  | [] => []
  | line :: more =>
      let trimmed := trim line in
      if startsWith trimmed (js "# ") then trim (slice trimmed 2 None)
      else if startsWith trimmed (js "Title:") then trim (slice trimmed 6 None)
      else firstHeading more
  end.

Definition extractTitleFromJina (content : jsstring) : jsstring :=
  firstHeading (splitClass (cu_eqb 10%N) content).

Definition additionalPaths : list jsstring :=
  [js "/iphone"; js "/products"; js "/about"; js "/features"].

(** The loop of [fetchWebsiteContent] over the additional paths: the first
    page with more than 500 units is appended and ends the loop. *)
Fixpoint addOnePage (origin mainContent : jsstring) (paths : list jsstring)
  : Net jsstring :=
  match paths with
  | [] => ret mainContent
  | path :: more =>
      let additionalUrl := origin ++ path in
      additionalContent <- fetchWithJina additionalUrl 10000 ;;
      match additionalContent with
      | Some a =>
          if truthy a && Nat.ltb 500 (List.length a) then
            ret (mainContent ++ js "

--- " ++ path ++ js " page ---
" ++ a)
          else addOnePage origin mainContent more
      | None => addOnePage origin mainContent more
      end
  end.

(** [fetchWebsiteContent]: the reader first, the direct fetch when the
    reader gives nothing or fewer than 200 units; [new URL(baseUrl)] comes
    after these fetches and may throw. *)
Definition fetchWebsiteContent (newURL : jsstring -> option URL)
  (baseUrl : jsstring) : Net MultiPage.CrawlResult :=
  fromReader <- fetchWithJina baseUrl 10000 ;;
  mainContent <-
    match fromReader with
    | Some m =>
        if negb (truthy m) || Nat.ltb (List.length m) 200
        then fetchPageDirect baseUrl 5000
        else ret (Some m)
    | None => fetchPageDirect baseUrl 5000
    end ;;
  match mainContent with
  | Some (c :: m) =>
      let mainContent := c :: m in
      let title := extractTitleFromJina mainContent in
      match newURL baseUrl with
      | None => throw invalidUrlMessage
      | Some baseUrlObj =>
          content <- addOnePage (origin baseUrlObj) mainContent
                       additionalPaths ;;
          ret {| MultiPage.content := content;
                 MultiPage.title := title;
                 MultiPage.description := [] |}
      end
  | _ => ret {| MultiPage.content := []; MultiPage.title := [];
                MultiPage.description := [] |}
  end.

Definition generateSalesPrompt
  (userName businessName websiteContent title description : jsstring)
  : jsstring :=
  let truncatedContent := slice websiteContent 0 (Some 10000%Z) in
  js "You are a friendly and knowledgeable AI sales representative for "
  ++ businessName
  ++ js ". Your name is "
  ++ userName
  ++ js "'s AI Assistant.

Company Overview:
- Company: "
  ++ businessName
  ++ js "
"
  ++ (if truthy title then js "- Title: " ++ title else [])
  ++ js "
"
  ++ (if truthy description then js "- Description: " ++ description else [])
  ++ js "

Your role is to:
- Welcome visitors warmly and learn about their needs
- Answer questions about "
  ++ businessName
  ++ js "'s products, services, and offerings
- Provide accurate, up-to-date information about "
  ++ businessName
  ++ js "
- Help potential customers understand how "
  ++ businessName
  ++ js " can solve their problems
- Guide interested visitors toward taking the next step (booking a demo, contacting sales, signing up, etc.)

CRITICAL RULES - YOU MUST FOLLOW THESE:
1. ONLY use information from the website content provided below. Do NOT use any prior knowledge about "
  ++ businessName
  ++ js ".
2. If the content mentions specific product names, models, versions, or prices - use EXACTLY what is written, do not substitute with older information.
3. If asked about something not in the provided content, say "
  ++ [DQUOTE]
  ++ js "I don't have that specific information, but I'd be happy to connect you with our team who can help."
  ++ [DQUOTE]
  ++ js "
4. NEVER make up or guess product details, prices, features, or specifications not explicitly stated in the content below.

Here is detailed information about "
  ++ businessName
  ++ js " from their website:

"
  ++ truncatedContent
  ++ js "

Communication style:
- Be conversational and approachable, not salesy or pushy
- Listen actively and ask clarifying questions
- Provide helpful, accurate information based ONLY on what's provided above
- If you don't know something specific, offer to connect them with a human team member
- Keep responses concise and natural for voice conversation (2-3 sentences max)
- Be enthusiastic about "
  ++ businessName
  ++ js "'s offerings

Remember: You're having a real-time voice conversation, so keep your responses brief and conversational.".

(** The response of this variant: its success body has no [reused]
    field. *)
Inductive ResponseBody : Type :=
| ErrorBody (error : jsstring)
| ContextBody (contextId : option jsstring) (businessName : jsstring).

Record Response := MkResponse {
  status : Z;
  body : ResponseBody
}.

(** [POST], reader variant: no lookup, every crawl that gives content is
    followed by a create call. *)
Definition POST (newURL : jsstring -> option URL) (req : Request)
  : Net Response :=
  catch
    (if negb (truthy (userName req)) || negb (truthy (businessUrl req))
     then ret {| status := 400;
                 body := ErrorBody (js "Missing userName or businessUrl") |}
     else
       let selectedAvatarId := withDefault (avatarId req) AVATAR_ID in
       let selectedVoiceId := withDefault (voiceId req) VOICE_ID in
       crawl <- fetchWebsiteContent newURL (businessUrl req) ;;
       let websiteContent := MultiPage.content crawl in
       if negb (truthy websiteContent)
       then ret {| status := 400;
                   body := ErrorBody
                     (js "Could not access the website " ++ [DQUOTE]
                      ++ businessUrl req ++ [DQUOTE]
                      ++ js ". Please double-check the URL and make sure the website is accessible.") |}
       else
         let businessName :=
           extractBusinessName newURL (businessUrl req) websiteContent in
         let systemPrompt :=
           generateSalesPrompt (userName req) businessName websiteContent
             (MultiPage.title crawl) (MultiPage.description crawl) in
         timestamp <- ask now ;;
         let args :=
           {| arg_name := contextName businessName (userName req) timestamp;
              arg_avatar_id := selectedAvatarId;
              arg_voice_id := selectedVoiceId;
              arg_prompt := systemPrompt;
              arg_opening_text :=
                js "Hi there! I'm the AI sales assistant for " ++ businessName
                ++ js ". How can I help you today?" |} in
         issue (CallCreateContext args) ;;;
         contextRes <- ask (fun w => createContext w args) ;;
         match contextRes with
         | CreateError m => throw m
         | CreateStatus st data =>
             if negb (isOk st) then
               ret {| status := st;
                      body := ErrorBody (withDefault (first_message data)
                                           (js "Failed to create context")) |}
             else
               ret {| status := 200;
                      body := ContextBody
                                (orElse (context_id data) (data_id data))
                                businessName |}
         end)
    (fun m => ret {| status := 500; body := ErrorBody m |}).

End Reader.

(** ** Reader variant, statement side *)

Definition readerUrl (url : jsstring) : jsstring :=
  js "https://r.jina.ai/" ++ url.

Definition readerCall (url : jsstring) : Call :=
  CallPage (readerUrl url) (Some 10000%Z).

(** The reader's answer for a URL. *)
Definition readerBody (w : World) (url : jsstring) : option jsstring :=
  pageBody (getPage w (readerUrl url)).

(** The crawl keeps the reader's answer for the submitted URL when it holds
    at least 200 units. *)
Definition readerSuffices (o : option jsstring) : bool :=
  match o with
  | Some m => Nat.leb 200 (List.length m)
  | None => false
  end.

(** A secondary page is appended when the reader's answer holds more than
    500 units. *)
Definition longPage (w : World) (origin path : jsstring) : bool :=
  match readerBody w (origin ++ path) with
  | Some a => Nat.ltb 500 (List.length a)
  | None => false
  end.

(** The text of the direct fetch, when it arrives. *)
Definition directBody (w : World) (url : jsstring) : option jsstring :=
  option_map Reader.extractTextFromHtml (pageBody (getPage w url)).

(** The main content of the crawl: the reader's answer when it suffices,
    else the text of the direct fetch. *)
Definition mainContentOf (w : World) (url : jsstring) : option jsstring :=
  if readerSuffices (readerBody w url) then readerBody w url
  else directBody w url.

Definition mainCalls (w : World) (url : jsstring) : list Call :=
  if readerSuffices (readerBody w url) then [readerCall url]
  else [readerCall url; CallPage url (Some 5000%Z)].

(** The paths up to and including the first one with a long page. *)
Fixpoint pathsTried (w : World) (origin : jsstring) (paths : list jsstring)
  : list jsstring :=
  match paths with
  | [] => []
  | path :: more =>
      if longPage w origin path then [path]
      else path :: pathsTried w origin more
  end.

(** The section that the crawl appends for a path. *)
Definition readerSection (w : World) (origin path : jsstring) : jsstring :=
  match readerBody w (origin ++ path) with
  | Some a => js "

--- " ++ path ++ js " page ---
" ++ a
  | None => []
  end.

Definition isCreateCall (c : Call) : bool :=
  match c with
  | CallCreateContext _ => true
  | _ => false
  end.

(** The page calls that this variant may issue for a request: the reader
    service with a timeout of 10000, or the submitted URL itself with a
    timeout of 5000. *)
Definition readerPageCall (businessUrl : jsstring) (c : Call) : bool :=
  match c with
  | CallPage u (Some t) =>
      (startsWith u (js "https://r.jina.ai/") && (t =? 10000)%Z)
      || (jsstring_eqb u businessUrl && (t =? 5000)%Z)
  | _ => false
  end.

Definition readerStatusMatchesBody (r : Reader.Response) : bool :=
  match Reader.body r with
  | Reader.ContextBody _ _ => (Reader.status r =? 200)%Z
  | Reader.ErrorBody _ => negb (isOk (Reader.status r))
  end.

(** The content of a crawl whose main content is [mainContent]: the
    section of the first additional path with a long page is appended. *)
Definition readerContent (w : World) (origin mainContent : jsstring)
  : jsstring :=
  mainContent
  ++ match find (longPage w origin) Reader.additionalPaths with
     | Some path => readerSection w origin path
     | None => []
     end.

Definition readerCouldNotAccess (url : jsstring) : Reader.Response :=
  {| Reader.status := 400;
     Reader.body := Reader.ErrorBody
       (js "Could not access the website " ++ [DQUOTE] ++ url ++ [DQUOTE]
        ++ js ". Please double-check the URL and make sure the website is accessible.") |}.

(** The response of the reader variant for an outcome of the create
    call. *)
Definition readerCreateResponse (businessName : jsstring) (o : CreateOutcome)
  : Reader.Response :=
  match o with
  | CreateError m =>
      {| Reader.status := 500; Reader.body := Reader.ErrorBody m |}
  | CreateStatus st data =>
      if isOk st then
        {| Reader.status := 200;
           Reader.body :=
             Reader.ContextBody (orElse (context_id data) (data_id data))
               businessName |}
      else
        {| Reader.status := st;
           Reader.body :=
             Reader.ErrorBody (withDefault (first_message data)
                                 (js "Failed to create context")) |}
  end.

(** The arguments of the create call of the reader variant, for a crawl
    with main content [mainContent] under origin [origin]. *)
Definition readerCreateArgs (newURL : jsstring -> option URL) (req : Request)
  (w : World) (origin mainContent : jsstring) : CreateArgs :=
  let content := readerContent w origin mainContent in
  let businessName := extractBusinessName newURL (businessUrl req) content in
  createArgsOf req businessName
    (Reader.generateSalesPrompt (userName req) businessName content
       (Reader.extractTitleFromJina mainContent) [])
    (now w).

(** Worlds for the reader variant.  In the first the reader returns a
    short text for the sample site and the site itself cannot be reached.
    In the second the reader returns 300 units for every address.  In the
    third the reader knows the sample site and a long [/about] page. *)
Definition worldReaderShort : World :=
  {| getPage := fun url =>
       if jsstring_eqb url (js "https://r.jina.ai/https://acme.io")
       then PageStatus 200 (js "Acme sells anvils.")
       else PageError;
     listContexts := ListStatus 200 [];
     createContext := acceptCreate "ctx-reader";
     now := 1700000000000 |}.

Definition worldReaderAnywhere : World :=
  {| getPage := fun url =>
       if startsWith url (js "https://r.jina.ai/")
       then PageStatus 200 (List.repeat 66%N 300)
       else PageError;
     listContexts := ListStatus 200 [];
     createContext := acceptCreate "ctx-reader";
     now := 1700000000000 |}.

Definition acmeReaderText : jsstring :=
  js "# Acme
" ++ List.repeat 66%N 300.

Definition worldReaderAbout : World :=
  {| getPage := fun url =>
       if jsstring_eqb url (js "https://r.jina.ai/https://acme.io")
       then PageStatus 200 acmeReaderText
       else if jsstring_eqb url (js "https://r.jina.ai/https://acme.io/about")
       then PageStatus 200 (List.repeat 67%N 501)
       else PageStatus 404 (js "Not found");
     listContexts := ListStatus 200 [];
     createContext := acceptCreate "ctx-reader";
     now := 1700000000000 |}.

(** ** The component and the route handler together *)

(** The request that the route handler reads from the JSON body that
    [startSession] sends. *)
Definition requestOfBody (b : Demo.GenerateContextBody) : Request :=
  {| userName := Demo.gc_userName b;
     businessUrl := Demo.gc_businessUrl b;
     avatarId := Demo.gc_avatarId b;
     voiceId := Demo.gc_voiceId b |}.

(** ** A declarative reading of the regular expressions

    [matches r st st'] : the expression [r] can take the matcher from the
    state [st] to the state [st'].  It says which matches exist, not which
    one the backtracking matcher prefers. *)
Inductive matches : regex -> mstate -> mstate -> Prop :=
| M_Empty st : matches Empty st st
| M_Class p st c t :
    rest st = c :: t -> p c = true -> matches (Class p) st (advance st t)
| M_Seq a b st st1 st2 :
    matches a st st1 -> matches b st1 st2 -> matches (Seq a b) st st2
| M_AltL a b st st' : matches a st st' -> matches (Alt a b) st st'
| M_AltR a b st st' : matches b st st' -> matches (Alt a b) st st'
| M_StarStop a st : matches (Star a) st st
| M_StarStep a st st1 st2 :
    matches a st st1 -> matches (Star a) st1 st2 -> matches (Star a) st st2
| M_LazyStop a st : matches (LazyStar a) st st
| M_LazyStep a st st1 st2 :
    matches a st st1 -> matches (LazyStar a) st1 st2 ->
    matches (LazyStar a) st st2
| M_OptSome a st st' : matches a st st' -> matches (Opt a) st st'
| M_OptNone a st : matches (Opt a) st st
| M_Group a st st' :
    matches a st st' ->
    matches (Group a) st
      {| idx := idx st'; rest := rest st';
         cap := Some (firstn (idx st' - idx st) (rest st)) |}
| M_Bol st : idx st = 0 -> matches Bol st st
| M_Eol st : rest st = [] -> matches Eol st st.

(** An expression without a capture group. *)
Fixpoint noGroup (r : regex) : bool :=
  match r with
  | Empty | Class _ | Bol | Eol => true
  | Seq a b | Alt a b => noGroup a && noGroup b
  | Star a | LazyStar a | Opt a => noGroup a
  | Group _ => false
  end.

(** Every match of [r] consumes at least [n] units. *)
Definition minLength (r : regex) (n : nat) : Prop :=
  forall (i : nat) (s : jsstring) (st : mstate),
    matchAt r i s = Some st -> i + n <= idx st.

(** * Properties *)

(** ** Strings *)

Lemma slice_prefix (s : jsstring) (n : Z) :
  (0 <= n)%Z ->
  slice s 0 (Some n) = firstn (Z.to_nat (Z.min (Z.of_nat (List.length s)) n)) s.
Proof.
  intros Hn. unfold slice, clampIndex.
  destruct (Z.ltb_spec n 0) as [Hlt | _]; [lia |].
  change (0 <? 0)%Z with false. cbv iota.
  replace (Z.min 0 (Z.of_nat (List.length s))) with 0%Z by lia.
  simpl skipn. f_equal. lia.
Qed.

Lemma firstn_min_length (s : jsstring) (n : Z) :
  (0 <= n)%Z ->
  (Z.of_nat (List.length
     (firstn (Z.to_nat (Z.min (Z.of_nat (List.length s)) n)) s)) <= n)%Z.
Proof.
  intros Hn. rewrite length_firstn. lia.
Qed.

Lemma startsWith_app (p t : jsstring) : startsWith (p ++ t) p = true.
Proof.
  induction p as [| c p IH]; simpl.
  - reflexivity.
  - unfold cu_eqb. rewrite N.eqb_refl. exact IH.
Qed.

(** ** Prompt Composer *)

(** Regroup a right-nested concatenation so that everything before the
    truncated segment is one head. *)
Ltac split_at_segment :=
  lazymatch goal with
  | |- _ ++ (firstn _ _ ++ _) = _ => reflexivity
  | |- ?a ++ (?b ++ ?r) = _ => rewrite (app_assoc a b r); split_at_segment
  end.

(** C1.  In both variants the prompt is a head and a tail that do not
    depend on the crawled content, around a segment that is the first
    min(length, ceiling) code units of the content; the segment is never
    longer than the ceiling, 2000 in the basic variant and 6000 in the
    multi-page variant. *)
Theorem generateSalesPrompt_content_bounded :
  (forall userName businessName : jsstring,
     exists head tail : jsstring,
       forall websiteContent : jsstring,
         let segment :=
           firstn (Z.to_nat (Z.min (Z.of_nat (List.length websiteContent)) 2000))
                  websiteContent in
         Basic.generateSalesPrompt userName businessName websiteContent
           = head ++ segment ++ tail
         /\ (Z.of_nat (List.length segment) <= 2000)%Z)
  /\
  (forall userName businessName title description : jsstring,
     exists head tail : jsstring,
       forall websiteContent : jsstring,
         let segment :=
           firstn (Z.to_nat (Z.min (Z.of_nat (List.length websiteContent)) 6000))
                  websiteContent in
         MultiPage.generateSalesPrompt userName businessName websiteContent
           title description
           = head ++ segment ++ tail
         /\ (Z.of_nat (List.length segment) <= 6000)%Z).
Proof.
  split.
  - intros userName businessName.
    unfold Basic.generateSalesPrompt.
    eexists. eexists. intros websiteContent. cbv zeta.
    split; [| apply firstn_min_length; lia].
    rewrite slice_prefix by lia.
    split_at_segment.
  - intros userName businessName title description.
    unfold MultiPage.generateSalesPrompt.
    eexists. eexists. intros websiteContent. cbv zeta.
    split; [| apply firstn_min_length; lia].
    rewrite slice_prefix by lia.
    split_at_segment.
Qed.

(** ** Business Identity Resolver *)

(** C6.  [extractBusinessName] is a function of the URL alone, whatever the
    platform's URL parser is: two calls with the same URL return the same
    string, also when their content arguments differ. *)
Theorem extractBusinessName_ignores_content :
  forall (newURL : jsstring -> option URL) (url content1 content2 : jsstring),
    extractBusinessName newURL url content1
    = extractBusinessName newURL url content2.
Proof.
  intros newURL url content1 content2.
  unfold extractBusinessName.
  destruct (newURL url) as [u |]; reflexivity.
Qed.

(** C7.  On the URL [https://www.Example-Co.com] the parsed hostname is
    [www.example-co.com]; the leading [www.] and then the trailing [.com]
    are removed; the rest is split on dots and hyphens into [example] and
    [co]; each word gets a capital first letter; joined with spaces the
    result is [Example Co], for every content argument. *)
Theorem extractBusinessName_example_co :
  let url := js "https://www.Example-Co.com" in
  option_map hostname (parseURL url) = Some (js "www.example-co.com")
  /\ replaceFirst re_www [] (js "www.example-co.com") = js "example-co.com"
  /\ replaceFirst re_tld [] (js "example-co.com") = js "example-co"
  /\ splitClass isDotOrHyphen (js "example-co") = [js "example"; js "co"]
  /\ List.map capitalize [js "example"; js "co"] = [js "Example"; js "Co"]
  /\ forall content : jsstring,
       extractBusinessName parseURL url content = js "Example Co".
Proof.
  cbv zeta.
  repeat (apply conj); try intros content; vm_compute; reflexivity.
Qed.

(** ** Text Extractor *)

(** C8.  On [<script>bad()</script><p>Hello&nbsp;World</p>] the script
    element goes with its content, the two remaining tags become spaces,
    the entity becomes a space, and after the whitespace clean-up the
    result is exactly [Hello World]; in both variants of the extractor. *)
Theorem extractTextFromHtml_hello_world :
  let html := js "<script>bad()</script><p>Hello&nbsp;World</p>" in
  replaceAll (re_element "script") [] html = js "<p>Hello&nbsp;World</p>"
  /\ replaceAll re_tag (js " ") (js "<p>Hello&nbsp;World</p>")
     = js " Hello&nbsp;World "
  /\ decodeAndClean (js " Hello&nbsp;World ") = js "Hello World"
  /\ Basic.extractTextFromHtml html = js "Hello World"
  /\ MultiPage.extractTextFromHtml html = js "Hello World".
Proof.
  cbv zeta. repeat (apply conj); vm_compute; reflexivity.
Qed.

(** C10.  [&amp;] is decoded before [&lt;], so the doubly encoded
    [&amp;lt;] comes out as [<]; [&nbsp;] is decoded before [&amp;], so
    [&amp;nbsp;] comes out as the text [&nbsp;]; in both variants. *)
Theorem extractTextFromHtml_double_decoding :
  Basic.extractTextFromHtml (js "&amp;lt;") = js "<"
  /\ Basic.extractTextFromHtml (js "&amp;nbsp;") = js "&nbsp;"
  /\ MultiPage.extractTextFromHtml (js "&amp;lt;") = js "<"
  /\ MultiPage.extractTextFromHtml (js "&amp;nbsp;") = js "&nbsp;"
  /\ replaceAll (lit "&amp;") (js "&") (js "&amp;lt;") = js "&lt;"
  /\ replaceAll (lit "&lt;") (js "<") (js "&lt;") = js "<"
  /\ replaceAll (lit "&nbsp;") (js " ") (js "&amp;nbsp;") = js "&amp;nbsp;".
Proof.
  repeat (apply conj); vm_compute; reflexivity.
Qed.

(** ** URL normalization and the session orchestrator *)

(** Evaluate a run of the component down to the answers of the backend. *)
Ltac run_ui :=
  cbv beta iota zeta delta
    [Demo.runUi Demo.startSessionWith Demo.startWithContext
     Demo.fetchGenerateContext Demo.fetchStartSession catch bind ask modify
     throw ret Demo.setError Demo.setSetupStep Demo.setGenerationStatus
     Demo.setCurrentContextId Demo.setCurrentBusinessName
     Demo.setSessionToken Demo.logEvent Demo.record fst snd negb Demo.log
     Demo.sessionToken Demo.error Demo.setupStep Demo.generationStatus
     Demo.currentContextId Demo.currentBusinessName generateContextBodyOf
     startSessionBodyOf].

Lemma letter_either_case (p c : code_unit) :
  isAsciiLower p = true ->
  cu_eqb (toUpperCaseUnit p) (toUpperCaseUnit c) = cu_eqb p (toLowerCaseUnit c).
Proof.
  unfold cu_eqb, toUpperCaseUnit, toLowerCaseUnit, isAsciiLower, isAsciiUpper.
  intros Hp. rewrite Hp.
  apply andb_prop in Hp. destruct Hp as [Hp1 Hp2].
  apply N.leb_le in Hp1. apply N.leb_le in Hp2.
  destruct (N.leb_spec 97 c); destruct (N.leb_spec c 122);
    destruct (N.leb_spec 65 c); destruct (N.leb_spec c 90); cbn [andb];
    apply eq_true_iff_eq; rewrite !N.eqb_eq; lia.
Qed.

Lemma not_letter_lower (p c : code_unit) :
  isAsciiLower p = false -> isAsciiUpper p = false ->
  cu_eqb p (toLowerCaseUnit c) = cu_eqb p c.
Proof.
  unfold cu_eqb, toLowerCaseUnit, isAsciiLower, isAsciiUpper.
  intros Hl Hu.
  apply andb_false_iff in Hl. apply andb_false_iff in Hu.
  rewrite !N.leb_gt in Hl. rewrite !N.leb_gt in Hu.
  destruct (N.leb_spec 65 c); destruct (N.leb_spec c 90); cbn [andb];
    apply eq_true_iff_eq; rewrite !N.eqb_eq; lia.
Qed.

(** An expression that begins with [^] matches at index 0 only. *)
Lemma execFrom_anchored (r : regex) (s : jsstring) (i : nat) :
  execFrom (Seq Bol r) (S i) s = None.
Proof.
  revert i. induction s as [| c s IH]; intros i; simpl.
  - reflexivity.
  - apply IH.
Qed.

Lemma re_scheme_unfold :
  Demo.re_scheme
  = Seq Bol
      (Seq (Seq (chrI 104%N) (Seq (chrI 116%N) (Seq (chrI 116%N) (chrI 112%N))))
           (Seq (Opt (chrI 115%N))
                (Seq (chr 58%N) (Seq (chr 47%N) (chr 47%N))))).
Proof. reflexivity. Qed.

Ltac case_units :=
  repeat match goal with
         | |- context [cu_eqb ?a ?b] =>
             destruct (cu_eqb a b); cbn [andb orb negb firstSome]
         end.

(** The regular expression of [normalizeUrl] tests exactly the
    specification's scheme prefix. *)
Lemma test_re_scheme (s : jsstring) :
  test Demo.re_scheme s = spec_hasSchemePrefix s.
Proof.
  rewrite re_scheme_unfold. unfold test, exec, spec_hasSchemePrefix.
  change (js "http://") with [104; 116; 116; 112; 58; 47; 47]%N.
  change (js "https://") with [104; 116; 116; 112; 115; 58; 47; 47]%N.
  assert (Hexec : forall r,
            execFrom (Seq Bol r) 0 s
            = match matchAt (Seq Bol r) 0 s with
              | Some st => Some (0, st)
              | None => None
              end).
  { intros r. destruct s as [| c s]; simpl.
    - destruct (matchAt (Seq Bol r) 0 []); reflexivity.
    - destruct (matchAt (Seq Bol r) 0 (c :: s)); [reflexivity |].
      apply execFrom_anchored. }
  rewrite Hexec. clear Hexec.
  unfold matchAt, chrI, chr.
  destruct s as [| c1 [| c2 [| c3 [| c4 [| c5 [| c6 [| c7 [| c8 s]]]]]]]];
    cbn -[cu_eqb toUpperCaseUnit toLowerCaseUnit];
    rewrite ?(@letter_either_case 104%N), ?(@letter_either_case 116%N),
      ?(@letter_either_case 112%N), ?(@letter_either_case 115%N)
      by reflexivity;
    rewrite ?(@not_letter_lower 58%N), ?(@not_letter_lower 47%N)
      by reflexivity;
    case_units; reflexivity.
Qed.

(** C9.  When the trimmed text has no [http://] or [https://] prefix,
    [normalizeUrl] returns the trimmed text behind [https://]; and
    [startSession], in both variants, puts that normalized URL in the
    first request it sends, which is the only request that carries a
    URL. *)
Theorem normalizeUrl_bare_domain :
  forall url : jsstring,
    spec_hasSchemePrefix (trim url) = false ->
    Demo.normalizeUrl url = js "https://" ++ trim url
    /\ forall (tracksContext : bool) (f : Demo.Form) (w : Demo.Backend)
              (s : Demo.UiState),
         Demo.businessUrl f = url ->
         exists later : list Demo.UiEvent,
           Demo.log (Demo.runUi (Demo.startSessionWith tracksContext f) w s)
           = Demo.log s
             ++ Demo.EvStep Demo.generating
             :: Demo.EvGenerateContext
                  {| Demo.gc_userName := Demo.userName f;
                     Demo.gc_businessUrl := js "https://" ++ trim url;
                     Demo.gc_avatarId := Demo.avatarIdOf f;
                     Demo.gc_voiceId := Demo.voiceIdOf f |}
             :: later
           /\ forall b, ~ In (Demo.EvGenerateContext b) later.
Proof.
  intros url Hno.
  assert (Hnorm : Demo.normalizeUrl url = js "https://" ++ trim url).
  { unfold Demo.normalizeUrl. rewrite test_re_scheme, Hno. reflexivity. }
  split; [exact Hnorm |].
  intros tracksContext f w [tok err step status cid cname lg] Hurl.
  subst url. rewrite <- Hnorm.
  destruct tracksContext; run_ui;
    (destruct (Demo.generateContext w _) as [m | [|] d]; run_ui;
     [| destruct (Demo.startSessionApi w _) as [m | [|] d2]; run_ui |]);
    eexists; (split; [rewrite <- !app_assoc; simpl; reflexivity |]);
    simpl; intros b H; intuition discriminate.
Qed.

(** The bare domain of the specification's example. *)
Lemma normalizeUrl_bare_domain_witness :
  Demo.normalizeUrl (js "example.com") = js "https://example.com".
Proof.
  exact (proj1 (normalizeUrl_bare_domain (js "example.com") eq_refl)).
Defined.





(** ** Route handler *)

(** Case analysis on an innermost scrutinee of the goal. *)
Ltac break_match :=
  match goal with
  | |- context [match ?x with _ => _ end] =>
      lazymatch x with
      | context [match _ with _ => _ end] => fail
      | _ => destruct x eqn:?; cbv beta iota zeta
      end
  end.

(** Evaluate a handler down to the answers of the world. *)
Ltac run_net :=
  cbv beta iota zeta delta
    [Basic.POST MultiPage.POST orInternalError Basic.fetchWebsite
     MultiPage.fetchWebsiteContent MultiPage.fetchPage fetchUrl issue
     reuseOrCreate findExistingContext catch bind ask modify throw ret
     fst snd negb orb andb truthy pageBody firstMatch option_map].

Lemma fetchPage_run (url : jsstring) (timeout : Z) (w : World)
  (tr : list Call) :
  MultiPage.fetchPage url timeout w tr
  = (Ok (pageBody (getPage w url)), tr ++ [CallPage url (Some timeout)]).
Proof.
  run_net. destruct (getPage w url) as [| st text].
  - reflexivity.
  - destruct (isOk st); reflexivity.
Qed.

Lemma findExistingContext_run (businessName : jsstring) (w : World)
  (tr : list Call) :
  findExistingContext businessName w tr
  = (Ok (firstMatch businessName (listContexts w)), tr ++ [CallListContexts]).
Proof.
  run_net. destruct (listContexts w) as [| st contexts].
  - reflexivity.
  - destruct (isOk st); [| reflexivity].
    destruct (List.find _ contexts); reflexivity.
Qed.

Lemma fetchAdditional_ok (origin path : jsstring) (w : World)
  (tr : list Call) :
  exists text tr',
    MultiPage.fetchAdditional origin path w tr = (Ok text, tr').
Proof.
  unfold MultiPage.fetchAdditional, bind. rewrite fetchPage_run.
  destruct (pageBody (getPage w (origin ++ path))) as [[| c h] |];
    try (eexists; eexists; reflexivity).
  destruct (Nat.ltb 100 _); eexists; eexists; reflexivity.
Qed.

Lemma mapM_ok {A B : Type} (f : A -> Net B) (l : list A) :
  (forall a w tr, exists b tr', f a w tr = (Ok b, tr')) ->
  forall w tr, exists bs tr', mapM f l w tr = (Ok bs, tr').
Proof.
  intros Hf. induction l as [| a l IH]; intros w tr; simpl.
  - eexists; eexists; reflexivity.
  - unfold bind. destruct (Hf a w tr) as (b & tr1 & ->).
    destruct (IH w tr1) as (bs & tr2 & ->).
    eexists; eexists; reflexivity.
Qed.

Lemma couldNotAccess_names_url (url : jsstring) :
  status (couldNotAccess url) = 400%Z
  /\ exists before after : jsstring,
       body (couldNotAccess url) = ErrorBody (before ++ url ++ after).
Proof.
  split; [reflexivity |].
  unfold couldNotAccess. cbn [body].
  exists (js "Could not access the website " ++ [DQUOTE]).
  eexists. rewrite <- app_assoc. reflexivity.
Qed.

(** C2.  When the request has both fields, the submitted URL parses and
    its fetch fails (network error, timeout, or a status that is not 2xx),
    the crawl returns an empty content after that one fetch, and the
    endpoint answers 400 with a message that contains the URL; the
    homepage fetch is the only outbound call.  The basic variant answers
    the same after its single fetch. *)
Theorem homepage_failure_is_400 :
  forall (newURL : jsstring -> option URL) (req : Request) (w : World)
         (u : URL) (tr : list Call),
    userName req <> [] ->
    businessUrl req <> [] ->
    newURL (businessUrl req) = Some u ->
    pageFailed (getPage w (businessUrl req)) ->
    MultiPage.fetchWebsiteContent newURL (businessUrl req) w tr
    = (Ok {| MultiPage.content := []; MultiPage.title := [];
             MultiPage.description := [] |},
       tr ++ [CallPage (businessUrl req) (Some 5000%Z)])
    /\ MultiPage.POST newURL req w tr
       = (Ok (couldNotAccess (businessUrl req)),
          tr ++ [CallPage (businessUrl req) (Some 5000%Z)])
    /\ Basic.POST newURL req w tr
       = (Ok (couldNotAccess (businessUrl req)),
          tr ++ [CallPage (businessUrl req) None])
    /\ status (couldNotAccess (businessUrl req)) = 400%Z
    /\ exists before after : jsstring,
         body (couldNotAccess (businessUrl req))
         = ErrorBody (before ++ businessUrl req ++ after).
Proof.
  intros newURL [user url av vo] w u tr Huser Hurl Hparse Hfail.
  cbn [userName businessUrl] in *.
  destruct user as [| cu user]; [congruence |].
  destruct url as [| c url]; [congruence |].
  assert (Hbody : pageBody (getPage w (c :: url)) = None).
  { unfold pageBody. destruct (getPage w (c :: url)) as [| st text].
    - reflexivity.
    - simpl in Hfail. rewrite Hfail. reflexivity. }
  assert (Hcrawl :
    MultiPage.fetchWebsiteContent newURL (c :: url) w tr
    = (Ok {| MultiPage.content := []; MultiPage.title := [];
             MultiPage.description := [] |},
       tr ++ [CallPage (c :: url) (Some 5000%Z)])).
  { unfold MultiPage.fetchWebsiteContent. rewrite Hparse.
    unfold bind. rewrite fetchPage_run, Hbody. reflexivity. }
  split; [exact Hcrawl |].
  split.
  { unfold MultiPage.POST, orInternalError, catch, bind.
    cbn [userName businessUrl truthy negb orb].
    rewrite Hcrawl. reflexivity. }
  split.
  { unfold Basic.POST, orInternalError, catch, bind, Basic.fetchWebsite,
      fetchUrl, issue, modify, ask, bind.
    cbn [userName businessUrl truthy negb orb].
    destruct (getPage w (c :: url)) as [| st text].
    - reflexivity.
    - simpl in Hfail. rewrite Hfail. reflexivity. }
  apply couldNotAccess_names_url.
Qed.

(** With every page answering 503, the endpoint answers 400 and names the
    URL. *)
Lemma homepage_failure_is_400_witness :
  MultiPage.POST parseURL acmeRequest worldDown []
  = (Ok (couldNotAccess (js "https://acme.io")),
     [CallPage (js "https://acme.io") (Some 5000%Z)]).
Proof.
  refine (proj1 (proj2
    (homepage_failure_is_400 parseURL acmeRequest worldDown
       (u := {| hostname := js "acme.io"; origin := js "https://acme.io" |})
       [] _ _ _ _))).
  - discriminate.
  - discriminate.
  - vm_compute. reflexivity.
  - reflexivity.
Defined.

(** ** Site Crawler *)

(** C5, counterexample to the specification as worded.  The homepage fetch
    succeeds, with status 200, and the content is empty all the same: in
    the multi-page variant when the body is empty, in the basic variant
    when the page has no text (there the fetch is not counted as failed
    either). *)
Lemma content_empty_after_successful_fetch :
  pageBody (getPage worldEmptyBody (js "https://acme.io")) = Some []
  /\ MultiPage.fetchWebsiteContent parseURL (js "https://acme.io")
       worldEmptyBody []
     = (Ok {| MultiPage.content := []; MultiPage.title := [];
              MultiPage.description := [] |},
        [CallPage (js "https://acme.io") (Some 5000%Z)])
  /\ pageBody (getPage worldBlankPage (js "https://acme.io"))
     = Some (js "<p></p>")
  /\ Basic.fetchWebsite parseURL (js "https://acme.io") worldBlankPage []
     = (Ok ([], js "Acme", false), [CallPage (js "https://acme.io") None]).
Proof.
  repeat apply conj; vm_compute; reflexivity.
Qed.

(** C5, as the code has it.  Multi-page variant, for a URL that parses:
    the crawl returns, and its content is empty exactly when the homepage
    fetch failed or delivered an empty body; then the homepage fetch is
    the only call made.  When the homepage delivered a non-empty body the
    content begins with the homepage label and is not empty.  Basic
    variant: the fetch counts as failed exactly when no ok response
    arrived, and the content of a page that arrived is its extracted
    text. *)
Theorem content_empty_iff_no_homepage_body :
  forall (newURL : jsstring -> option URL) (baseUrl : jsstring) (u : URL)
         (w : World) (tr : list Call),
    newURL baseUrl = Some u ->
    (exists (crawl : MultiPage.CrawlResult) (tr' : list Call),
        MultiPage.fetchWebsiteContent newURL baseUrl w tr = (Ok crawl, tr')
        /\ (MultiPage.content crawl = []
            <-> pageBody (getPage w baseUrl) = None
                \/ pageBody (getPage w baseUrl) = Some [])
        /\ (MultiPage.content crawl = []
            -> tr' = tr ++ [CallPage baseUrl (Some 5000%Z)])
        /\ (MultiPage.content crawl <> []
            -> startsWith (MultiPage.content crawl) (js "Homepage:") = true))
    /\
    (exists (websiteContent businessName : jsstring) (failed : bool),
        Basic.fetchWebsite newURL baseUrl w tr
        = (Ok (websiteContent, businessName, failed),
           tr ++ [CallPage baseUrl None])
        /\ (failed = true <-> pageBody (getPage w baseUrl) = None)
        /\ (pageBody (getPage w baseUrl) = None -> websiteContent = [])
        /\ (forall html, pageBody (getPage w baseUrl) = Some html ->
                         websiteContent = Basic.extractTextFromHtml html)).
Proof.
  intros newURL baseUrl u w tr Hparse. split.
  - unfold MultiPage.fetchWebsiteContent. rewrite Hparse.
    unfold bind at 1. rewrite fetchPage_run.
    destruct (pageBody (getPage w baseUrl)) as [[| c h] |] eqn:Hbody.
    + eexists; eexists. split; [reflexivity |]. cbn [MultiPage.content].
      repeat apply conj; try tauto; intros H; congruence.
    + destruct (mapM_ok (MultiPage.fetchAdditional (origin u))
                        (slice_list MultiPage.additionalPaths 3)
                        (fetchAdditional_ok (origin u))
                        w (tr ++ [CallPage baseUrl (Some 5000%Z)]))
        as (texts & tr2 & Hmap).
      unfold bind. rewrite Hmap.
      eexists; eexists. split; [reflexivity |]. cbn [MultiPage.content].
      assert (Hne : forall x y : jsstring,
                 (js "Homepage:
" ++ x ++ js "

") ++ y <> []) by (intros x y; discriminate).
      repeat apply conj.
      * intros H. exfalso. exact (Hne _ _ H).
      * intros [H | H]; discriminate H.
      * intros H. exfalso. exact (Hne _ _ H).
      * intros _. reflexivity.
    + eexists; eexists. split; [reflexivity |]. cbn [MultiPage.content].
      repeat apply conj; try tauto; intros H; congruence.
  - run_net. destruct (getPage w baseUrl) as [| st html]; cbn [pageBody].
    + eexists; eexists; eexists. split; [reflexivity |].
      repeat apply conj; try tauto; intros html H; discriminate H.
    + destruct (isOk st).
      * eexists; eexists; eexists. split; [reflexivity |].
        repeat apply conj; try (intros H; discriminate H).
        intros html' H. injection H as <-. reflexivity.
      * eexists; eexists; eexists. split; [reflexivity |].
        repeat apply conj; try tauto; intros html' H; discriminate H.
Qed.

(** A homepage with text: the crawl of the sample site is not empty. *)
Lemma content_empty_iff_no_homepage_body_witness :
  exists (crawl : MultiPage.CrawlResult) (tr' : list Call),
    MultiPage.fetchWebsiteContent parseURL (js "https://acme.io")
      worldFresh [] = (Ok crawl, tr')
    /\ MultiPage.content crawl <> [].
Proof.
  destruct (proj1 (content_empty_iff_no_homepage_body
                     parseURL (js "https://acme.io")
                     (u := {| hostname := js "acme.io";
                              origin := js "https://acme.io" |})
                     worldFresh [] eq_refl))
    as (crawl & tr' & Hrun & Hiff & _).
  exists crawl, tr'. split; [exact Hrun |].
  intros Hempty. apply Hiff in Hempty.
  destruct Hempty as [H | H]; vm_compute in H; discriminate H.
Defined.

(** ** Context Repository Client *)

Lemma find_first_match {A : Type} (p : A -> bool) (before after : list A)
  (x : A) :
  (forall y, In y before -> p y = false) ->
  p x = true ->
  List.find p (before ++ x :: after) = Some x.
Proof.
  intros Hbefore Hx. induction before as [| y before IH]; simpl.
  - rewrite Hx. reflexivity.
  - rewrite (Hbefore y (or_introl eq_refl)).
    apply IH. intros z Hz. apply Hbefore. right. exact Hz.
Qed.

Lemma contextName_has_prefix (businessName userName : jsstring)
  (timestamp : N) :
  startsWith (contextName businessName userName timestamp)
             (businessName ++ js " Sales Rep") = true.
Proof.
  unfold contextName.
  change (js " Sales Rep - ") with (js " Sales Rep" ++ js " - ").
  rewrite <- (app_assoc (js " Sales Rep")).
  rewrite (app_assoc businessName).
  apply startsWith_app.
Qed.

(** A response of the basic handler that reports a context and no reuse
    comes from the create call, whose [name] is built from the business
    name of the response, the user name and the clock. *)
Lemma POST_created (newURL : jsstring -> option URL) (req : Request)
  (w : World) (tr tr' : list Call) (cid : option jsstring)
  (businessName : jsstring) :
  Basic.POST newURL req w tr
  = (Ok {| status := 200; body := ContextBody cid businessName false |}, tr') ->
  exists args : CreateArgs,
    tr' = tr ++ [CallPage (businessUrl req) None; CallListContexts;
                 CallCreateContext args]
    /\ arg_name args = contextName businessName (userName req) (now w).
Proof.
  destruct req as [user url av vo].
  destruct user as [| cu user]; [intros H; discriminate H |].
  destruct url as [| c url]; [intros H; discriminate H |].
  run_net. cbn [userName businessUrl avatarId voiceId].
  repeat break_match; intros H; try discriminate H;
    inversion H; subst; clear H; eexists;
    (split; [try (rewrite <- !app_assoc; reflexivity) | try reflexivity]).
Qed.

(** The second request of the basic handler, when the lookup answers. *)
Lemma POST_reuses (newURL : jsstring -> option URL) (req : Request)
  (w : World) (tr : list Call) (html found : jsstring) :
  userName req <> [] ->
  businessUrl req <> [] ->
  pageBody (getPage w (businessUrl req)) = Some html ->
  found <> [] ->
  firstMatch (extractBusinessName newURL (businessUrl req)
                (Basic.extractTextFromHtml html))
             (listContexts w) = Some found ->
  Basic.POST newURL req w tr
  = (Ok {| status := 200;
           body := ContextBody (Some found)
                     (extractBusinessName newURL (businessUrl req)
                        (Basic.extractTextFromHtml html))
                     true |},
     tr ++ [CallPage (businessUrl req) None; CallListContexts]).
Proof.
  destruct req as [user url av vo]. cbn [userName businessUrl].
  intros Huser Hurl Hpage Hfound Hmatch.
  destruct user as [| cu user]; [congruence |].
  destruct url as [| c url]; [congruence |].
  destruct found as [| f0 found]; [congruence |].
  unfold Basic.POST, orInternalError, catch, Basic.fetchWebsite, fetchUrl,
    issue, reuseOrCreate.
  cbn [userName businessUrl truthy negb orb].
  unfold pageBody in Hpage.
  unfold bind at 1. unfold bind at 1. unfold bind at 1. unfold bind at 1.
  unfold modify at 1. unfold ask at 1.
  destruct (getPage w (c :: url)) as [| st text]; [discriminate Hpage |].
  destruct (isOk st); [| discriminate Hpage].
  injection Hpage as ->.
  unfold ret at 1. unfold bind at 1.
  rewrite findExistingContext_run, Hmatch.
  unfold ret. rewrite <- app_assoc. reflexivity.
Qed.

(** C3, counterexample to the specification as worded.  The first request finds
    the lookup refused (status 503), which the handler treats as no match:
    it creates the context [Acme Sales Rep - Al (1700000000000)] and
    returns the new identifier.  At the second request the list holds that
    context after an older one of the same business: the handler returns
    the older identifier.  It reports a reuse and creates nothing, but the
    identifier is not the one of the first request. *)
Lemma second_request_returns_other_context :
  fst (Basic.POST parseURL acmeRequest worldLookupDown [])
  = Ok {| status := 200;
          body := ContextBody (Some (js "ctx-new")) (js "Acme") false |}
  /\ createdNames (snd (Basic.POST parseURL acmeRequest worldLookupDown []))
     = [js "Acme Sales Rep - Al (1700000000000)"]
  /\ listContexts worldTwoContexts
     = ListStatus 200
         [olderContext;
          {| ctx_id := js "ctx-new";
             ctx_name := js "Acme Sales Rep - Al (1700000000000)" |}]
  /\ Basic.POST parseURL acmeRequest worldTwoContexts []
     = (Ok {| status := 200;
              body := ContextBody (Some (js "ctx-old")) (js "Acme") true |},
        [CallPage (js "https://acme.io") None; CallListContexts])
  /\ jsstring_eqb (js "ctx-old") (js "ctx-new") = false.
Proof.
  repeat apply conj; vm_compute; reflexivity.
Qed.

(** C3, as the code has it.  Two requests to the basic handler.  The
    first succeeded by creating a context, and got the identifier [id1],
    not empty.  The second is for the same business name, and its page
    answers.  The list that the remote service returns to the second
    request holds the created context, with the name the first request
    gave it, and no context listed before it has a name that starts with
    the business name followed by [ Sales Rep].  Then the first request
    did issue one create call with that name, and the second request
    returns [id1] with [reused: true] after the page fetch and the lookup
    only: no create call. *)
Theorem second_request_reuses_first_listed_match :
  forall (newURL : jsstring -> option URL) (w1 w2 : World)
         (req1 req2 : Request) (id1 businessName html2 : jsstring)
         (tr1 : list Call) (before after : list Context) (listStatus : Z),
    Basic.POST newURL req1 w1 []
    = (Ok {| status := 200;
             body := ContextBody (Some id1) businessName false |}, tr1) ->
    id1 <> [] ->
    userName req2 <> [] ->
    businessUrl req2 <> [] ->
    pageBody (getPage w2 (businessUrl req2)) = Some html2 ->
    extractBusinessName newURL (businessUrl req2)
      (Basic.extractTextFromHtml html2) = businessName ->
    listContexts w2
    = ListStatus listStatus
        (before
         ++ {| ctx_id := id1;
               ctx_name := contextName businessName (userName req1) (now w1) |}
         :: after) ->
    isOk listStatus = true ->
    (forall c, In c before ->
               startsWith (ctx_name c) (businessName ++ js " Sales Rep")
               = false) ->
    (exists args : CreateArgs,
        tr1 = [CallPage (businessUrl req1) None; CallListContexts;
               CallCreateContext args]
        /\ arg_name args
           = contextName businessName (userName req1) (now w1))
    /\ Basic.POST newURL req2 w2 []
       = (Ok {| status := 200;
                body := ContextBody (Some id1) businessName true |},
          [CallPage (businessUrl req2) None; CallListContexts]).
Proof.
  intros newURL w1 w2 req1 req2 id1 businessName html2 tr1 before after
    listStatus Hfirst Hid Huser Hurl Hpage Hname Hlist Hok Hbefore.
  split.
  - apply POST_created in Hfirst. exact Hfirst.
  - rewrite <- Hname.
    apply (POST_reuses newURL req2 w2 [] (html := html2)); try assumption.
    rewrite Hname, Hlist. unfold firstMatch. rewrite Hok.
    rewrite (find_first_match _ before after); [reflexivity | exact Hbefore |].
    cbn [ctx_name]. apply contextName_has_prefix.
Qed.

(** Two requests for Acme, by Al and then by Bea, with a context of
    another business listed first: Bea gets the context created for Al. *)
Lemma second_request_reuses_first_listed_match_witness :
  Basic.POST parseURL acmeRequestBea worldAfterCreate []
  = (Ok {| status := 200;
           body := ContextBody (Some (js "ctx-new")) (js "Acme") true |},
     [CallPage (js "https://www.acme.io/pricing") None; CallListContexts]).
Proof.
  refine (proj2
    (second_request_reuses_first_listed_match
       parseURL worldFresh worldAfterCreate acmeRequest acmeRequestBea
       (id1 := js "ctx-new") (businessName := js "Acme")
       (html2 := js "<p>Acme anvils</p>")
       (tr1 := snd (Basic.POST parseURL acmeRequest worldFresh []))
       [otherContext] [] (listStatus := 200%Z)
       _ _ _ _ _ _ _ _ _)).
  - vm_compute. reflexivity.
  - discriminate.
  - discriminate.
  - discriminate.
  - reflexivity.
  - vm_compute. reflexivity.
  - vm_compute. reflexivity.
  - reflexivity.
  - intros c [<- | []]. vm_compute. reflexivity.
Defined.

(** * Further properties of the code *)

(** ** The matcher on the expressions of the extractor *)

Lemma skipClass_rest (p : code_unit -> bool) (s : jsstring) (i : nat)
  (g : option jsstring) :
  rest (skipClass p i s g) = dropWhile p s.
Proof.
  revert i. induction s as [| c t IH]; intros i; simpl.
  - reflexivity.
  - destruct (p c); [apply IH | reflexivity].
Qed.

Lemma skipClass_idx (p : code_unit -> bool) (s : jsstring) (i : nat)
  (g : option jsstring) :
  i <= idx (skipClass p i s g).
Proof.
  revert i. induction s as [| c t IH]; intros i; simpl.
  - apply le_n.
  - destruct (p c); [| apply le_n].
    apply Nat.le_trans with (S i); [apply Nat.le_succ_diag_r | apply IH].
Qed.

(** A greedy star over a class, with nothing after it, takes the longest
    run; the bound on its loop never cuts it short. *)
Lemma star_class_run (p : code_unit -> bool) :
  forall (fuel : nat) (st : mstate),
    List.length (rest st) <= fuel ->
    (fix loop (fuel : nat) (st : mstate) {struct fuel} : option mstate :=
       match fuel with
       | O => Some st
       | S fuel' =>
           firstSome
             (rmatch (Class p) st (fun st' =>
                if Nat.ltb (idx st) (idx st') then loop fuel' st' else None))
             (Some st)
       end) fuel st
    = Some (skipClass p (idx st) (rest st) (cap st)).
Proof.
  induction fuel as [| fuel IH]; intros [i s g] Hlen; cbn [idx rest cap] in *.
  - destruct s as [| c t]; [reflexivity | simpl in Hlen; lia].
  - destruct s as [| c t]; [reflexivity |].
    cbn [rmatch rest advance idx cap skipClass].
    destruct (p c); [| reflexivity].
    assert (Hlt : Nat.ltb i (S i) = true) by (apply Nat.ltb_lt; lia).
    rewrite Hlt.
    rewrite IH by (cbn [rest advance]; simpl in Hlen; lia).
    reflexivity.
Qed.

Lemma matchAt_plus_class (p : code_unit -> bool) (i : nat) (s : jsstring) :
  matchAt (plus (Class p)) i s
  = match s with
    | c :: t => if p c then Some (skipClass p (S i) t None) else None
    | [] => None
    end.
Proof.
  unfold matchAt, plus.
  destruct s as [| c t]; [reflexivity |].
  cbn [rmatch rest].
  destruct (p c); [| reflexivity].
  cbn [advance idx rest cap].
  apply (@star_class_run p (List.length t)
           {| idx := S i; rest := t; cap := None |}).
  apply le_n.
Qed.

Lemma collapseFrom_run (t : jsstring) :
  collapseFrom true t = collapseFrom false (dropWhile isWhiteSpace t).
Proof.
  induction t as [| c t IH]; simpl.
  - reflexivity.
  - destruct (isWhiteSpace c) eqn:Hc.
    + exact IH.
    + simpl. rewrite Hc. reflexivity.
Qed.

Lemma dropWhile_length (p : code_unit -> bool) (s : jsstring) :
  List.length (dropWhile p s) <= List.length s.
Proof.
  induction s as [| c t IH]; simpl.
  - apply le_n.
  - destruct (p c); simpl; lia.
Qed.

Lemma replaceAllFrom_spaces :
  forall (fuel : nat) (s : jsstring) (i : nat),
    List.length s < fuel ->
    replaceAllFrom fuel (plus (Class isWhiteSpace)) [32%N] i s
    = collapseFrom false s.
Proof.
  induction fuel as [| fuel IH]; intros s i Hlen; [lia |].
  cbn [replaceAllFrom]. rewrite matchAt_plus_class.
  destruct s as [| c t]; [reflexivity |].
  cbn [collapseFrom].
  destruct (isWhiteSpace c).
  - assert (Hlt : Nat.ltb i (idx (skipClass isWhiteSpace (S i) t None)) = true).
    { apply Nat.ltb_lt.
      pose proof (skipClass_idx isWhiteSpace t (S i) None). lia. }
    rewrite Hlt, skipClass_rest, collapseFrom_run.
    rewrite IH; [reflexivity |].
    pose proof (dropWhile_length isWhiteSpace t). simpl in Hlen. lia.
  - rewrite IH; [reflexivity |]. simpl in Hlen. lia.
Qed.

(** The whitespace expression of the extractor, with the global flag and a
    space as replacement, is the collapse of whitespace runs. *)
Lemma replaceAll_spaces (s : jsstring) :
  replaceAll re_spaces (js " ") s = collapseWhitespace s.
Proof.
  unfold replaceAll, collapseWhitespace, re_spaces.
  change (js " ") with [32%N].
  apply replaceAllFrom_spaces. apply Nat.lt_succ_diag_r.
Qed.

(** ** [trim] and the whitespace normal form *)

Lemma trimStart_length (s : jsstring) :
  List.length (trimStart s) <= List.length s.
Proof.
  induction s as [| c t IH]; simpl.
  - apply le_n.
  - destruct (isWhiteSpace c); simpl; lia.
Qed.

Lemma trimStart_suffix (s : jsstring) : exists a, s = a ++ trimStart s.
Proof.
  induction s as [| c t [a IH]]; simpl.
  - exists []. reflexivity.
  - destruct (isWhiteSpace c).
    + exists (c :: a). simpl. rewrite <- IH. reflexivity.
    + exists []. reflexivity.
Qed.

Lemma trimStart_head (s : jsstring) (c : code_unit) (t : jsstring) :
  trimStart s = c :: t -> isWhiteSpace c = false.
Proof.
  induction s as [| d s IH]; simpl.
  - discriminate.
  - destruct (isWhiteSpace d) eqn:Hd.
    + exact IH.
    + intros H. injection H as <- _. exact Hd.
Qed.

Lemma trimStart_fixed (c : code_unit) (t : jsstring) :
  isWhiteSpace c = false -> trimStart (c :: t) = c :: t.
Proof.
  intros H. simpl. rewrite H. reflexivity.
Qed.

Lemma trimStart_idem (s : jsstring) : trimStart (trimStart s) = trimStart s.
Proof.
  destruct (trimStart s) as [| c t] eqn:E; [reflexivity |].
  apply trimStart_fixed. exact (trimStart_head s E).
Qed.

Lemma trimStart_eq_head (c : code_unit) (t : jsstring) :
  trimStart (c :: t) = c :: t -> isWhiteSpace c = false.
Proof.
  simpl. destruct (isWhiteSpace c); [| reflexivity].
  intros H. pose proof (trimStart_length t) as Hl.
  rewrite H in Hl. simpl in Hl. lia.
Qed.

Lemma trimEnd_prefix (s : jsstring) : exists z, s = trimEnd s ++ z.
Proof.
  unfold trimEnd. destruct (trimStart_suffix (List.rev s)) as [a Ha].
  exists (List.rev a).
  rewrite <- rev_app_distr, <- Ha, rev_involutive. reflexivity.
Qed.

Lemma trimEnd_idem (s : jsstring) : trimEnd (trimEnd s) = trimEnd s.
Proof.
  unfold trimEnd. rewrite rev_involutive, trimStart_idem. reflexivity.
Qed.

Lemma trimEnd_keeps_start (s : jsstring) :
  trimStart s = s -> trimStart (trimEnd s) = trimEnd s.
Proof.
  intros Hs. destruct (trimEnd_prefix s) as [z Hz].
  destruct (trimEnd s) as [| c t]; [reflexivity |].
  apply trimStart_fixed. apply (@trimStart_eq_head c (t ++ z)).
  rewrite Hz in Hs. exact Hs.
Qed.

(** [trim] is idempotent. *)
Lemma trim_idem (s : jsstring) : trim (trim s) = trim s.
Proof.
  unfold trim.
  rewrite (trimEnd_keeps_start (trimStart_idem s)).
  apply trimEnd_idem.
Qed.

Lemma singleSpaced_weaken (s : jsstring) :
  singleSpaced true s = true -> singleSpaced false s = true.
Proof.
  destruct s as [| c t]; simpl; [reflexivity |].
  destruct (isWhiteSpace c); [| exact (fun H => H)].
  rewrite andb_false_r. discriminate.
Qed.

Lemma singleSpaced_suffix (a s : jsstring) (b : bool) :
  singleSpaced b (a ++ s) = true -> singleSpaced false s = true.
Proof.
  revert b. induction a as [| c a IH]; intros b; simpl.
  - destruct b; [apply singleSpaced_weaken | exact (fun H => H)].
  - destruct (isWhiteSpace c).
    + intros H. apply andb_prop in H. destruct H as [_ H]. exact (IH _ H).
    + apply IH.
Qed.

Lemma singleSpaced_prefix (a s : jsstring) (b : bool) :
  singleSpaced b (a ++ s) = true -> singleSpaced b a = true.
Proof.
  revert b. induction a as [| c a IH]; intros b; simpl.
  - reflexivity.
  - destruct (isWhiteSpace c).
    + intros H. apply andb_prop in H. destruct H as [H1 H2].
      rewrite H1. exact (IH _ H2).
    + apply IH.
Qed.

Lemma singleSpaced_collapse (b : bool) (s : jsstring) :
  singleSpaced b (collapseFrom b s) = true.
Proof.
  revert b. induction s as [| c t IH]; intros b; simpl.
  - reflexivity.
  - destruct (isWhiteSpace c) eqn:Hc.
    + destruct b; [apply IH |].
      simpl. change (isWhiteSpace 32%N) with true. cbv iota.
      rewrite IH. reflexivity.
    + simpl. rewrite Hc. apply IH.
Qed.

Lemma singleSpaced_trim (s : jsstring) :
  singleSpaced false s = true -> singleSpaced false (trim s) = true.
Proof.
  intros H. unfold trim.
  destruct (trimStart_suffix s) as [a Ha].
  destruct (trimEnd_prefix (trimStart s)) as [z Hz].
  rewrite Ha in H. apply singleSpaced_suffix in H.
  rewrite Hz in H. exact (singleSpaced_prefix _ _ _ H).
Qed.

(** The last step of every extractor leaves a string in normal form. *)
Lemma decodeAndClean_normal (text : jsstring) :
  singleSpaced false (decodeAndClean text) = true
  /\ trim (decodeAndClean text) = decodeAndClean text.
Proof.
  unfold decodeAndClean. cbv zeta. rewrite replaceAll_spaces. split.
  - apply singleSpaced_trim. apply singleSpaced_collapse.
  - apply trim_idem.
Qed.

(** X1.  Whatever the input, the text that [extractTextFromHtml] returns
    is in whitespace normal form, in both variants: its only whitespace
    units are plain spaces, no two of them are adjacent, and [trim] leaves
    it unchanged (it neither begins nor ends with whitespace). *)
Theorem extractTextFromHtml_whitespace_normal :
  forall html : jsstring,
    singleSpaced false (Basic.extractTextFromHtml html) = true
    /\ trim (Basic.extractTextFromHtml html) = Basic.extractTextFromHtml html
    /\ singleSpaced false (MultiPage.extractTextFromHtml html) = true
    /\ trim (MultiPage.extractTextFromHtml html)
       = MultiPage.extractTextFromHtml html.
Proof.
  intros html.
  unfold Basic.extractTextFromHtml, MultiPage.extractTextFromHtml. cbv zeta.
  split; [| split; [| split]]; apply decodeAndClean_normal.
Qed.

(** ** Text without markup *)

(** A global replacement changes nothing in a string where no unit can
    begin a match. *)
Lemma replaceAll_unmatched (r : regex) (repl : jsstring)
  (p : code_unit -> bool) (s : jsstring) :
  (forall i, matchAt r i [] = None) ->
  (forall i c t, p c = false -> matchAt r i (c :: t) = None) ->
  forallb (fun c => negb (p c)) s = true ->
  replaceAll r repl s = s.
Proof.
  intros Hnil Hcons. unfold replaceAll.
  generalize (S (List.length s)) 0. intros fuel. revert s.
  induction fuel as [| fuel IH]; intros s i Hs; [reflexivity |].
  cbn [replaceAllFrom].
  destruct s as [| c t].
  - rewrite Hnil. reflexivity.
  - simpl in Hs. apply andb_prop in Hs. destruct Hs as [Hc Ht].
    apply negb_true_iff in Hc.
    rewrite (Hcons i c t Hc). f_equal. apply IH. exact Ht.
Qed.

Lemma upper_is_lt (c : code_unit) :
  cu_eqb LT c = false ->
  cu_eqb (toUpperCaseUnit LT) (toUpperCaseUnit c) = false.
Proof.
  unfold cu_eqb, toUpperCaseUnit, isAsciiLower, LT.
  change ((97 <=? 60) && (60 <=? 122))%N with false. cbv iota.
  intros H. apply N.eqb_neq in H. apply N.eqb_neq.
  destruct (N.leb_spec 97 c); destruct (N.leb_spec c 122); cbn [andb]; lia.
Qed.

Ltac guarded_by_first_unit :=
  intros; unfold matchAt, re_element, re_tag, plus, lit, litI, chr, chrI;
  cbn -[cu_eqb toUpperCaseUnit];
  repeat match goal with
         | H : cu_eqb _ _ = false |- _ =>
             first [rewrite H | rewrite (upper_is_lt _ H)]
         end;
  reflexivity.

Lemma element_needs_lt (tag : string) :
  (forall i, matchAt (re_element tag) i [] = None)
  /\ (forall i c t, cu_eqb LT c = false ->
                    matchAt (re_element tag) i (c :: t) = None).
Proof.
  unfold matchAt, re_element, litI.
  change (js (String "<" tag)) with (LT :: js tag).
  cbn [List.map seqs].
  split.
  - intros i. destruct (List.map chrI (js tag)); reflexivity.
  - intros i c t H.
    destruct (List.map chrI (js tag)); cbn [rmatch rest chrI];
      rewrite (upper_is_lt _ H); reflexivity.
Qed.

Lemma tag_needs_lt :
  (forall i, matchAt re_tag i [] = None)
  /\ (forall i c t, cu_eqb LT c = false -> matchAt re_tag i (c :: t) = None).
Proof.
  split; guarded_by_first_unit.
Qed.

Lemma entity_needs_amp (name : string) :
  (forall i, matchAt (lit (String "&" name)) i [] = None)
  /\ (forall i c t, cu_eqb 38%N c = false ->
                    matchAt (lit (String "&" name)) i (c :: t) = None).
Proof.
  unfold matchAt, lit.
  change (js (String "&" name)) with (38%N :: js name).
  cbn [List.map seqs].
  split.
  - intros i. destruct (List.map chr (js name)); reflexivity.
  - intros i c t H.
    destruct (List.map chr (js name)); cbn [rmatch rest chr];
      rewrite H; reflexivity.
Qed.

Lemma forallb_weaken (p q : code_unit -> bool) (s : jsstring) :
  (forall c, p c = true -> q c = true) ->
  forallb p s = true -> forallb q s = true.
Proof.
  intros Hpq. induction s as [| c t IH]; simpl; [reflexivity |].
  intros H. apply andb_prop in H. destruct H as [Hc Ht].
  rewrite (Hpq c Hc). exact (IH Ht).
Qed.

Lemma decodeAndClean_plain (text : jsstring) :
  forallb (fun c => negb (cu_eqb 38%N c)) text = true ->
  decodeAndClean text = trim (collapseWhitespace text).
Proof.
  intros H. unfold decodeAndClean. cbv zeta.
  rewrite (@replaceAll_unmatched _ _ (cu_eqb 38%N) _
             (proj1 (entity_needs_amp "nbsp;"))
             (proj2 (entity_needs_amp "nbsp;")) H).
  rewrite (@replaceAll_unmatched _ _ (cu_eqb 38%N) _
             (proj1 (entity_needs_amp "amp;"))
             (proj2 (entity_needs_amp "amp;")) H).
  rewrite (@replaceAll_unmatched _ _ (cu_eqb 38%N) _
             (proj1 (entity_needs_amp "lt;"))
             (proj2 (entity_needs_amp "lt;")) H).
  rewrite (@replaceAll_unmatched _ _ (cu_eqb 38%N) _
             (proj1 (entity_needs_amp "gt;"))
             (proj2 (entity_needs_amp "gt;")) H).
  rewrite (@replaceAll_unmatched _ _ (cu_eqb 38%N) _
             (proj1 (entity_needs_amp "quot;"))
             (proj2 (entity_needs_amp "quot;")) H).
  rewrite (@replaceAll_unmatched _ _ (cu_eqb 38%N) _
             (proj1 (entity_needs_amp "#39;"))
             (proj2 (entity_needs_amp "#39;")) H).
  rewrite replaceAll_spaces. reflexivity.
Qed.

Ltac skip_element tag H :=
  rewrite (@replaceAll_unmatched _ _ (cu_eqb LT) _
             (proj1 (element_needs_lt tag)) (proj2 (element_needs_lt tag)) H).

(** X2.  On a text that contains neither [<] nor [&], both variants of
    [extractTextFromHtml] do nothing but normalize whitespace: the result is
    the input with every run of whitespace collapsed to one space, and
    trimmed. *)
Theorem extractTextFromHtml_plain_text :
  forall html : jsstring,
    forallb (fun c => negb (cu_eqb LT c || cu_eqb 38%N c)) html = true ->
    Basic.extractTextFromHtml html = trim (collapseWhitespace html)
    /\ MultiPage.extractTextFromHtml html = trim (collapseWhitespace html).
Proof.
  intros html H.
  assert (Hlt : forallb (fun c => negb (cu_eqb LT c)) html = true).
  { revert H. apply forallb_weaken. intros c Hc.
    apply negb_true_iff in Hc. apply orb_false_elim in Hc.
    destruct Hc as [Hc _]. rewrite Hc. reflexivity. }
  assert (Hamp : forallb (fun c => negb (cu_eqb 38%N c)) html = true).
  { revert H. apply forallb_weaken. intros c Hc.
    apply negb_true_iff in Hc. apply orb_false_elim in Hc.
    destruct Hc as [_ Hc]. rewrite Hc. reflexivity. }
  unfold Basic.extractTextFromHtml, MultiPage.extractTextFromHtml. cbv zeta.
  split.
  - skip_element "script"%string Hlt. skip_element "style"%string Hlt.
    rewrite (@replaceAll_unmatched _ _ (cu_eqb LT) _
               (proj1 tag_needs_lt) (proj2 tag_needs_lt) Hlt).
    apply decodeAndClean_plain. exact Hamp.
  - skip_element "script"%string Hlt. skip_element "style"%string Hlt.
    skip_element "nav"%string Hlt. skip_element "footer"%string Hlt.
    skip_element "header"%string Hlt.
    rewrite (@replaceAll_unmatched _ _ (cu_eqb LT) _
               (proj1 tag_needs_lt) (proj2 tag_needs_lt) Hlt).
    apply decodeAndClean_plain. exact Hamp.
Qed.

(** A text with runs of spaces and a line break. *)
Lemma extractTextFromHtml_plain_text_witness :
  Basic.extractTextFromHtml [32; 65; 99; 109; 101; 32; 10; 32; 97; 110; 118;
                             105; 108; 115; 9]%N
  = js "Acme anvils".
Proof.
  exact (proj1 (extractTextFromHtml_plain_text
                  [32; 65; 99; 109; 101; 32; 10; 32; 97; 110; 118;
                   105; 108; 115; 9]%N eq_refl)).
Defined.

(** ** [normalizeUrl], further *)

Lemma trimStart_app_fixed (y z : jsstring) :
  trimStart y = y -> trimStart z = z -> trimStart (y ++ z) = y ++ z.
Proof.
  intros Hy Hz. destruct y as [| c t]; [exact Hz |].
  apply (@trimStart_fixed c (t ++ z)). exact (trimStart_eq_head Hy).
Qed.

Lemma trim_end_fixed (x : jsstring) :
  trimStart (List.rev (trim x)) = List.rev (trim x).
Proof.
  pose proof (trimEnd_idem (trimStart x)) as H.
  fold (trim x) in H. unfold trimEnd in H at 1.
  apply (f_equal (@List.rev code_unit)) in H.
  rewrite rev_involutive in H. exact H.
Qed.

Lemma trim_https (x : jsstring) :
  trim (js "https://" ++ trim x) = js "https://" ++ trim x.
Proof.
  unfold trim at 1.
  assert (Hstart : trimStart (js "https://" ++ trim x) = js "https://" ++ trim x)
    by reflexivity.
  rewrite Hstart. unfold trimEnd.
  rewrite rev_app_distr.
  rewrite (@trimStart_app_fixed _ (List.rev (js "https://"))
             (trim_end_fixed x) eq_refl).
  rewrite <- rev_app_distr. apply rev_involutive.
Qed.

Lemma https_has_scheme (x : jsstring) :
  spec_hasSchemePrefix (js "https://" ++ x) = true.
Proof.
  unfold spec_hasSchemePrefix. cbv zeta. rewrite map_app.
  change (List.map toLowerCaseUnit (js "https://")) with (js "https://").
  rewrite startsWith_app. apply orb_true_r.
Qed.

(** X3.  Whatever the user typed, [normalizeUrl] returns a text that begins
    with [http://] or [https://] (in any letter case) and has no
    surrounding whitespace, and normalizing it again changes nothing. *)
Theorem normalizeUrl_scheme_and_idempotent :
  forall url : jsstring,
    spec_hasSchemePrefix (Demo.normalizeUrl url) = true
    /\ trim (Demo.normalizeUrl url) = Demo.normalizeUrl url
    /\ Demo.normalizeUrl (Demo.normalizeUrl url) = Demo.normalizeUrl url.
Proof.
  intros url.
  assert (Hfix : forall r, trim r = r -> spec_hasSchemePrefix r = true ->
                           Demo.normalizeUrl r = r).
  { intros r Ht Hs. unfold Demo.normalizeUrl. cbv zeta.
    rewrite Ht, test_re_scheme, Hs. reflexivity. }
  destruct (test Demo.re_scheme (trim url)) eqn:E.
  - assert (Hn : Demo.normalizeUrl url = trim url)
      by (unfold Demo.normalizeUrl; cbv zeta; rewrite E; reflexivity).
    rewrite Hn. rewrite test_re_scheme in E.
    repeat apply conj; [exact E | apply trim_idem |].
    apply Hfix; [apply trim_idem | exact E].
  - assert (Hn : Demo.normalizeUrl url = js "https://" ++ trim url)
      by (unfold Demo.normalizeUrl; cbv zeta; rewrite E; reflexivity).
    rewrite Hn.
    repeat apply conj; [apply https_has_scheme | apply trim_https |].
    apply Hfix; [apply trim_https | apply https_has_scheme].
Qed.

(** ** [extractBusinessName], further *)

Lemma splitClass_words (p : code_unit -> bool) (s w : jsstring) :
  In w (splitClass p s) -> forallb (fun c => negb (p c)) w = true.
Proof.
  revert w. induction s as [| c t IH]; intros w; simpl.
  - intros [<- | []]. reflexivity.
  - destruct (p c) eqn:Hc.
    + intros [<- | H]; [reflexivity | exact (IH w H)].
    + destruct (splitClass p t) as [| w0 ws].
      * intros [<- | []]. simpl. rewrite Hc. reflexivity.
      * intros [<- | H].
        -- simpl. rewrite Hc. apply IH. left. reflexivity.
        -- apply IH. right. exact H.
Qed.

Lemma slice_tail (w : jsstring) : slice w 1 None = tl w.
Proof.
  unfold slice, clampIndex. change (1 <? 0)%Z with false. cbv iota.
  destruct w as [| c t]; [reflexivity |].
  replace (Z.min 1 (Z.of_nat (List.length (c :: t)))) with 1%Z
    by (simpl List.length; lia).
  change (Z.to_nat 1) with 1. cbn [skipn tl].
  replace (Z.to_nat (Z.max (Z.of_nat (List.length (c :: t)) - 1) 0))
    with (List.length t) by (simpl List.length; lia).
  apply firstn_all.
Qed.

Lemma upper_not_separator (c : code_unit) :
  isDotOrHyphen c = false -> isDotOrHyphen (toUpperCaseUnit c) = false.
Proof.
  unfold isDotOrHyphen, toUpperCaseUnit, isAsciiLower.
  intros H. destruct (N.leb_spec 97 c); destruct (N.leb_spec c 122);
    cbn [andb]; try exact H.
  apply orb_false_intro; apply N.eqb_neq; lia.
Qed.

Lemma capitalize_no_separator (w : jsstring) :
  forallb (fun c => negb (isDotOrHyphen c)) w = true ->
  forallb (fun c => negb (isDotOrHyphen c)) (capitalize w) = true.
Proof.
  unfold capitalize. rewrite slice_tail.
  destruct w as [| c t]; [reflexivity |].
  simpl. intros H. apply andb_prop in H. destruct H as [Hc Ht].
  apply negb_true_iff in Hc. rewrite (upper_not_separator _ Hc). exact Ht.
Qed.

Lemma join_forallb (q : code_unit -> bool) (sep : jsstring)
  (l : list jsstring) :
  forallb q sep = true ->
  (forall w, In w l -> forallb q w = true) ->
  forallb q (join sep l) = true.
Proof.
  intros Hsep. induction l as [| w l IH]; intros Hl; [reflexivity |].
  destruct l as [| w' l'].
  - apply Hl. left. reflexivity.
  - change (join sep (w :: w' :: l')) with (w ++ sep ++ join sep (w' :: l')).
    rewrite !forallb_app, Hsep, (Hl w (or_introl eq_refl)).
    rewrite IH; [reflexivity |].
    intros x Hx. apply Hl. right. exact Hx.
Qed.

(** X4.  For every URL parser, URL and content, the business name holds no
    dot and no hyphen: the words of the hostname are separated by spaces
    only (and the fallback label has neither). *)
Theorem extractBusinessName_no_separator :
  forall (newURL : jsstring -> option URL) (url content : jsstring),
    forallb (fun c => negb (isDotOrHyphen c))
            (extractBusinessName newURL url content) = true.
Proof.
  intros newURL url content. unfold extractBusinessName.
  destruct (newURL url) as [u |]; [| reflexivity].
  cbv zeta. apply join_forallb; [reflexivity |].
  intros w Hw. apply in_map_iff in Hw. destruct Hw as (w0 & <- & Hw0).
  apply capitalize_no_separator. exact (splitClass_words _ _ _ Hw0).
Qed.

Lemma exec_anchored (r : regex) (s : jsstring) :
  exec (Seq Bol r) s
  = match matchAt (Seq Bol r) 0 s with
    | Some st => Some (0, st)
    | None => None
    end.
Proof.
  unfold exec. destruct s as [| c s]; simpl.
  - destruct (matchAt (Seq Bol r) 0 []); reflexivity.
  - destruct (matchAt (Seq Bol r) 0 (c :: s)); [reflexivity |].
    apply execFrom_anchored.
Qed.

Lemma re_www_unfold :
  re_www = Seq Bol (Seq (chr 119%N) (Seq (chr 119%N)
                      (Seq (chr 119%N) (chr 46%N)))).
Proof. reflexivity. Qed.

Lemma replaceFirst_www_strips (h : jsstring) :
  replaceFirst re_www [] (js "www." ++ h) = h.
Proof.
  unfold replaceFirst. rewrite re_www_unfold, exec_anchored. reflexivity.
Qed.

Lemma replaceFirst_www_keeps (h : jsstring) :
  startsWith h (js "www.") = false -> replaceFirst re_www [] h = h.
Proof.
  unfold replaceFirst. rewrite re_www_unfold, exec_anchored.
  change (js "www.") with [119; 119; 119; 46]%N.
  unfold matchAt, chr.
  destruct h as [| c1 [| c2 [| c3 [| c4 h]]]];
    cbn -[cu_eqb]; try reflexivity;
    case_units; try reflexivity; discriminate.
Qed.

(** X5.  A leading [www.] does not change the business name: when one
    hostname is the other behind [www.] (and the other does not itself
    begin with [www.]), both URLs get the same name. *)
Theorem extractBusinessName_ignores_www :
  forall (newURL : jsstring -> option URL) (url1 url2 : jsstring)
         (u1 u2 : URL) (content1 content2 : jsstring),
    newURL url1 = Some u1 ->
    newURL url2 = Some u2 ->
    hostname u1 = js "www." ++ hostname u2 ->
    startsWith (hostname u2) (js "www.") = false ->
    extractBusinessName newURL url1 content1
    = extractBusinessName newURL url2 content2.
Proof.
  intros newURL url1 url2 u1 u2 content1 content2 H1 H2 Hwww Hnot.
  unfold extractBusinessName. rewrite H1, H2. cbv zeta.
  rewrite Hwww, replaceFirst_www_strips, (replaceFirst_www_keeps _ Hnot).
  reflexivity.
Qed.

(** The same site with and without [www.], on different pages. *)
Lemma extractBusinessName_ignores_www_witness :
  extractBusinessName parseURL (js "https://www.acme.io") []
  = extractBusinessName parseURL (js "http://acme.io/about") (js "text").
Proof.
  apply (extractBusinessName_ignores_www parseURL
           (js "https://www.acme.io") (js "http://acme.io/about")
           (u1 := {| hostname := js "www.acme.io";
                     origin := js "https://www.acme.io" |})
           (u2 := {| hostname := js "acme.io";
                     origin := js "http://acme.io" |})).
  - vm_compute. reflexivity.
  - vm_compute. reflexivity.
  - reflexivity.
  - reflexivity.
Defined.

(** ** Route handler, further *)

(** Steps 2 to 4 in closed form: a usable match is returned after the
    lookup alone; otherwise one create call follows. *)
Lemma reuseOrCreate_run (req : Request) (businessName prompt : jsstring)
  (w : World) (tr : list Call) :
  orInternalError (reuseOrCreate req businessName prompt) w tr
  = match firstMatch businessName (listContexts w) with
    | Some (c :: t) =>
        (Ok {| status := 200;
               body := ContextBody (Some (c :: t)) businessName true |},
         tr ++ [CallListContexts])
    | _ =>
        let args := createArgsOf req businessName prompt (now w) in
        (Ok (createResponse businessName (createContext w args)),
         tr ++ [CallListContexts; CallCreateContext args])
    end.
Proof.
  unfold orInternalError, catch, reuseOrCreate.
  unfold bind at 1. rewrite findExistingContext_run.
  fold (createArgsOf req businessName prompt).
  destruct (firstMatch businessName (listContexts w)) as [[| c t] |];
    [| reflexivity |];
    unfold bind, ask, issue, modify, throw, ret, createResponse; cbv zeta;
    fold (createArgsOf req businessName prompt (now w));
    (destruct (createContext w _) as [m | st data];
     [| destruct (isOk st)]); cbn [negb];
    rewrite <- app_assoc; reflexivity.
Qed.

(** The basic handler in closed form. *)
Lemma Basic_POST_run (newURL : jsstring -> option URL) (req : Request)
  (w : World) (tr : list Call) :
  Basic.POST newURL req w tr
  = if negb (truthy (userName req)) || negb (truthy (businessUrl req))
    then (Ok missingFields, tr)
    else
      match pageBody (getPage w (businessUrl req)) with
      | None =>
          (Ok (couldNotAccess (businessUrl req)),
           tr ++ [CallPage (businessUrl req) None])
      | Some html =>
          let websiteContent := Basic.extractTextFromHtml html in
          let businessName :=
            extractBusinessName newURL (businessUrl req) websiteContent in
          orInternalError
            (reuseOrCreate req businessName
               (Basic.generateSalesPrompt (userName req) businessName
                  websiteContent))
            w (tr ++ [CallPage (businessUrl req) None])
      end.
Proof.
  unfold Basic.POST.
  destruct (negb (truthy (userName req)) || negb (truthy (businessUrl req)));
    [reflexivity |].
  unfold orInternalError, catch, Basic.fetchWebsite, fetchUrl, issue, pageBody.
  unfold bind at 1. unfold bind at 1. unfold bind at 1.
  unfold modify at 1. unfold ask at 1.
  destruct (getPage w (businessUrl req)) as [| st html]; [reflexivity |].
  destruct (isOk st); reflexivity.
Qed.

(** X6.  A request with an empty user name or an empty URL is answered 400
    [Missing userName or businessUrl] by both variants, and no outbound
    call is made for it. *)
Theorem POST_rejects_missing_fields :
  forall (newURL : jsstring -> option URL) (req : Request) (w : World)
         (tr : list Call),
    userName req = [] \/ businessUrl req = [] ->
    Basic.POST newURL req w tr = (Ok missingFields, tr)
    /\ MultiPage.POST newURL req w tr = (Ok missingFields, tr)
    /\ status missingFields = 400%Z.
Proof.
  intros newURL [user url av vo] w tr H. cbn [userName businessUrl] in H.
  unfold Basic.POST, MultiPage.POST. cbn [userName businessUrl].
  assert (Hif : negb (truthy user) || negb (truthy url) = true).
  { destruct H as [-> | ->]; [reflexivity |]. apply orb_true_r. }
  rewrite Hif. repeat apply conj; reflexivity.
Qed.

(** A request without a user name, in a world where everything works. *)
Lemma POST_rejects_missing_fields_witness :
  MultiPage.POST parseURL
    {| userName := []; businessUrl := js "https://acme.io";
       avatarId := None; voiceId := None |} worldFresh []
  = (Ok missingFields, []).
Proof.
  refine (proj1 (proj2 (POST_rejects_missing_fields parseURL _ worldFresh [] _))).
  left. reflexivity.
Defined.

Lemma createResponse_contract (businessName : jsstring) (o : CreateOutcome) :
  statusMatchesBody (createResponse businessName o) = true.
Proof.
  unfold createResponse, statusMatchesBody.
  destruct o as [m | st data]; [reflexivity |].
  destruct (isOk st) eqn:E; cbn [body status]; [reflexivity |].
  rewrite E. reflexivity.
Qed.

Lemma reuseOrCreate_contract (req : Request) (businessName prompt : jsstring)
  (w : World) (tr : list Call) :
  exists (r : Response) (tr' : list Call),
    orInternalError (reuseOrCreate req businessName prompt) w tr = (Ok r, tr')
    /\ statusMatchesBody r = true.
Proof.
  rewrite reuseOrCreate_run.
  destruct (firstMatch businessName (listContexts w)) as [[| c t] |];
    eexists; eexists; (split; [reflexivity |]);
    try apply createResponse_contract; reflexivity.
Qed.


(** ** Site Crawler, further *)

Lemma fetchAdditional_run (origin path : jsstring) (w : World)
  (tr : list Call) :
  MultiPage.fetchAdditional origin path w tr
  = (Ok (secondarySection w origin path),
     tr ++ [CallPage (origin ++ path) (Some 3000%Z)]).
Proof.
  unfold MultiPage.fetchAdditional, secondarySection, bind.
  rewrite fetchPage_run.
  destruct (pageBody (getPage w (origin ++ path))) as [[| c h] |];
    try reflexivity.
  cbv zeta. destruct (Nat.ltb 100 _); reflexivity.
Qed.

(** The multi-page crawl in closed form, for a URL that parses. *)
Lemma fetchWebsiteContent_run (newURL : jsstring -> option URL)
  (baseUrl : jsstring) (u : URL) (w : World) (tr : list Call) :
  newURL baseUrl = Some u ->
  MultiPage.fetchWebsiteContent newURL baseUrl w tr
  = match pageBody (getPage w baseUrl) with
    | Some (c :: h) =>
        (Ok {| MultiPage.content :=
                 (js "Homepage:
" ++ MultiPage.extractTextFromHtml (c :: h) ++ js "

")
                 ++ join []
                      (List.filter truthy
                         [secondarySection w (origin u) (js "/about");
                          secondarySection w (origin u) (js "/about-us");
                          secondarySection w (origin u) (js "/products")]);
               MultiPage.title := MultiPage.extractTitle (c :: h);
               MultiPage.description :=
                 MultiPage.extractMetaDescription (c :: h) |},
         tr ++ CallPage baseUrl (Some 5000%Z) :: secondaryCalls (origin u))
    | _ =>
        (Ok {| MultiPage.content := []; MultiPage.title := [];
               MultiPage.description := [] |},
         tr ++ [CallPage baseUrl (Some 5000%Z)])
    end.
Proof.
  intros Hparse. unfold MultiPage.fetchWebsiteContent. rewrite Hparse.
  unfold bind at 1. rewrite fetchPage_run.
  destruct (pageBody (getPage w baseUrl)) as [[| c h] |]; try reflexivity.
  cbv zeta.
  change (slice_list MultiPage.additionalPaths 3)
    with [js "/about"; js "/about-us"; js "/products"].
  cbn [mapM]. unfold bind, ret. rewrite !fetchAdditional_run.
  unfold secondaryCalls. rewrite <- !app_assoc. reflexivity.
Qed.

(** X9.  The fetch budget of the multi-page crawl, for a URL that parses.
    The crawl never throws.  It fetches the homepage with a timeout of
    5000; when that gives no body, or an empty one, it stops there.
    Otherwise it fetches exactly three more pages, [/about], [/about-us]
    and [/products] under the origin, each with a timeout of 3000, whatever
    they return; the other four candidate paths are never fetched. *)
Theorem fetchWebsiteContent_fetch_budget :
  forall (newURL : jsstring -> option URL) (baseUrl : jsstring) (u : URL)
         (w : World) (tr : list Call),
    newURL baseUrl = Some u ->
    exists crawl : MultiPage.CrawlResult,
      MultiPage.fetchWebsiteContent newURL baseUrl w tr
      = (Ok crawl,
         tr ++ CallPage baseUrl (Some 5000%Z)
            :: match pageBody (getPage w baseUrl) with
               | Some (_ :: _) =>
                   [CallPage (origin u ++ js "/about") (Some 3000%Z);
                    CallPage (origin u ++ js "/about-us") (Some 3000%Z);
                    CallPage (origin u ++ js "/products") (Some 3000%Z)]
               | _ => []
               end).
Proof.
  intros newURL baseUrl u w tr Hparse.
  rewrite (fetchWebsiteContent_run _ _ w tr Hparse).
  destruct (pageBody (getPage w baseUrl)) as [[| c h] |];
    eexists; reflexivity.
Qed.

(** The sample site: four fetches. *)
Lemma fetchWebsiteContent_fetch_budget_witness :
  snd (MultiPage.fetchWebsiteContent parseURL (js "https://acme.io")
         worldFresh [])
  = [CallPage (js "https://acme.io") (Some 5000%Z);
     CallPage (js "https://acme.io/about") (Some 3000%Z);
     CallPage (js "https://acme.io/about-us") (Some 3000%Z);
     CallPage (js "https://acme.io/products") (Some 3000%Z)].
Proof.
  destruct (fetchWebsiteContent_fetch_budget parseURL (js "https://acme.io")
              (u := {| hostname := js "acme.io";
                       origin := js "https://acme.io" |})
              worldFresh [] eq_refl) as [crawl H].
  rewrite H. reflexivity.
Defined.

Unset Implicit Arguments.

(** X12.  A secondary page that does not arrive, or arrives with at most
    100 units of text, adds nothing: when that is so for all three, the
    content of the crawl is the homepage section alone, the label
    [Homepage:], a line break, the homepage text and two line breaks. *)
Theorem fetchWebsiteContent_short_pages_dropped :
  forall (newURL : jsstring -> option URL) (baseUrl : jsstring) (u : URL)
         (w : World) (tr : list Call) (c : code_unit) (h : jsstring),
    newURL baseUrl = Some u ->
    pageBody (getPage w baseUrl) = Some (c :: h) ->
    (forall path html,
        In path [js "/about"; js "/about-us"; js "/products"] ->
        pageBody (getPage w (origin u ++ path)) = Some html ->
        List.length (MultiPage.extractTextFromHtml html) <= 100) ->
    exists tr' : list Call,
      MultiPage.fetchWebsiteContent newURL baseUrl w tr
      = (Ok {| MultiPage.content :=
                 js "Homepage:
" ++ MultiPage.extractTextFromHtml (c :: h) ++ js "

";
               MultiPage.title := MultiPage.extractTitle (c :: h);
               MultiPage.description :=
                 MultiPage.extractMetaDescription (c :: h) |}, tr').
Proof.
  intros newURL baseUrl u w tr c h Hparse Hhome Hshort.
  rewrite (fetchWebsiteContent_run _ _ w tr Hparse).
  destruct (pageBody (getPage w baseUrl)) as [[| c0 h0] |];
    try discriminate Hhome.
  injection Hhome as -> ->.
  assert (Hsec : forall path,
             In path [js "/about"; js "/about-us"; js "/products"] ->
             secondarySection w (origin u) path = []).
  { intros path Hin. unfold secondarySection.
    destruct (pageBody (getPage w (origin u ++ path))) as [[| c' h'] |] eqn:E;
      try reflexivity.
    cbv zeta. pose proof (Hshort path (c' :: h') Hin E) as Hle.
    apply Nat.ltb_ge in Hle. rewrite Hle. reflexivity. }
  rewrite (Hsec (js "/about") (or_introl eq_refl)).
  rewrite (Hsec (js "/about-us") (or_intror (or_introl eq_refl))).
  rewrite (Hsec (js "/products") (or_intror (or_intror (or_introl eq_refl)))).
  change (join [] (List.filter truthy [[]; []; []])) with (@nil code_unit).
  rewrite app_nil_r. eexists. reflexivity.
Qed.

(** The sample site, whose every page is the same short text. *)
Lemma fetchWebsiteContent_short_pages_dropped_witness :
  exists tr' : list Call,
    MultiPage.fetchWebsiteContent parseURL (js "https://acme.io") worldFresh []
    = (Ok {| MultiPage.content := js "Homepage:
Acme anvils

";
             MultiPage.title := [];
             MultiPage.description := [] |}, tr').
Proof.
  refine (fetchWebsiteContent_short_pages_dropped parseURL
            (js "https://acme.io")
            {| hostname := js "acme.io"; origin := js "https://acme.io" |}
            worldFresh [] 60%N (js "p>Acme anvils</p>") _ _ _).
  - reflexivity.
  - reflexivity.
  - intros path html _ H. vm_compute in H. injection H as <-.
    vm_compute. repeat constructor.
Defined.

(** ** Route handler, multi-page variant *)

(** The multi-page handler in cases, for a request with both fields. *)
Lemma MultiPage_POST_cases (newURL : jsstring -> option URL) (req : Request)
  (w : World) (tr : list Call) :
  truthy (userName req) = true ->
  truthy (businessUrl req) = true ->
  match newURL (businessUrl req) with
  | None =>
      MultiPage.POST newURL req w tr
      = (Ok {| status := 500; body := ErrorBody invalidUrlMessage |}, tr)
  | Some u =>
      match pageBody (getPage w (businessUrl req)) with
      | Some (_ :: _) =>
          exists businessName prompt : jsstring,
            MultiPage.POST newURL req w tr
            = orInternalError (reuseOrCreate req businessName prompt) w
                (tr ++ CallPage (businessUrl req) (Some 5000%Z)
                    :: secondaryCalls (origin u))
      | _ =>
          MultiPage.POST newURL req w tr
          = (Ok (couldNotAccess (businessUrl req)),
             tr ++ [CallPage (businessUrl req) (Some 5000%Z)])
      end
  end.
Proof.
  intros Huser Hurl. unfold MultiPage.POST. rewrite Huser, Hurl.
  cbn [negb orb]. unfold orInternalError, catch, bind.
  destruct (newURL (businessUrl req)) as [u |] eqn:Hparse.
  - rewrite (fetchWebsiteContent_run newURL (businessUrl req) w tr Hparse).
    destruct (pageBody (getPage w (businessUrl req))) as [[| c h] |];
      try reflexivity.
    eexists; eexists. reflexivity.
  - unfold MultiPage.fetchWebsiteContent. rewrite Hparse. reflexivity.
Qed.

(** X7.  The response contract, in both variants and for every request and
    world: the handler returns a response and never throws; a response
    that carries a context has status 200, and a response that carries an
    error has a status that is not 2xx. *)
Theorem POST_status_matches_body :
  forall (newURL : jsstring -> option URL) (req : Request) (w : World)
         (tr : list Call),
    (exists (r : Response) (tr' : list Call),
        Basic.POST newURL req w tr = (Ok r, tr')
        /\ statusMatchesBody r = true)
    /\ (exists (r : Response) (tr' : list Call),
           MultiPage.POST newURL req w tr = (Ok r, tr')
           /\ statusMatchesBody r = true).
Proof.
  intros newURL req w tr. split.
  - rewrite Basic_POST_run.
    destruct (negb (truthy (userName req)) || negb (truthy (businessUrl req))).
    { eexists; eexists. split; reflexivity. }
    destruct (pageBody (getPage w (businessUrl req))) as [html |].
    + cbv zeta. apply reuseOrCreate_contract.
    + eexists; eexists. split; reflexivity.
  - destruct (truthy (userName req)) eqn:Huser.
    2: { unfold MultiPage.POST. rewrite Huser.
         eexists; eexists. split; reflexivity. }
    destruct (truthy (businessUrl req)) eqn:Hurl.
    2: { unfold MultiPage.POST. rewrite Huser, Hurl.
         eexists; eexists. split; reflexivity. }
    pose proof (MultiPage_POST_cases newURL req w tr Huser Hurl) as H.
    destruct (newURL (businessUrl req)) as [u |].
    + destruct (pageBody (getPage w (businessUrl req))) as [[| c h] |].
      * rewrite H. eexists; eexists. split; reflexivity.
      * destruct H as (businessName & prompt & ->).
        apply reuseOrCreate_contract.
      * rewrite H. eexists; eexists. split; reflexivity.
    + rewrite H. eexists; eexists. split; reflexivity.
Qed.

(** X11.  In the multi-page variant the URL is parsed before anything is
    fetched: a request whose URL the parser rejects is answered 500 with
    the message of the exception, and no outbound call is made. *)
Theorem MultiPage_POST_invalid_url :
  forall (newURL : jsstring -> option URL) (req : Request) (w : World)
         (tr : list Call),
    userName req <> [] ->
    businessUrl req <> [] ->
    newURL (businessUrl req) = None ->
    MultiPage.POST newURL req w tr
    = (Ok {| status := 500; body := ErrorBody invalidUrlMessage |}, tr).
Proof.
  intros newURL req w tr Huser Hurl Hparse.
  assert (Hu : truthy (userName req) = true)
    by (destruct (userName req); [congruence | reflexivity]).
  assert (Hb : truthy (businessUrl req) = true)
    by (destruct (businessUrl req); [congruence | reflexivity]).
  pose proof (MultiPage_POST_cases newURL req w tr Hu Hb) as H.
  rewrite Hparse in H. exact H.
Qed.

(** A URL with a space in its host. *)
Lemma MultiPage_POST_invalid_url_witness :
  MultiPage.POST parseURL
    {| userName := js "Al"; businessUrl := js "https://not a url";
       avatarId := None; voiceId := None |} worldFresh []
  = (Ok {| status := 500; body := ErrorBody (js "Invalid URL") |}, []).
Proof.
  apply (MultiPage_POST_invalid_url parseURL _ worldFresh []).
  - discriminate.
  - discriminate.
  - vm_compute. reflexivity.
Defined.



(** ** [findExistingContext], further *)

Lemma find_split {A : Type} (p : A -> bool) (l : list A) (x : A) :
  List.find p l = Some x ->
  exists before after,
    l = before ++ x :: after
    /\ p x = true
    /\ forallb (fun y => negb (p y)) before = true.
Proof.
  induction l as [| y l IH]; simpl; [discriminate |].
  destruct (p y) eqn:Hy.
  - intros H. injection H as <-. exists [], l. repeat split. exact Hy.
  - intros H. destruct (IH H) as (before & after & -> & Hx & Hb).
    exists (y :: before), after. repeat split; [exact Hx |].
    simpl. rewrite Hy, Hb. reflexivity.
Qed.

Lemma find_none_forallb {A : Type} (p : A -> bool) (l : list A) :
  List.find p l = None -> forallb (fun y => negb (p y)) l = true.
Proof.
  induction l as [| y l IH]; simpl; [reflexivity |].
  destruct (p y); [discriminate |]. exact IH.
Qed.

(** X13.  The lookup never throws and makes exactly one call.  When it
    returns an identifier, the list answer was ok and the identifier is
    that of a listed context whose name starts with the business name
    followed by [ Sales Rep], no context listed before it having such a
    name.  When it returns nothing, the call failed, or the answer was not
    ok, or no listed context has such a name. *)
Theorem findExistingContext_first_listed_match :
  forall (businessName : jsstring) (w : World) (tr : list Call),
    exists result : option jsstring,
      findExistingContext businessName w tr
      = (Ok result, tr ++ [CallListContexts])
      /\ match result with
         | Some found =>
             exists (st : Z) (before after : list Context) (ctx : Context),
               listContexts w = ListStatus st (before ++ ctx :: after)
               /\ isOk st = true
               /\ ctx_id ctx = found
               /\ startsWith (ctx_name ctx) (businessName ++ js " Sales Rep")
                  = true
               /\ forallb (fun c => negb (startsWith (ctx_name c)
                                            (businessName ++ js " Sales Rep")))
                          before = true
         | None =>
             match listContexts w with
             | ListError => True
             | ListStatus st contexts =>
                 isOk st = false
                 \/ forallb (fun c => negb (startsWith (ctx_name c)
                                              (businessName ++ js " Sales Rep")))
                            contexts = true
             end
         end.
Proof.
  intros businessName w tr. rewrite findExistingContext_run.
  eexists. split; [reflexivity |].
  unfold firstMatch.
  destruct (listContexts w) as [| st contexts]; [exact I |].
  destruct (isOk st) eqn:Hok; [| left; reflexivity].
  destruct (List.find _ contexts) as [ctx |] eqn:Hfind; cbn [option_map].
  - destruct (find_split _ _ _ Hfind) as (before & after & -> & Hx & Hb).
    exists st, before, after, ctx. repeat split; assumption.
  - right. exact (find_none_forallb _ _ Hfind).
Qed.

(** ** Prompt Composer, further *)

Ltac literal_lengths :=
  repeat match goal with
         | |- context [List.length (js ?s)] =>
             let n := eval vm_compute in (List.length (js s)) in
             change (List.length (js s)) with n
         end.

(** X14.  The size of the prompt.  Basic variant: 887 units of fixed text,
    the user name once, the business name three times, and at most 2000
    units of content.  Multi-page variant: 1281 units of fixed text, the
    user name once, the business name seven times, the title and the
    description each behind its label when it is not empty, and at most
    6000 units of content. *)
Theorem generateSalesPrompt_length :
  forall userName businessName websiteContent title description : jsstring,
    Z.of_nat (List.length
                (Basic.generateSalesPrompt userName businessName
                   websiteContent))
    = (887 + Z.of_nat (List.length userName)
       + 3 * Z.of_nat (List.length businessName)
       + Z.min (Z.of_nat (List.length websiteContent)) 2000)%Z
    /\ Z.of_nat (List.length
                   (MultiPage.generateSalesPrompt userName businessName
                      websiteContent title description))
       = (1281 + Z.of_nat (List.length userName)
          + 7 * Z.of_nat (List.length businessName)
          + (if truthy title then 9 + Z.of_nat (List.length title) else 0)
          + (if truthy description
             then 15 + Z.of_nat (List.length description) else 0)
          + Z.min (Z.of_nat (List.length websiteContent)) 6000)%Z.
Proof.
  intros userName businessName websiteContent title description. split.
  - unfold Basic.generateSalesPrompt. cbv zeta.
    rewrite slice_prefix by lia.
    rewrite !length_app, length_firstn. literal_lengths. lia.
  - unfold MultiPage.generateSalesPrompt. cbv zeta.
    rewrite slice_prefix by lia.
    rewrite !length_app, length_firstn.
    destruct (truthy title); destruct (truthy description);
      rewrite ?length_app; literal_lengths; cbn [List.length]; lia.
Qed.

(** ** Session Orchestrator, further *)

Ltac run_stop :=
  cbv beta iota zeta delta
    [Demo.runUi DemoStop.onSessionStopped DemoStop.Plain.onSessionStopped
     bind modify Demo.setSessionToken Demo.setSetupStep Demo.record fst snd
     Demo.log Demo.sessionToken Demo.error Demo.setupStep
     Demo.generationStatus Demo.currentContextId Demo.currentBusinessName].

(** A run of [startSession] that ends on the session screen had two ok
    responses, and the variant with the embed screen stored the context
    identifier of the first. *)
Lemma startSession_session_state (tracksContext : bool) (f : Demo.Form)
  (w : Demo.Backend) (s : Demo.UiState) :
  Demo.setupStep (Demo.runUi (Demo.startSessionWith tracksContext f) w s)
  = Demo.session ->
  exists data1 : Demo.ReplyBody,
    Demo.generateContext w (generateContextBodyOf f) = Demo.Replied true data1
    /\ Demo.currentContextId
         (Demo.runUi (Demo.startSessionWith tracksContext f) w s)
       = (if tracksContext then Demo.r_contextId data1
          else Demo.currentContextId s).
Proof.
  destruct s as [tok err step status cid cname lg].
  destruct (Demo.generateContext w (generateContextBodyOf f))
    as [m1 | [|] d1] eqn:E1;
    unfold generateContextBodyOf in E1.
  - destruct tracksContext; run_ui; rewrite E1; run_ui; discriminate.
  - destruct (Demo.startSessionApi w (startSessionBodyOf f d1))
      as [m2 | [|] d2] eqn:E2;
      unfold startSessionBodyOf in E2;
      destruct tracksContext; run_ui; rewrite E1; run_ui; rewrite E2; run_ui;
      try discriminate;
      intros _; exists d1; split; reflexivity.
  - destruct tracksContext; run_ui; rewrite E1; run_ui; discriminate.
Qed.

(** X15.  The end of a session that [startSession] opened.
    [onSessionStopped] clears the token.  In [LiveAvatarDemo.tsx] it then
    shows the embed screen exactly when the generate-context response
    carried a context identifier that is not empty, and the form
    otherwise; in the variant without that screen it shows the form. *)
Theorem onSessionStopped_after_startSession :
  forall (f : Demo.Form) (w : Demo.Backend) (s : Demo.UiState),
    Demo.setupStep (Demo.runUi (Demo.startSession f) w s) = Demo.session ->
    exists data1 : Demo.ReplyBody,
      Demo.generateContext w (generateContextBodyOf f)
      = Demo.Replied true data1
      /\ Demo.sessionToken
           (Demo.runUi DemoStop.onSessionStopped w
              (Demo.runUi (Demo.startSession f) w s)) = Some []
      /\ Demo.setupStep
           (Demo.runUi DemoStop.onSessionStopped w
              (Demo.runUi (Demo.startSession f) w s))
         = match Demo.r_contextId data1 with
           | Some (_ :: _) => Demo.ended
           | _ => Demo.form
           end
      /\ Demo.setupStep
           (Demo.runUi DemoStop.Plain.onSessionStopped w
              (Demo.runUi (Demo.Plain.startSession f) w s)) = Demo.form.
Proof.
  intros f w s Hsession.
  destruct (startSession_session_state true f w s Hsession)
    as (data1 & Hreply & Hcid).
  exists data1. split; [exact Hreply |].
  unfold Demo.startSession in *.
  destruct (Demo.runUi (Demo.startSessionWith true f) w s)
    as [tok err step status cid cname lg].
  cbn [Demo.currentContextId] in Hcid. subst cid.
  split; [| split].
  - run_stop. destruct (Demo.r_contextId data1) as [[| c t] |]; reflexivity.
  - run_stop. destruct (Demo.r_contextId data1) as [[| c t] |]; reflexivity.
  - destruct (Demo.runUi (Demo.Plain.startSession f) w s). reflexivity.
Qed.

(** Both endpoints accept and the context has an identifier: the stop
    leads to the embed screen. *)
Lemma onSessionStopped_after_startSession_witness :
  Demo.setupStep
    (Demo.runUi DemoStop.onSessionStopped backendOk
       (Demo.runUi (Demo.startSession acmeForm) backendOk Demo.initialState))
  = Demo.ended.
Proof.
  destruct (onSessionStopped_after_startSession acmeForm backendOk
              Demo.initialState eq_refl) as (data1 & Hreply & _ & Hstep & _).
  rewrite Hstep. injection Hreply as <-. reflexivity.
Defined.

(** ** Reader variant *)

Lemma fetchWithJina_run (url : jsstring) (timeout : Z) (w : World)
  (tr : list Call) :
  Reader.fetchWithJina url timeout w tr
  = (Ok (readerBody w url), tr ++ [CallPage (readerUrl url) (Some timeout)]).
Proof.
  unfold Reader.fetchWithJina, readerBody, readerUrl, pageBody, fetchUrl,
    issue, bind, ask, modify, ret.
  destruct (getPage w _) as [| st text].
  - reflexivity.
  - destruct (isOk st); reflexivity.
Qed.

Lemma fetchPageDirect_run (url : jsstring) (timeout : Z) (w : World)
  (tr : list Call) :
  Reader.fetchPageDirect url timeout w tr
  = (Ok (directBody w url), tr ++ [CallPage url (Some timeout)]).
Proof.
  unfold Reader.fetchPageDirect, directBody, pageBody, fetchUrl,
    issue, bind, ask, modify, ret.
  destruct (getPage w url) as [| st text].
  - reflexivity.
  - destruct (isOk st); reflexivity.
Qed.

(** The loop over the additional paths in closed form. *)
Lemma addOnePage_run (origin mainContent : jsstring) (paths : list jsstring)
  (w : World) (tr : list Call) :
  Reader.addOnePage origin mainContent paths w tr
  = (Ok (mainContent
         ++ match find (longPage w origin) paths with
            | Some path => readerSection w origin path
            | None => []
            end),
     tr ++ List.map (fun path => readerCall (origin ++ path))
             (pathsTried w origin paths)).
Proof.
  revert tr. induction paths as [| path more IH]; intros tr.
  - cbn. rewrite !app_nil_r. reflexivity.
  - cbn [Reader.addOnePage find pathsTried]. cbv zeta.
    unfold bind at 1. rewrite fetchWithJina_run.
    assert (Hl : longPage w origin path
                 = match readerBody w (origin ++ path) with
                   | Some a => Nat.ltb 500 (List.length a)
                   | None => false
                   end) by reflexivity.
    assert (Hs : readerSection w origin path
                 = match readerBody w (origin ++ path) with
                   | Some a => js "

--- " ++ path ++ js " page ---
" ++ a
                   | None => []
                   end) by reflexivity.
    destruct (readerBody w (origin ++ path)) as [a |]; rewrite Hl.
    + assert (Ht : truthy a && Nat.ltb 500 (List.length a)
                   = Nat.ltb 500 (List.length a)).
      { destruct a; reflexivity. }
      rewrite Ht. destruct (Nat.ltb 500 (List.length a)).
      * rewrite Hs. reflexivity.
      * rewrite IH. cbn [List.map]. rewrite <- app_assoc. reflexivity.
    + rewrite IH. cbn [List.map]. rewrite <- app_assoc. reflexivity.
Qed.

(** The fallback step of the crawl, after the reader was asked. *)
Lemma mainContent_run (baseUrl : jsstring) (w : World) (tr : list Call) :
  match readerBody w baseUrl with
  | Some m =>
      if negb (truthy m) || Nat.ltb (List.length m) 200
      then Reader.fetchPageDirect baseUrl 5000
      else ret (Some m)
  | None => Reader.fetchPageDirect baseUrl 5000
  end w (tr ++ [CallPage (readerUrl baseUrl) (Some 10000%Z)])
  = (Ok (mainContentOf w baseUrl), tr ++ mainCalls w baseUrl).
Proof.
  unfold mainContentOf, mainCalls, readerSuffices, readerCall.
  destruct (readerBody w baseUrl) as [m |].
  - assert (Ht : negb (truthy m) || Nat.ltb (List.length m) 200
                 = negb (Nat.leb 200 (List.length m))).
    { destruct m as [| c m]; [reflexivity |].
      cbn [truthy negb orb].
      rewrite Nat.leb_antisym, Bool.negb_involutive. reflexivity. }
    rewrite Ht. destruct (Nat.leb 200 (List.length m)); cbn [negb].
    + reflexivity.
    + rewrite fetchPageDirect_run, <- app_assoc. reflexivity.
  - rewrite fetchPageDirect_run, <- app_assoc. reflexivity.
Qed.

(** The crawl of the reader variant in closed form. *)
Lemma Reader_fetchWebsiteContent_run (newURL : jsstring -> option URL)
  (baseUrl : jsstring) (w : World) (tr : list Call) :
  Reader.fetchWebsiteContent newURL baseUrl w tr
  = match mainContentOf w baseUrl with
    | Some (c :: m) =>
        match newURL baseUrl with
        | Some u =>
            (Ok {| MultiPage.content :=
                     readerContent w (origin u) (c :: m);
                   MultiPage.title := Reader.extractTitleFromJina (c :: m);
                   MultiPage.description := [] |},
             tr ++ mainCalls w baseUrl
                ++ List.map (fun path => readerCall (origin u ++ path))
                     (pathsTried w (origin u) Reader.additionalPaths))
        | None => (Throw invalidUrlMessage, tr ++ mainCalls w baseUrl)
        end
    | _ =>
        (Ok {| MultiPage.content := []; MultiPage.title := [];
               MultiPage.description := [] |},
         tr ++ mainCalls w baseUrl)
    end.
Proof.
  unfold Reader.fetchWebsiteContent.
  unfold bind at 1. rewrite fetchWithJina_run.
  unfold bind at 1. rewrite mainContent_run.
  destruct (mainContentOf w baseUrl) as [[| c m] |]; try reflexivity.
  cbv zeta. destruct (newURL baseUrl) as [u |]; [| reflexivity].
  unfold bind. rewrite addOnePage_run. unfold ret.
  rewrite <- app_assoc. reflexivity.
Qed.

(** The handler of the reader variant in closed form, for a request with
    both fields. *)
Lemma Reader_POST_run (newURL : jsstring -> option URL) (req : Request)
  (w : World) (tr : list Call) :
  truthy (userName req) = true ->
  truthy (businessUrl req) = true ->
  Reader.POST newURL req w tr
  = match mainContentOf w (businessUrl req) with
    | Some (c :: m) =>
        match newURL (businessUrl req) with
        | Some u =>
            let args := readerCreateArgs newURL req w (origin u) (c :: m) in
            (Ok (readerCreateResponse
                   (extractBusinessName newURL (businessUrl req)
                      (readerContent w (origin u) (c :: m)))
                   (createContext w args)),
             tr ++ mainCalls w (businessUrl req)
                ++ List.map (fun path => readerCall (origin u ++ path))
                     (pathsTried w (origin u) Reader.additionalPaths)
                ++ [CallCreateContext args])
        | None =>
            (Ok {| Reader.status := 500;
                   Reader.body := Reader.ErrorBody invalidUrlMessage |},
             tr ++ mainCalls w (businessUrl req))
        end
    | _ =>
        (Ok (readerCouldNotAccess (businessUrl req)),
         tr ++ mainCalls w (businessUrl req))
    end.
Proof.
  intros Hu Hb. unfold Reader.POST. rewrite Hu, Hb. cbn [negb orb].
  cbv zeta. unfold catch, bind at 1.
  rewrite Reader_fetchWebsiteContent_run.
  destruct (mainContentOf w (businessUrl req)) as [[| c m] |];
    try reflexivity.
  destruct (newURL (businessUrl req)) as [u |] eqn:Hparse; [| reflexivity].
  cbn [MultiPage.content MultiPage.title MultiPage.description].
  assert (Hc : truthy (readerContent w (origin u) (c :: m)) = true)
    by reflexivity.
  rewrite Hc. cbn [negb].
  unfold bind, ask, issue, modify, ret, throw, readerCreateResponse,
    readerCreateArgs, createArgsOf.
  cbv zeta.
  destruct (createContext w _) as [msg | st data].
  - rewrite <- !app_assoc. reflexivity.
  - destruct (isOk st); cbn [negb]; rewrite <- !app_assoc; reflexivity.
Qed.

Lemma cu_eqb_refl (c : code_unit) : cu_eqb c c = true.
Proof. apply N.eqb_refl. Qed.

Lemma jsstring_eqb_refl (s : jsstring) : jsstring_eqb s s = true.
Proof.
  induction s as [| c t IH]; [reflexivity |].
  cbn [jsstring_eqb]. rewrite cu_eqb_refl, IH. reflexivity.
Qed.

Lemma readerCall_allowed (businessUrl url : jsstring) :
  readerPageCall businessUrl (readerCall url) = true.
Proof.
  unfold readerPageCall, readerCall, readerUrl.
  rewrite startsWith_app. reflexivity.
Qed.

Lemma mainCalls_allowed (w : World) (url : jsstring) :
  forallb (readerPageCall url) (mainCalls w url) = true
  /\ List.length (mainCalls w url) <= 2.
Proof.
  unfold mainCalls. destruct (readerSuffices (readerBody w url));
    cbn [forallb List.length]; rewrite readerCall_allowed.
  - split; [reflexivity | lia].
  - cbn [readerPageCall]. rewrite jsstring_eqb_refl.
    cbn. rewrite Bool.orb_true_r. split; [reflexivity | lia].
Qed.

Lemma pathsTried_length (w : World) (origin : jsstring)
  (paths : list jsstring) :
  List.length (pathsTried w origin paths) <= List.length paths.
Proof.
  induction paths as [| path more IH]; [cbn; lia |].
  cbn [pathsTried]. destruct (longPage w origin path); cbn [List.length]; lia.
Qed.

Lemma secondaryCalls_allowed (w : World) (businessUrl origin : jsstring)
  (paths : list jsstring) :
  forallb (readerPageCall businessUrl)
    (List.map (fun path => readerCall (origin ++ path)) paths) = true.
Proof.
  induction paths as [| path more IH]; [reflexivity |].
  cbn [List.map forallb]. rewrite readerCall_allowed, IH. reflexivity.
Qed.

Lemma readerCreateResponse_contract (businessName : jsstring)
  (o : CreateOutcome) :
  readerStatusMatchesBody (readerCreateResponse businessName o) = true.
Proof.
  destruct o as [msg | st data]; [reflexivity |].
  unfold readerCreateResponse.
  destruct (isOk st) eqn:Hok; [reflexivity |].
  unfold readerStatusMatchesBody. cbn [Reader.body Reader.status].
  rewrite Hok. reflexivity.
Qed.

(** X16.  The reader variant never throws, and its calls follow one
    pattern whatever the request and the world: first page calls, at most
    six of them, each either to the reader service with a timeout of 10000
    or to the submitted URL itself with a timeout of 5000; then at most one
    create call.  The list of contexts is never asked for.  The status is
    200 exactly on a success body, and a success is always preceded by the
    create call. *)
Theorem Reader_POST_call_discipline :
  forall (newURL : jsstring -> option URL) (req : Request) (w : World),
    exists (r : Reader.Response) (pages creates : list Call),
      Reader.POST newURL req w [] = (Ok r, pages ++ creates)
      /\ forallb (readerPageCall (businessUrl req)) pages = true
      /\ List.length pages <= 6
      /\ forallb isCreateCall creates = true
      /\ List.length creates <= 1
      /\ readerStatusMatchesBody r = true
      /\ Nat.leb (if (Reader.status r =? 200)%Z then 1 else 0)
           (List.length creates) = true.
Proof.
  intros newURL req w.
  destruct (truthy (userName req)) eqn:Hu;
    [destruct (truthy (businessUrl req)) eqn:Hb |].
  - rewrite (Reader_POST_run newURL req w [] Hu Hb). cbn [app].
    destruct (mainCalls_allowed w (businessUrl req)) as [Hall Hlen].
    destruct (mainContentOf w (businessUrl req)) as [[| c m] |].
    + eexists; exists (mainCalls w (businessUrl req)), [].
      rewrite app_nil_r. repeat split; trivial; try reflexivity; try lia;
        cbn [List.length]; lia.
    + destruct (newURL (businessUrl req)) as [u |].
      * cbv zeta. eexists.
        exists (mainCalls w (businessUrl req)
                ++ List.map (fun path => readerCall (origin u ++ path))
                     (pathsTried w (origin u) Reader.additionalPaths)).
        eexists. split; [rewrite <- app_assoc; reflexivity |].
        split; [| split; [| split; [| split; [| split]]]].
        -- rewrite forallb_app, Hall, secondaryCalls_allowed; trivial.
        -- rewrite length_app, length_map.
           pose proof (pathsTried_length w (origin u) Reader.additionalPaths)
             as Hp.
           change (List.length Reader.additionalPaths) with 4 in Hp.
           exact (Nat.add_le_mono _ 2 _ 4 Hlen Hp).
        -- reflexivity.
        -- cbn; lia.
        -- apply readerCreateResponse_contract.
        -- cbn [List.length].
           destruct (_ =? 200)%Z; reflexivity.
      * eexists; exists (mainCalls w (businessUrl req)), [].
        rewrite app_nil_r. repeat split; trivial; try reflexivity; try lia;
        cbn [List.length]; lia.
    + eexists; exists (mainCalls w (businessUrl req)), [].
      rewrite app_nil_r. repeat split; trivial; try reflexivity; try lia;
        cbn [List.length]; lia.
  - unfold Reader.POST. rewrite Hu, Hb. cbn [negb orb].
    eexists; exists [], []. repeat split; try reflexivity; cbn; lia.
  - unfold Reader.POST. rewrite Hu. cbn [negb orb].
    eexists; exists [], []. repeat split; try reflexivity; cbn; lia.
Qed.

(** X17.  A reader answer shorter than 200 units is never used: when the
    direct fetch then fails, the request is refused with a 400 although the
    reader had returned text.  The two fetches are the only calls, and this
    holds whether or not the URL parses. *)
Theorem Reader_POST_short_answer_discarded :
  forall (newURL : jsstring -> option URL) (req : Request) (w : World)
         (tr : list Call),
    userName req <> [] ->
    businessUrl req <> [] ->
    readerSuffices (readerBody w (businessUrl req)) = false ->
    pageBody (getPage w (businessUrl req)) = None ->
    Reader.POST newURL req w tr
    = (Ok (readerCouldNotAccess (businessUrl req)),
       tr ++ [readerCall (businessUrl req);
              CallPage (businessUrl req) (Some 5000%Z)]).
Proof.
  intros newURL req w tr Huser Hurl Hshort Hdirect.
  assert (Hu : truthy (userName req) = true)
    by (destruct (userName req); [congruence | reflexivity]).
  assert (Hb : truthy (businessUrl req) = true)
    by (destruct (businessUrl req); [congruence | reflexivity]).
  rewrite (Reader_POST_run newURL req w tr Hu Hb).
  unfold mainContentOf, mainCalls, directBody.
  rewrite Hshort, Hdirect. reflexivity.
Qed.

(** X19.  In the reader variant the URL is parsed only after the main
    content was fetched.  A request whose URL the parser rejects still
    causes the reader call, and the direct fetch when the reader's answer
    does not suffice; it is answered 500 with the message of the exception
    when content came back and 400 otherwise, and no context is created. *)
Theorem Reader_POST_invalid_url :
  forall (newURL : jsstring -> option URL) (req : Request) (w : World)
         (tr : list Call),
    userName req <> [] ->
    businessUrl req <> [] ->
    newURL (businessUrl req) = None ->
    Reader.POST newURL req w tr
    = (Ok (match mainContentOf w (businessUrl req) with
           | Some (_ :: _) =>
               {| Reader.status := 500;
                  Reader.body := Reader.ErrorBody invalidUrlMessage |}
           | _ => readerCouldNotAccess (businessUrl req)
           end),
       tr ++ readerCall (businessUrl req)
          :: (if readerSuffices (readerBody w (businessUrl req)) then []
              else [CallPage (businessUrl req) (Some 5000%Z)])).
Proof.
  intros newURL req w tr Huser Hurl Hparse.
  assert (Hu : truthy (userName req) = true)
    by (destruct (userName req); [congruence | reflexivity]).
  assert (Hb : truthy (businessUrl req) = true)
    by (destruct (businessUrl req); [congruence | reflexivity]).
  rewrite (Reader_POST_run newURL req w tr Hu Hb). rewrite Hparse.
  assert (Hc : mainCalls w (businessUrl req)
               = readerCall (businessUrl req)
                   :: (if readerSuffices (readerBody w (businessUrl req))
                       then []
                       else [CallPage (businessUrl req) (Some 5000%Z)])).
  { unfold mainCalls. destruct (readerSuffices _); reflexivity. }
  rewrite Hc.
  destruct (mainContentOf w (businessUrl req)) as [[| c m] |]; reflexivity.
Qed.

(** A reader answer of 18 units and a site that cannot be reached. *)
Lemma Reader_POST_short_answer_discarded_witness :
  Reader.POST parseURL acmeRequest worldReaderShort []
  = (Ok (readerCouldNotAccess (js "https://acme.io")),
     [readerCall (js "https://acme.io");
      CallPage (js "https://acme.io") (Some 5000%Z)]).
Proof.
  apply (Reader_POST_short_answer_discarded parseURL acmeRequest
           worldReaderShort []).
  - discriminate.
  - discriminate.
  - reflexivity.
  - reflexivity.
Defined.

(** A URL with a space in its host, and a reader that answers for it. *)
Lemma Reader_POST_invalid_url_witness :
  Reader.POST parseURL
    {| userName := js "Al"; businessUrl := js "https://not a url";
       avatarId := None; voiceId := None |} worldReaderAnywhere []
  = (Ok {| Reader.status := 500;
           Reader.body := Reader.ErrorBody (js "Invalid URL") |},
     [readerCall (js "https://not a url")]).
Proof.
  apply (Reader_POST_invalid_url parseURL
           {| userName := js "Al"; businessUrl := js "https://not a url";
              avatarId := None; voiceId := None |} worldReaderAnywhere []).
  - discriminate.
  - discriminate.
  - vm_compute. reflexivity.
Defined.

Lemma find_first_hit {A : Type} (f : A -> bool) (before : list A) (x : A)
  (after : list A) :
  existsb f before = false ->
  f x = true ->
  find f (before ++ x :: after) = Some x.
Proof.
  intros Hb Hx. induction before as [| y l IH]; simpl.
  - rewrite Hx. reflexivity.
  - simpl in Hb. apply orb_false_elim in Hb. destruct Hb as [Hy Hl].
    rewrite Hy. exact (IH Hl).
Qed.

Lemma pathsTried_first_hit (w : World) (origin : jsstring)
  (before : list jsstring) (path : jsstring) (after : list jsstring) :
  existsb (longPage w origin) before = false ->
  longPage w origin path = true ->
  pathsTried w origin (before ++ path :: after) = before ++ [path].
Proof.
  intros Hb Hx. induction before as [| y l IH]; simpl.
  - rewrite Hx. reflexivity.
  - simpl in Hb. apply orb_false_elim in Hb. destruct Hb as [Hy Hl].
    rewrite Hy, (IH Hl). reflexivity.
Qed.

Lemma pathsTried_no_hit (w : World) (origin : jsstring)
  (paths : list jsstring) :
  existsb (longPage w origin) paths = false ->
  pathsTried w origin paths = paths
  /\ find (longPage w origin) paths = None.
Proof.
  induction paths as [| y l IH]; intros Hb; [split; reflexivity |].
  simpl in Hb. apply orb_false_elim in Hb. destruct Hb as [Hy Hl].
  simpl. rewrite Hy. destruct (IH Hl) as [-> ->].
  split; reflexivity.
Qed.

(** X18.  One additional page at most.  With main content and a URL that
    parses, the crawl asks the reader for the additional paths in their
    order and stops at the first answer of more than 500 units: that
    answer is appended behind a label with the path, and the paths after
    it are not asked for.  The title is taken from the main content
    alone, and the description is always empty. *)
Theorem Reader_crawl_stops_at_first_long_page :
  forall (newURL : jsstring -> option URL) (baseUrl : jsstring) (u : URL)
         (w : World) (tr : list Call) (mainContent : jsstring)
         (before : list jsstring) (path : jsstring) (after : list jsstring)
         (a : jsstring),
    newURL baseUrl = Some u ->
    mainContentOf w baseUrl = Some mainContent ->
    mainContent <> [] ->
    Reader.additionalPaths = before ++ path :: after ->
    existsb (longPage w (origin u)) before = false ->
    readerBody w (origin u ++ path) = Some a ->
    Nat.ltb 500 (List.length a) = true ->
    Reader.fetchWebsiteContent newURL baseUrl w tr
    = (Ok {| MultiPage.content :=
               mainContent ++ js "

--- " ++ path ++ js " page ---
" ++ a;
             MultiPage.title := Reader.extractTitleFromJina mainContent;
             MultiPage.description := [] |},
       tr ++ mainCalls w baseUrl
          ++ List.map (fun p => readerCall (origin u ++ p))
               (before ++ [path])).
Proof.
  intros newURL baseUrl u w tr mainContent before path after a
    Hparse Hmain Hne Hpaths Hbefore Ha Hlong.
  rewrite Reader_fetchWebsiteContent_run, Hmain, Hparse.
  destruct mainContent as [| c m]; [congruence |].
  assert (Hx : longPage w (origin u) path = true)
    by (unfold longPage; rewrite Ha; exact Hlong).
  unfold readerContent. rewrite Hpaths.
  rewrite (find_first_hit _ _ _ after Hbefore Hx).
  rewrite (pathsTried_first_hit _ _ _ _ after Hbefore Hx).
  unfold readerSection. rewrite Ha. reflexivity.
Qed.

(** The sample site: [/iphone] and [/products] are missing, [/about] is
    long, and [/features] is never asked for. *)
Lemma Reader_crawl_stops_at_first_long_page_witness :
  Reader.fetchWebsiteContent parseURL (js "https://acme.io")
    worldReaderAbout []
  = (Ok {| MultiPage.content :=
             acmeReaderText ++ js "

--- /about page ---
" ++ List.repeat 67%N 501;
           MultiPage.title := js "Acme";
           MultiPage.description := [] |},
     [readerCall (js "https://acme.io");
      readerCall (js "https://acme.io/iphone");
      readerCall (js "https://acme.io/products");
      readerCall (js "https://acme.io/about")]).
Proof.
  exact (Reader_crawl_stops_at_first_long_page parseURL
           (js "https://acme.io")
           {| hostname := js "acme.io"; origin := js "https://acme.io" |}
           worldReaderAbout [] acmeReaderText
           [js "/iphone"; js "/products"] (js "/about") [js "/features"]
           (List.repeat 67%N 501)
           eq_refl eq_refl ltac:(discriminate) eq_refl eq_refl eq_refl
           eq_refl).
Defined.

(** X23.  When no additional path has an answer of more than 500 units,
    all four are asked for and the content is the main content alone. *)
Theorem Reader_crawl_without_long_page :
  forall (newURL : jsstring -> option URL) (baseUrl : jsstring) (u : URL)
         (w : World) (tr : list Call) (mainContent : jsstring),
    newURL baseUrl = Some u ->
    mainContentOf w baseUrl = Some mainContent ->
    mainContent <> [] ->
    existsb (longPage w (origin u)) Reader.additionalPaths = false ->
    Reader.fetchWebsiteContent newURL baseUrl w tr
    = (Ok {| MultiPage.content := mainContent;
             MultiPage.title := Reader.extractTitleFromJina mainContent;
             MultiPage.description := [] |},
       tr ++ mainCalls w baseUrl
          ++ [readerCall (origin u ++ js "/iphone");
              readerCall (origin u ++ js "/products");
              readerCall (origin u ++ js "/about");
              readerCall (origin u ++ js "/features")]).
Proof.
  intros newURL baseUrl u w tr mainContent Hparse Hmain Hne Hnone.
  rewrite Reader_fetchWebsiteContent_run, Hmain, Hparse.
  destruct mainContent as [| c m]; [congruence |].
  unfold readerContent.
  destruct (pathsTried_no_hit _ _ _ Hnone) as [-> ->].
  rewrite app_nil_r. reflexivity.
Qed.

(** A reader that returns 300 units for every address. *)
Lemma Reader_crawl_without_long_page_witness :
  Reader.fetchWebsiteContent parseURL (js "https://acme.io")
    worldReaderAnywhere []
  = (Ok {| MultiPage.content := List.repeat 66%N 300;
           MultiPage.title := [];
           MultiPage.description := [] |},
     [readerCall (js "https://acme.io");
      readerCall (js "https://acme.io/iphone");
      readerCall (js "https://acme.io/products");
      readerCall (js "https://acme.io/about");
      readerCall (js "https://acme.io/features")]).
Proof.
  exact (Reader_crawl_without_long_page parseURL (js "https://acme.io")
           {| hostname := js "acme.io"; origin := js "https://acme.io" |}
           worldReaderAnywhere [] (List.repeat 66%N 300)
           eq_refl eq_refl ltac:(discriminate) eq_refl).
Defined.

(** X20.  The size of the prompt of the reader variant: 1645 units of
    fixed text, the user name once, the business name eight times, the
    title and the description each behind its label when it is not empty,
    and at most 10000 units of content. *)
Theorem Reader_generateSalesPrompt_length :
  forall userName businessName websiteContent title description : jsstring,
    Z.of_nat (List.length
                (Reader.generateSalesPrompt userName businessName
                   websiteContent title description))
    = (1645 + Z.of_nat (List.length userName)
       + 8 * Z.of_nat (List.length businessName)
       + (if truthy title then 9 + Z.of_nat (List.length title) else 0)
       + (if truthy description
          then 15 + Z.of_nat (List.length description) else 0)
       + Z.min (Z.of_nat (List.length websiteContent)) 10000)%Z.
Proof.
  intros userName businessName websiteContent title description.
  unfold Reader.generateSalesPrompt. cbv zeta.
  rewrite slice_prefix by lia.
  rewrite !length_app, length_firstn.
  destruct (truthy title); destruct (truthy description);
    rewrite ?length_app; literal_lengths; cbn [List.length]; lia.
Qed.

(** X21.  The text of the direct fetch of the reader variant is in
    whitespace normal form whatever the page: only plain spaces, no two
    adjacent, none at either end. *)
Theorem Reader_extractTextFromHtml_whitespace_normal :
  forall html : jsstring,
    singleSpaced false (Reader.extractTextFromHtml html) = true
    /\ trim (Reader.extractTextFromHtml html) = Reader.extractTextFromHtml html.
Proof.
  intros html. unfold Reader.extractTextFromHtml. cbv zeta.
  apply decodeAndClean_normal.
Qed.

Lemma forallb_trim (q : code_unit -> bool) (s : jsstring) :
  forallb q s = true -> forallb q (trim s) = true.
Proof.
  intros H. unfold trim.
  destruct (trimStart_suffix s) as [a Ha].
  destruct (trimEnd_prefix (trimStart s)) as [z Hz].
  rewrite Ha, Hz, !forallb_app in H.
  apply andb_prop in H. destruct H as [_ H].
  apply andb_prop in H. destruct H as [H _]. exact H.
Qed.

Lemma forallb_slice (q : code_unit -> bool) (s : jsstring) (start : Z)
  (fin : option Z) :
  forallb q s = true -> forallb q (slice s start fin) = true.
Proof.
  intros H. unfold slice. cbv zeta.
  set (k := Z.to_nat _). set (n := Z.to_nat _).
  rewrite <- (firstn_skipn n s), forallb_app in H.
  apply andb_prop in H. destruct H as [_ H].
  rewrite <- (firstn_skipn k (skipn n s)), forallb_app in H.
  apply andb_prop in H. destruct H as [H _]. exact H.
Qed.

Lemma firstHeading_trimmed (q : code_unit -> bool) (lines : list jsstring) :
  (forall line, In line lines -> forallb q line = true) ->
  trim (Reader.firstHeading lines) = Reader.firstHeading lines
  /\ forallb q (Reader.firstHeading lines) = true.
Proof.
  induction lines as [| line more IH]; intros Hq; [split; reflexivity |].
  cbn [Reader.firstHeading]. cbv zeta.
  assert (Hl : forallb q (trim line) = true)
    by (apply forallb_trim, Hq; left; reflexivity).
  destruct (startsWith (trim line) (js "# ")).
  - split; [apply trim_idem | apply forallb_trim, forallb_slice, Hl].
  - destruct (startsWith (trim line) (js "Title:")).
    + split; [apply trim_idem | apply forallb_trim, forallb_slice, Hl].
    + apply IH. intros l Hin. apply Hq. right. exact Hin.
Qed.

(** X22.  The title that [extractTitleFromJina] finds is trimmed and
    holds no line feed, whatever the reader returned. *)
Theorem extractTitleFromJina_trimmed_single_line :
  forall content : jsstring,
    trim (Reader.extractTitleFromJina content)
    = Reader.extractTitleFromJina content
    /\ forallb (fun c => negb (cu_eqb 10%N c))
         (Reader.extractTitleFromJina content) = true.
Proof.
  intros content. unfold Reader.extractTitleFromJina.
  apply firstHeading_trimmed. intros line Hin.
  exact (splitClass_words _ _ _ Hin).
Qed.

(** ** Route handler, multi-page variant, further *)


(** ** The component and the route handler together *)

Lemma normalizeUrl_not_empty (url : jsstring) : Demo.normalizeUrl url <> [].
Proof.
  unfold Demo.normalizeUrl. cbv zeta. rewrite test_re_scheme.
  destruct (spec_hasSchemePrefix (trim url)) eqn:H; cbn [negb].
  - destruct (trim url); [discriminate H | discriminate].
  - discriminate.
Qed.

(** X25.  The URL that [startSession] submits is never empty, because
    [normalizeUrl] puts [https://] before a blank field.  So for a form
    with a user name no variant of the handler answers with its
    missing-field refusal: the basic handler goes on to fetch the
    submitted URL, the reader variant asks the reader for it, and the
    multi-page variant either fetches it or, when it does not parse,
    answers 500 before any call. *)
Theorem submitted_url_never_missing :
  forall (newURL : jsstring -> option URL) (f : Demo.Form) (w : World)
         (tr : list Call),
    Demo.userName f <> [] ->
    let req := requestOfBody (generateContextBodyOf f) in
    businessUrl req <> []
    /\ (exists (r : Response) (calls : list Call),
           Basic.POST newURL req w tr
           = (Ok r, tr ++ CallPage (businessUrl req) None :: calls))
    /\ (exists (r : Reader.Response) (calls : list Call),
           Reader.POST newURL req w tr
           = (Ok r, tr ++ readerCall (businessUrl req) :: calls))
    /\ (exists (r : Response) (calls : list Call),
           MultiPage.POST newURL req w tr = (Ok r, tr ++ calls)
           /\ ((calls = []
                /\ r = {| status := 500; body := ErrorBody invalidUrlMessage |})
               \/ exists later : list Call,
                    calls = CallPage (businessUrl req) (Some 5000%Z) :: later)).
Proof.
  intros newURL f w tr Huser req.
  assert (Hurl : businessUrl req <> [])
    by (apply normalizeUrl_not_empty).
  assert (Hu : truthy (userName req) = true).
  { subst req. cbn [requestOfBody generateContextBodyOf userName
                     Demo.gc_userName].
    destruct (Demo.userName f); [congruence | reflexivity]. }
  assert (Hb : truthy (businessUrl req) = true)
    by (destruct (businessUrl req); [congruence | reflexivity]).
  split; [exact Hurl |]. split; [| split].
  - rewrite Basic_POST_run, Hu, Hb. cbn [negb orb].
    destruct (pageBody (getPage w (businessUrl req))) as [html |].
    + cbv zeta. rewrite reuseOrCreate_run.
      destruct (firstMatch _ (listContexts w)) as [[| c t] |]; cbv zeta;
        eexists; eexists; rewrite <- app_assoc; reflexivity.
    + eexists; eexists. reflexivity.
  - rewrite (Reader_POST_run newURL req w tr Hu Hb).
    assert (Hc : exists more, mainCalls w (businessUrl req)
                              = readerCall (businessUrl req) :: more).
    { unfold mainCalls. destruct (readerSuffices _); eexists; reflexivity. }
    destruct Hc as [more ->].
    destruct (mainContentOf w (businessUrl req)) as [[| c m] |];
      [| destruct (newURL (businessUrl req)) as [u |] |]; cbv zeta;
      eexists; eexists; cbn [app]; reflexivity.
  - pose proof (MultiPage_POST_cases newURL req w tr Hu Hb) as H.
    destruct (newURL (businessUrl req)) as [u |].
    + destruct (pageBody (getPage w (businessUrl req))) as [[| c h] |].
      * rewrite H. eexists; eexists. split; [reflexivity |].
        right. eexists. reflexivity.
      * destruct H as (businessName & prompt & ->).
        rewrite reuseOrCreate_run.
        destruct (firstMatch businessName (listContexts w)) as [[| c' t] |];
          cbv zeta; eexists; eexists;
          (split; [rewrite <- app_assoc; reflexivity |]);
          right; eexists; reflexivity.
      * rewrite H. eexists; eexists. split; [reflexivity |].
        right. eexists. reflexivity.
    + rewrite H. eexists; exists []. rewrite app_nil_r.
      split; [reflexivity |]. left. split; reflexivity.
Qed.

(** A form with a user name and a blank URL field: the basic handler is
    asked for [https://] and fetches it. *)
Lemma submitted_url_never_missing_witness :
  exists (r : Response) (calls : list Call),
    Basic.POST parseURL
      (requestOfBody
         (generateContextBodyOf
            {| Demo.userName := js "Al"; Demo.businessUrl := js "  ";
               Demo.selectedAvatar := None |})) worldDown []
    = (Ok r, CallPage (js "https://") None :: calls).
Proof.
  exact (proj1 (proj2 (submitted_url_never_missing parseURL
                         {| Demo.userName := js "Al";
                            Demo.businessUrl := js "  ";
                            Demo.selectedAvatar := None |} worldDown []
                         ltac:(discriminate)))).
Defined.

(** ** The matcher against the declarative reading *)

(** Whatever the matcher returns was reached along a match of the
    expression, followed by the continuation. *)
Lemma firstSome_inv (a b : option mstate) (res : mstate) :
  firstSome a b = Some res -> a = Some res \/ b = Some res.
Proof.
  destruct a as [x |]; cbn; intros H; [left | right]; exact H.
Qed.

Lemma rmatch_sound (r : regex) :
  forall (st : mstate) (k : mstate -> option mstate) (res : mstate),
    rmatch r st k = Some res ->
    exists st', matches r st st' /\ k st' = Some res.
Proof.
  induction r as [| p | a IHa b IHb | a IHa b IHb | a IHa | a IHa | a IHa
                  | a IHa | |]; intros st k res H; cbn [rmatch] in H.
  - exists st. split; [constructor | exact H].
  - destruct (rest st) as [| c t] eqn:Hr; [discriminate |].
    destruct (p c) eqn:Hp; [| discriminate].
    exists (advance st t). split; [econstructor; eassumption | exact H].
  - apply IHa in H. destruct H as (st1 & Ha & H).
    apply IHb in H. destruct H as (st2 & Hb & H).
    exists st2. split; [econstructor; eassumption | exact H].
  - apply firstSome_inv in H. destruct H as [H | H].
    + apply IHa in H. destruct H as (st' & Ha & H).
      exists st'. split; [apply M_AltL; exact Ha | exact H].
    + apply IHb in H. destruct H as (st' & Hb & H).
      exists st'. split; [apply M_AltR; exact Hb | exact H].
  - revert H. generalize (List.length (rest st)). intros fuel. revert st.
    induction fuel as [| fuel IHf]; intros st H.
    + exists st. split; [apply M_StarStop | exact H].
    + apply firstSome_inv in H. destruct H as [H | H].
      * apply IHa in H. destruct H as (st1 & Ha & H).
        destruct (Nat.ltb (idx st) (idx st1)); [| discriminate].
        apply IHf in H. destruct H as (st2 & Hs & H).
        exists st2. split; [eapply M_StarStep; eassumption | exact H].
      * exists st. split; [apply M_StarStop | exact H].
  - revert H. generalize (List.length (rest st)). intros fuel. revert st.
    induction fuel as [| fuel IHf]; intros st H.
    + exists st. split; [apply M_LazyStop | exact H].
    + apply firstSome_inv in H. destruct H as [H | H].
      * exists st. split; [apply M_LazyStop | exact H].
      * apply IHa in H. destruct H as (st1 & Ha & H).
        destruct (Nat.ltb (idx st) (idx st1)); [| discriminate].
        apply IHf in H. destruct H as (st2 & Hs & H).
        exists st2. split; [eapply M_LazyStep; eassumption | exact H].
  - apply firstSome_inv in H. destruct H as [H | H].
    + apply IHa in H. destruct H as (st' & Ha & H).
      exists st'. split; [apply M_OptSome; exact Ha | exact H].
    + exists st. split; [apply M_OptNone | exact H].
  - apply IHa in H. destruct H as (st' & Ha & H).
    eexists. split; [apply M_Group; exact Ha | exact H].
  - destruct (Nat.eqb (idx st) 0) eqn:E; [| discriminate].
    exists st. split; [apply M_Bol, Nat.eqb_eq, E | exact H].
  - destruct (rest st) as [| c t] eqn:E; [| discriminate].
    exists st. split; [apply M_Eol, E | exact H].
Qed.

(** A match consumes a piece at the front of what is left. *)
Lemma matches_consumes (r : regex) (st st' : mstate) :
  matches r st st' ->
  exists consumed : jsstring,
    rest st = consumed ++ rest st'
    /\ idx st' = idx st + List.length consumed.
Proof.
  induction 1 as [st | p st c t Hr Hp | a b st st1 st2 _ IH1 _ IH2
                  | a b st st' _ IH | a b st st' _ IH | a st
                  | a st st1 st2 _ IH1 _ IH2 | a st
                  | a st st1 st2 _ IH1 _ IH2 | a st st' _ IH | a st
                  | a st st' _ IH | st Hi | st Hr];
    try (exists []; split; [reflexivity | cbn; lia]);
    try exact IH.
  - exists [c]. cbn [advance rest idx app List.length].
    split; [exact Hr | lia].
  - destruct IH1 as (c1 & R1 & I1). destruct IH2 as (c2 & R2 & I2).
    exists (c1 ++ c2). rewrite R1, R2, I2, I1, length_app, app_assoc.
    split; [reflexivity | lia].
  - destruct IH1 as (c1 & R1 & I1). destruct IH2 as (c2 & R2 & I2).
    exists (c1 ++ c2). rewrite R1, R2, I2, I1, length_app, app_assoc.
    split; [reflexivity | lia].
  - destruct IH1 as (c1 & R1 & I1). destruct IH2 as (c2 & R2 & I2).
    exists (c1 ++ c2). rewrite R1, R2, I2, I1, length_app, app_assoc.
    split; [reflexivity | lia].
Qed.

(** Without a group the capture is left as it was. *)
Lemma matches_keeps_capture (r : regex) (st st' : mstate) :
  matches r st st' -> noGroup r = true -> cap st' = cap st.
Proof.
  induction 1; cbn [noGroup]; intros Hn;
    try reflexivity;
    try (apply andb_prop in Hn; destruct Hn as [Hn1 Hn2]);
    try discriminate; auto.
  - rewrite IHmatches2, IHmatches1; auto.
  - rewrite IHmatches2, IHmatches1; auto.
  - rewrite IHmatches2, IHmatches1; auto.
Qed.

(** One or more units of a class: the piece consumed lies in the class
    and is not empty. *)
Lemma matches_star_class (p : code_unit -> bool) (r : regex)
  (st st' : mstate) :
  matches r st st' ->
  r = Star (Class p) ->
  exists consumed : jsstring,
    rest st = consumed ++ rest st'
    /\ idx st' = idx st + List.length consumed
    /\ forallb p consumed = true.
Proof.
  induction 1; intros Hr; try discriminate.
  - exists []. repeat split. cbn; lia.
  - injection Hr as ->.
    destruct (IHmatches2 eq_refl) as (c2 & R2 & I2 & P2).
    inversion H; subst. cbn [advance rest idx] in *.
    match goal with
    | Hr : rest _ = ?c :: _, Hp : p ?c = true |- _ =>
        exists (c :: c2); rewrite Hr, R2, I2;
        cbn [app List.length forallb]; rewrite Hp, P2
    end.
    repeat split. lia.
Qed.

Lemma matches_plus_class (p : code_unit -> bool) (st st' : mstate) :
  matches (plus (Class p)) st st' ->
  exists consumed : jsstring,
    rest st = consumed ++ rest st'
    /\ idx st' = idx st + List.length consumed
    /\ forallb p consumed = true
    /\ consumed <> [].
Proof.
  unfold plus. intros H.
  inversion H as [| | a b s0 st1 s2 Hc Hs0 | | | | | | | | | | |]; subst.
  inversion Hc; subst.
  match goal with
  | Hs : matches (Star (Class p)) _ _ |- _ =>
      destruct (matches_star_class p _ _ _ Hs eq_refl) as (c2 & R2 & I2 & P2)
  end.
  cbn [advance rest idx] in *.
  match goal with
  | Hr : rest _ = ?c :: _, Hp : p ?c = true |- _ =>
      exists (c :: c2); rewrite Hr, R2, I2;
      cbn [app List.length forallb]; rewrite Hp, P2
  end.
  repeat split; [lia | discriminate].
Qed.

(** The capture of a group of one or more units of a class, followed by
    an expression without a group, lies in the class, is not empty, and is
    a piece of the text. *)
Lemma matches_group_class (p : code_unit -> bool) (tail : regex)
  (st st' : mstate) :
  noGroup tail = true ->
  matches (Seq (Group (plus (Class p))) tail) st st' ->
  exists g after : jsstring,
    cap st' = Some g /\ rest st = g ++ after
    /\ forallb p g = true /\ g <> [].
Proof.
  intros Hn H. inversion H as [| | a b s0 st1 s2 Hg Ht | | | | | | | | | | |];
    subst.
  rewrite (matches_keeps_capture _ _ _ Ht Hn).
  inversion Hg as [| | | | | | | | | | | a s0 st2 Hp | |]; subst. cbn [cap].
  destruct (matches_plus_class _ _ _ Hp) as (g & R & I & P & Hne).
  exists g, (rest st2). rewrite I, R.
  replace (idx st + List.length g - idx st) with (List.length g) by lia.
  rewrite firstn_app, Nat.sub_diag, firstn_all. cbn [firstn].
  rewrite app_nil_r. repeat split; trivial.
Qed.

(** [exec] returns the state of a match attempt at some suffix. *)
Lemma execFrom_matchAt (r : regex) (s : jsstring) :
  forall (i j : nat) (st : mstate),
    execFrom r i s = Some (j, st) ->
    exists before after : jsstring,
      s = before ++ after /\ matchAt r j after = Some st.
Proof.
  induction s as [| c t IH]; intros i j st H; cbn [execFrom] in H.
  - destruct (matchAt r i []) as [st1 |] eqn:E; [| discriminate].
    injection H as <- <-. exists [], []. split; [reflexivity | exact E].
  - destruct (matchAt r i (c :: t)) as [st1 |] eqn:E.
    + injection H as <- <-. exists [], (c :: t).
      split; [reflexivity | exact E].
    + apply IH in H. destruct H as (before & after & -> & H).
      exists (c :: before), after. split; [reflexivity | exact H].
Qed.

Lemma matches_seq_skip (a b : regex) (st st' : mstate) :
  matches (Seq a b) st st' ->
  exists (st1 : mstate) (consumed : jsstring),
    rest st = consumed ++ rest st1 /\ matches b st1 st'.
Proof.
  intros H.
  inversion H as [| | a0 b0 s0 st1 s2 Ha Hb | | | | | | | | | | |]; subst.
  destruct (matches_consumes _ _ _ Ha) as (consumed & R & _).
  exists st1, consumed. split; [exact R | exact Hb].
Qed.

(** Peel the parts of a sequence that come before its group. *)
Ltac skip_to_group H :=
  repeat (let st1 := fresh "st" in
          let skipped := fresh "skipped" in
          let R := fresh "R" in
          lazymatch type of H with
          | matches (Seq (Group _) _) _ _ => fail
          | matches (Seq _ _) _ _ =>
              apply matches_seq_skip in H;
              destruct H as (st1 & skipped & R & H)
          end).

(** What [matchGroup1] finds for the title expression is a piece of the
    text that holds no [<] and is not empty. *)
Lemma matchGroup1_title (html g : jsstring) :
  matchGroup1 MultiPage.re_title html = Some g ->
  exists before after : jsstring,
    html = before ++ g ++ after
    /\ forallb (fun c => negb (cu_eqb LT c)) g = true
    /\ g <> [].
Proof.
  unfold matchGroup1, exec.
  destruct (execFrom MultiPage.re_title 0 html) as [[j st] |] eqn:E;
    [| discriminate].
  intros Hg. injection Hg as Hg.
  apply execFrom_matchAt in E. destruct E as (before & rest0 & -> & Hm).
  unfold matchAt in Hm. apply rmatch_sound in Hm.
  destruct Hm as (st' & Hmat & Heq). injection Heq as ->.
  unfold MultiPage.re_title in Hmat. cbn [seqs] in Hmat.
  skip_to_group Hmat.
  apply matches_group_class in Hmat; [| reflexivity].
  destruct Hmat as (g' & after & Hcap & Hrest & Hclass & Hne).
  rewrite Hcap in Hg. subst g'.
  cbn [rest] in *.
  exists (before ++ skipped ++ skipped0 ++ skipped1), after.
  split; [| split; assumption].
  rewrite R, R0, R1, Hrest, <- !app_assoc. reflexivity.
Qed.

Lemma matchGroup1_meta (attr value : string) (html g : jsstring) :
  matchGroup1 (MultiPage.re_meta attr value) html = Some g ->
  exists before after : jsstring,
    html = before ++ g ++ after
    /\ forallb (fun c => negb (cu_eqb DQUOTE c || cu_eqb SQUOTE c)) g = true
    /\ g <> [].
Proof.
  unfold matchGroup1, exec.
  destruct (execFrom (MultiPage.re_meta attr value) 0 html) as [[j st] |] eqn:E;
    [| discriminate].
  intros Hg. injection Hg as Hg.
  apply execFrom_matchAt in E. destruct E as (before & rest0 & -> & Hm).
  unfold matchAt in Hm. apply rmatch_sound in Hm.
  destruct Hm as (st' & Hmat & Heq). injection Heq as ->.
  unfold MultiPage.re_meta in Hmat. cbn [seqs] in Hmat.
  skip_to_group Hmat.
  apply matches_group_class in Hmat; [| reflexivity].
  destruct Hmat as (g' & after & Hcap & Hrest & Hclass & Hne).
  rewrite Hcap in Hg. subst g'.
  cbn [rest] in *.
  exists (before ++ skipped ++ skipped0 ++ skipped1 ++ skipped2 ++ skipped3
          ++ skipped4 ++ skipped5 ++ skipped6 ++ skipped7), after.
  split; [| split; assumption].
  rewrite R, R0, R1, R2, R3, R4, R5, R6, R7, Hrest, <- !app_assoc.
  reflexivity.
Qed.

(** X26.  The title that [extractTitle] returns is the trimmed form of a
    piece of the page that holds no [<]; so the title itself holds no [<]
    and has no surrounding whitespace.  Without a match the piece is
    empty. *)
Theorem extractTitle_piece_of_page :
  forall html : jsstring,
    exists before g after : jsstring,
      html = before ++ g ++ after
      /\ forallb (fun c => negb (cu_eqb LT c)) g = true
      /\ MultiPage.extractTitle html = trim g
      /\ forallb (fun c => negb (cu_eqb LT c)) (MultiPage.extractTitle html)
         = true
      /\ trim (MultiPage.extractTitle html) = MultiPage.extractTitle html.
Proof.
  intros html. unfold MultiPage.extractTitle.
  destruct (matchGroup1 MultiPage.re_title html) as [g |] eqn:E.
  - destruct (matchGroup1_title _ _ E) as (before & after & Hh & Hc & _).
    exists before, g, after.
    split; [exact Hh |]. split; [exact Hc |]. split; [reflexivity |].
    split; [apply forallb_trim; exact Hc | apply trim_idem].
  - exists html, [], []. rewrite app_nil_r.
    repeat split; reflexivity.
Qed.

(** X27.  The description that [extractMetaDescription] returns is the
    trimmed form of a piece of the page that holds neither kind of quote
    character; so the description itself holds none and has no
    surrounding whitespace.  Without a match the piece is empty. *)
Theorem extractMetaDescription_piece_of_page :
  forall html : jsstring,
    exists before g after : jsstring,
      html = before ++ g ++ after
      /\ forallb (fun c => negb (cu_eqb DQUOTE c || cu_eqb SQUOTE c)) g = true
      /\ MultiPage.extractMetaDescription html = trim g
      /\ forallb (fun c => negb (cu_eqb DQUOTE c || cu_eqb SQUOTE c))
           (MultiPage.extractMetaDescription html) = true
      /\ trim (MultiPage.extractMetaDescription html)
         = MultiPage.extractMetaDescription html.
Proof.
  intros html. unfold MultiPage.extractMetaDescription.
  destruct (matchGroup1 (MultiPage.re_meta "name=" "description") html)
    as [g |] eqn:E.
  - destruct (matchGroup1_meta _ _ _ _ E) as (before & after & Hh & Hc & _).
    exists before, g, after.
    split; [exact Hh |]. split; [exact Hc |]. split; [reflexivity |].
    split; [apply forallb_trim; exact Hc | apply trim_idem].
  - destruct (matchGroup1 (MultiPage.re_meta "property=" "og:description")
                html) as [g |] eqn:E2.
    + destruct (matchGroup1_meta _ _ _ _ E2) as (before & after & Hh & Hc & _).
      exists before, g, after.
      split; [exact Hh |]. split; [exact Hc |]. split; [reflexivity |].
      split; [apply forallb_trim; exact Hc | apply trim_idem].
    + exists html, [], []. rewrite app_nil_r.
      repeat split; reflexivity.
Qed.

(** ** The extracted text is no longer than the page *)

Lemma matchAt_consumes (r : regex) (i : nat) (s : jsstring) (st : mstate) :
  matchAt r i s = Some st ->
  exists consumed : jsstring,
    s = consumed ++ rest st /\ idx st = i + List.length consumed.
Proof.
  unfold matchAt. intros H. apply rmatch_sound in H.
  destruct H as (st' & Hm & Heq). injection Heq as ->.
  exact (matches_consumes _ _ _ Hm).
Qed.

Lemma minLength_zero (r : regex) : minLength r 0.
Proof.
  intros i s st H. destruct (matchAt_consumes _ _ _ _ H) as (c & _ & ->). lia.
Qed.

Lemma minLength_class_first (p : code_unit -> bool) (b : regex) :
  minLength (Seq (Class p) b) 1.
Proof.
  intros i s st H. unfold matchAt in H. apply rmatch_sound in H.
  destruct H as (st' & Hm & Heq). injection Heq as ->.
  inversion Hm as [| | a0 b0 s0 st1 s2 Ha Hb | | | | | | | | | | |]; subst.
  destruct (matches_consumes _ _ _ Hb) as (c & _ & ->).
  inversion Ha; subst. cbn [advance idx]. lia.
Qed.

Lemma replaceAllFrom_length (r : regex) (repl : jsstring) :
  minLength r (List.length repl) ->
  forall (fuel i : nat) (s : jsstring),
    List.length (replaceAllFrom fuel r repl i s) <= List.length s.
Proof.
  intros Hmin. induction fuel as [| fuel IH]; intros i s; [apply le_n |].
  cbn [replaceAllFrom].
  destruct (matchAt r i s) as [st |] eqn:E.
  - pose proof (Hmin _ _ _ E) as Hlen.
    destruct (matchAt_consumes _ _ _ _ E) as (consumed & Hs & Hidx).
    pose proof (f_equal (@List.length _) Hs) as Hl.
    rewrite length_app in Hl.
    destruct (Nat.ltb i (idx st)) eqn:Hlt.
    + rewrite length_app.
      pose proof (IH (idx st) (rest st)) as Hrec. lia.
    + apply Nat.ltb_ge in Hlt. rewrite length_app. destruct s as [| c t].
      * cbn [List.length] in *. lia.
      * cbn [List.length] in *. pose proof (IH (S i) t) as Hrec. lia.
  - destruct s as [| c t]; [apply le_n |].
    cbn [List.length]. pose proof (IH (S i) t) as Hrec. lia.
Qed.

Lemma replaceAll_length (r : regex) (repl s : jsstring) :
  minLength r (List.length repl) ->
  List.length (replaceAll r repl s) <= List.length s.
Proof.
  intros Hmin. unfold replaceAll. apply replaceAllFrom_length. exact Hmin.
Qed.

Lemma trim_length (s : jsstring) : List.length (trim s) <= List.length s.
Proof.
  unfold trim, trimEnd. rewrite length_rev.
  eapply Nat.le_trans; [apply trimStart_length |].
  rewrite length_rev. apply trimStart_length.
Qed.

Ltac shorter_step :=
  eapply Nat.le_trans;
  [apply replaceAll_length;
   first [exact (minLength_zero _) | exact (minLength_class_first _ _)] |].

Lemma decodeAndClean_length (text : jsstring) :
  List.length (decodeAndClean text) <= List.length text.
Proof.
  unfold decodeAndClean. cbv zeta.
  eapply Nat.le_trans; [apply trim_length |].
  repeat shorter_step. apply le_n.
Qed.

(** X28.  The text that [extractTextFromHtml] returns is never longer than
    the page it was given, in all three variants: every replacement puts
    at most as many units as it takes out. *)
Theorem extractTextFromHtml_not_longer :
  forall html : jsstring,
    List.length (Basic.extractTextFromHtml html) <= List.length html
    /\ List.length (MultiPage.extractTextFromHtml html) <= List.length html
    /\ List.length (Reader.extractTextFromHtml html) <= List.length html.
Proof.
  intros html.
  unfold Basic.extractTextFromHtml, MultiPage.extractTextFromHtml,
    Reader.extractTextFromHtml. cbv zeta.
  split; [| split];
    (eapply Nat.le_trans; [apply decodeAndClean_length |]);
    repeat shorter_step; apply le_n.
Qed.
